(** * django-feeds: the feed synchronisation engine

    A shallow embedding of [djangofeeds/importers.py] and of the helpers of
    [djangofeeds/feedutil.py], with the properties the specification states
    about them.

    The code is Python 2.  What the code takes from its runtime and from its
    libraries is modelled as follows.
    - A feedparser entry is a dictionary with a known set of keys; it is a
      record of optional fields here, and [entry_items] gives back the
      dictionary when the code compares entries as dictionaries.
    - The Django ORM is a store of rows with primary keys; [get],
      [get_or_create], [create], [filter] and [save] follow Django's manager.
    - Exceptions are an error result; the store keeps the writes made before
      an exception, since no transaction is opened.
    - The clock, the C library's calendar functions, the feed parser, the
      HTML truncation and the settings are the fields of [Env]; the
      calendar functions and the truncation return or raise. *)

From Stdlib Require Import ZArith String Ascii List Sorted Permutation Lia.
From stdpp Require Import base gmap strings list.

Open Scope Z_scope.

(** ** Python 2 built-ins *)

Module Py.

(** [str.strip()]: leading and trailing white space is removed. *)
Definition is_space (c : ascii) : bool :=
  let n := nat_of_ascii c in
  (n =? 32)%nat || ((9 <=? n)%nat && (n <=? 13)%nat).

Fixpoint lstrip_chars (l : list ascii) : list ascii :=
  match l with
  | [] => []
  | c :: l' => if is_space c then lstrip_chars l' else l
  end.

Definition strip (s : string) : string :=
  string_of_list_ascii
    (rev (lstrip_chars (rev (lstrip_chars (list_ascii_of_string s))))).

(** The number of items [seq[:stop]] keeps of a sequence of [len] items:
    a negative [stop] counts from the end. *)
Definition slice_stop (len : nat) (stop : Z) : nat :=
  if 0 <=? stop then Nat.min (Z.to_nat stop) len
  else Z.to_nat (Z.of_nat len + stop).

Fixpoint str_take (n : nat) (s : string) : string :=
  match n, s with
  | S n', String c s' => String c (str_take n' s')
  | _, _ => EmptyString
  end.

(** [s[:stop]] on a string; [stop] is [None] for Python's [None]. *)
Definition str_slice_to (stop : option Z) (s : string) : string :=
  match stop with
  | None => s
  | Some z => str_take (slice_stop (String.length s) z) s
  end.

(** [l[:stop]] on a list. *)
Definition slice_to {A} (stop : option Z) (l : list A) : list A :=
  match stop with
  | None => l
  | Some z => take (slice_stop (length l) z) l
  end.

(** Truth value of a string: the empty string is false. *)
Definition truthy (s : string) : bool := negb (String.eqb s "").

(** [value > n] for a string [value] and [n] an integer or [None].  CPython 2
    orders objects of different types with [None] first, then the numbers,
    then the other types by type name: a string is greater than either. *)
Definition str_gt_number (value : string) (n : option Z) : bool := true.

End Py.

(** ** Truncation by the model fields (importers.py, lines 163-186) *)

(** What [truncate_by_field] reads of a Django model field:
    [hasattr(field, "max_length")] and the attribute, which is [None] or an
    integer. *)
Inductive field_attr :=
| NoMaxLength
| MaxLength (m : option Z).

Definition truncate_by_field (field : field_attr) (value : string) : string :=
  match field with
  | MaxLength m =>
      if Py.str_gt_number value m then Py.str_slice_to m value else value
  | NoMaxLength => value
  end.

(** ** Python 2 ordering of the values found in an entry *)

(** [time.struct_time]: the nine fields [tm_year .. tm_isdst]; it compares
    as the tuple of its fields. *)
Definition struct_time := list Z.

(** The members of the lists found in an entry: dictionaries of strings
    (content blocks, enclosures) and pairs of strings (categories). *)
Inductive pyitem :=
| IDict (d : gmap string string)
| IPair (p : string * string).

(** The values of an entry's items. *)
Inductive pyval :=
| PNone
| PStr (s : string)
| PTime (t : struct_time)
| PList (l : list pyitem).

Global Instance pyitem_eq_dec : EqDecision pyitem.
Proof. solve_decision. Defined.

Global Instance pyval_eq_dec : EqDecision pyval.
Proof. solve_decision. Defined.

Module PyCmp.

(** Sequences compare by their first differing items, then by length. *)
Fixpoint seq_compare {A} (cmp : A → A → comparison) (l1 l2 : list A)
  : comparison :=
  match l1, l2 with
  | [], [] => Eq
  | [], _ :: _ => Lt
  | _ :: _, [] => Gt
  | x :: l1', y :: l2' =>
      match cmp x y with
      | Eq => seq_compare cmp l1' l2'
      | c => c
      end
  end.

Definition pair_compare (p q : string * string) : comparison :=
  match String.compare p.1 q.1 with
  | Eq => String.compare p.2 q.2
  | c => c
  end.

Section dict.
Context {V : Type} `{EqDecision V}.
Variable vcmp : V → V → comparison.

(** An item of [a] that [b] does not have with an equal value. *)
Definition differs (b : gmap string V) (kv : string * V) : bool :=
  bool_decide (b !! kv.1 ≠ Some kv.2).

Definition smaller_key (x y : string * V) : string * V :=
  match String.compare x.1 y.1 with
  | Gt => y
  | _ => x
  end.

Fixpoint smallest (l : list (string * V)) : option (string * V) :=
  match l with
  | [] => None
  | x :: l' =>
      match smallest l' with
      | None => Some x
      | Some y => Some (smaller_key x y)
      end
  end.

(** CPython's [characterize(a, b)]: the item of [a] with the smallest key
    among those on which [b] differs. *)
Definition characterize (a b : gmap string V) : option (string * V) :=
  smallest (List.filter (differs b) (map_to_list a)).

(** CPython's [dict_compare]: by size, then by the smallest differing
    keys, then by the values at them. *)
Definition dict_compare (a b : gmap string V) : comparison :=
  match Nat.compare (size a) (size b) with
  | Eq =>
      match characterize a b, characterize b a with
      | Some (ka, va), Some (kb, vb) =>
          match String.compare ka kb with
          | Eq => vcmp va vb
          | c => c
          end
      | _, _ => Eq
      end
  | c => c
  end.
End dict.

(** Objects of different types compare by the name of their type: "dict"
    is before "tuple". *)
Definition item_compare (x y : pyitem) : comparison :=
  match x, y with
  | IDict a, IDict b => dict_compare String.compare a b
  | IPair p, IPair q => pair_compare p q
  | IDict _, IPair _ => Lt
  | IPair _, IDict _ => Gt
  end.

(** [None] is before everything; "list" is before "str", which is before
    "time.struct_time". *)
Definition type_rank (v : pyval) : nat :=
  match v with
  | PNone => 0
  | PList _ => 1
  | PStr _ => 2
  | PTime _ => 3
  end.

Definition compare (v w : pyval) : comparison :=
  match v, w with
  | PStr s, PStr t => String.compare s t
  | PTime s, PTime t => seq_compare Z.compare s t
  | PList s, PList t => seq_compare item_compare s t
  | _, _ => Nat.compare (type_rank v) (type_rank w)
  end.

End PyCmp.

(** ** Data model *)

(** An entry as the feed parser gives it.  A field is [None] when the entry
    has no such key.  A parsed date can be present and [None] (the parser
    could not read it): that is [Some None]. *)
Record Entry := {
  e_date_parsed : option (option struct_time);
  e_updated_parsed : option (option struct_time);
  e_published_parsed : option (option struct_time);
  e_content : option (list (gmap string string));
  e_summary : option string;
  e_description : option string;
  e_link : option string;
  e_guid : option string;
  e_title : option string;
  e_author : option string;
  e_categories : option (list (string * string));
  e_enclosures : option (list (gmap string string));
}.

Definition date_value (d : option struct_time) : pyval :=
  match d with
  | Some t => PTime t
  | None => PNone
  end.

Definition item (key : string) (v : option pyval) : list (string * pyval) :=
  match v with
  | Some x => [(key, x)]
  | None => []
  end.

(** The entry as the dictionary it is. *)
Definition entry_items (e : Entry) : gmap string pyval :=
  list_to_map
    (item "date_parsed" (date_value <$> e_date_parsed e) ++
     item "updated_parsed" (date_value <$> e_updated_parsed e) ++
     item "published_parsed" (date_value <$> e_published_parsed e) ++
     item "content" ((λ l, PList (IDict <$> l)) <$> e_content e) ++
     item "summary" (PStr <$> e_summary e) ++
     item "description" (PStr <$> e_description e) ++
     item "link" (PStr <$> e_link e) ++
     item "guid" (PStr <$> e_guid e) ++
     item "title" (PStr <$> e_title e) ++
     item "author" (PStr <$> e_author e) ++
     item "categories" ((λ l, PList (IPair <$> l)) <$> e_categories e) ++
     item "enclosures" ((λ l, PList (IDict <$> l)) <$> e_enclosures e)).

Record Channel := {
  ch_title : option string;
  ch_description : option string;
  ch_categories : option (list (string * string));
}.

(** What the parser returns for a feed.  [pf_ints] holds the items of the
    result whose values are integers, by key ("status"); the other items
    the code reads are fields. *)
Record ParsedFeed := {
  pf_ints : gmap string Z;
  pf_href : string;
  pf_etag : option string;
  pf_modified : option struct_time;
  pf_entries : list Entry;
  pf_channel : Channel;
}.

Inductive parse_outcome :=
| Parsed (feed : ParsedFeed)
| ParseTimeout
| ParseFailed.

(** Rows of [djangofeeds.models].  Instants ([datetime]) are integers, in
    microseconds. *)
Record Feed := {
  feed_pk : nat;
  feed_url : string;
  feed_name : string;
  feed_description : string;
  feed_sort : Z;
  feed_last_error : string;
  date_last_refresh : option Z;
  http_etag : option string;
  http_last_modified : option Z;
}.

(** The parsed fields of a post: the keys of [post_field_handlers]. *)
Record PostFields := {
  f_content : string;
  f_date_published : Z;
  f_date_updated : Z;
  f_link : string;
  f_feed : nat;
  f_guid : string;
  f_title : string;
  f_author : string;
}.

Record Post := {
  post_pk : nat;
  post_fields : PostFields;
}.

Record Category := {
  cat_pk : nat;
  cat_name : string;
  cat_domain : string;
}.

Global Instance Feed_eq_dec : EqDecision Feed.
Proof. solve_decision. Defined.
Global Instance PostFields_eq_dec : EqDecision PostFields.
Proof. solve_decision. Defined.
Global Instance Post_eq_dec : EqDecision Post.
Proof. solve_decision. Defined.

(** One call of the feed parser. *)
Record fetch_call := {
  fc_url : string;
  fc_etag : option string;
  fc_modified : option struct_time;
  fc_timeout : Z;
}.

(** The state the engine runs in: the clock reads made so far, the calls
    of the parser, and the tables of the store. *)
Record world := {
  w_ticks : nat;
  w_fetches : list fetch_call;
  w_feeds : list Feed;
  w_posts : list Post;
  w_categories : list Category;
  w_feed_categories : list (nat * nat);
  w_post_categories : list (nat * nat);
  w_post_enclosures : list (nat * nat);
}.

Definition set_ticks (n : nat) (w : world) : world :=
  {| w_ticks := n; w_fetches := w_fetches w; w_feeds := w_feeds w;
     w_posts := w_posts w; w_categories := w_categories w;
     w_feed_categories := w_feed_categories w;
     w_post_categories := w_post_categories w;
     w_post_enclosures := w_post_enclosures w |}.

Definition set_fetches (l : list fetch_call) (w : world) : world :=
  {| w_ticks := w_ticks w; w_fetches := l; w_feeds := w_feeds w;
     w_posts := w_posts w; w_categories := w_categories w;
     w_feed_categories := w_feed_categories w;
     w_post_categories := w_post_categories w;
     w_post_enclosures := w_post_enclosures w |}.

Definition set_feeds (l : list Feed) (w : world) : world :=
  {| w_ticks := w_ticks w; w_fetches := w_fetches w; w_feeds := l;
     w_posts := w_posts w; w_categories := w_categories w;
     w_feed_categories := w_feed_categories w;
     w_post_categories := w_post_categories w;
     w_post_enclosures := w_post_enclosures w |}.

Definition set_posts (l : list Post) (w : world) : world :=
  {| w_ticks := w_ticks w; w_fetches := w_fetches w; w_feeds := w_feeds w;
     w_posts := l; w_categories := w_categories w;
     w_feed_categories := w_feed_categories w;
     w_post_categories := w_post_categories w;
     w_post_enclosures := w_post_enclosures w |}.

Definition set_categories (l : list Category) (w : world) : world :=
  {| w_ticks := w_ticks w; w_fetches := w_fetches w; w_feeds := w_feeds w;
     w_posts := w_posts w; w_categories := l;
     w_feed_categories := w_feed_categories w;
     w_post_categories := w_post_categories w;
     w_post_enclosures := w_post_enclosures w |}.

Definition set_feed_categories (l : list (nat * nat)) (w : world) : world :=
  {| w_ticks := w_ticks w; w_fetches := w_fetches w; w_feeds := w_feeds w;
     w_posts := w_posts w; w_categories := w_categories w;
     w_feed_categories := l;
     w_post_categories := w_post_categories w;
     w_post_enclosures := w_post_enclosures w |}.

Definition set_post_categories (l : list (nat * nat)) (w : world) : world :=
  {| w_ticks := w_ticks w; w_fetches := w_fetches w; w_feeds := w_feeds w;
     w_posts := w_posts w; w_categories := w_categories w;
     w_feed_categories := w_feed_categories w;
     w_post_categories := l;
     w_post_enclosures := w_post_enclosures w |}.

Definition set_post_enclosures (l : list (nat * nat)) (w : world) : world :=
  {| w_ticks := w_ticks w; w_fetches := w_fetches w; w_feeds := w_feeds w;
     w_posts := w_posts w; w_categories := w_categories w;
     w_feed_categories := w_feed_categories w;
     w_post_categories := w_post_categories w;
     w_post_enclosures := l |}.

(** ** Exceptions and the monad of the engine *)

(** The exceptions the engine meets.  [FeedCriticalError] carries its
    attribute [status], which is [None] or a number. *)
Inductive exn :=
| NameError (name : string)
| AttributeError
| TypeError
| ValueError
| OverflowError
| UnicodeDecodeError
| DoesNotExist
| MultipleObjectsReturned
| FeedNotFoundError
| FeedCriticalError (status : option Z)
| RecursionDepthExceeded.

Inductive result (A : Type) :=
| Ok (a : A)
| Raise (e : exn).
Arguments Ok {A} a.
Arguments Raise {A} e.

Definition M (A : Type) : Type := world → result A * world.

Definition ret {A} (a : A) : M A := λ w, (Ok a, w).

Definition raise {A} (e : exn) : M A := λ w, (Raise e, w).

(** A call of a library function that reads and writes nothing of the
    world: it returns or raises. *)
Definition call {A} (r : result A) : M A := λ w, (r, w).

Definition bind {A B} (m : M A) (k : A → M B) : M B :=
  λ w, match m w with
       | (Ok a, w') => k a w'
       | (Raise e, w') => (Raise e, w')
       end.

(** [try: m except: h]; the handler passes on what it does not catch. *)
Definition try_except {A} (m : M A) (h : exn → M A) : M A :=
  λ w, match m w with
       | (Ok a, w') => (Ok a, w')
       | (Raise e, w') => h e w'
       end.

Notation "'let!' x ':=' m 'in' k" := (bind m (λ x, k))
  (at level 10, x pattern, m at level 100, k at level 200).

(** A list comprehension whose body has effects. *)
Fixpoint for_each {A B} (f : A → M B) (l : list A) : M (list B) :=
  match l with
  | [] => ret []
  | x :: l' =>
      let! y := f x in
      let! ys := for_each f l' in
      ret (y :: ys)
  end.

(** ** The environment of the engine *)

(** What the code takes from outside [src/]: the clock, the C library, the
    template filter of Django, the feed parser, the settings, the constants
    and the field declarations of [djangofeeds.models]. *)
Record Env := {
  (** the instant the k-th read of the clock returns *)
  clock : nat → Z;
  (** [time.localtime(t)], also [datetime.timetuple()] *)
  localtime : Z → struct_time;
  (** [datetime.fromtimestamp(time.mktime(t))]: the instant, or the
      exception of the C library for a date it cannot convert
      ([ValueError], [OverflowError]) *)
  mktime : struct_time → result Z;
  (** [django.utils.text.truncate_html_words]: the truncated text, or the
      exception raised for a text that cannot be decoded
      ([UnicodeDecodeError]) *)
  truncate_html_words : string → Z → result string;
  (** [feedparser.parse(url, etag=..., modified=...)] *)
  parser_parse : string → option string → option struct_time → parse_outcome;
  (** [settings.DJANGOFEEDS_MIN_REFRESH_INTERVAL], as a [timedelta] *)
  MIN_REFRESH_INTERVAL : Z;
  (** [settings.DJANGOFEEDS_FEED_TIMEOUT] *)
  FEED_TIMEOUT : Z;
  (** [djangofeeds.conf.DEFAULT_ENTRY_WORD_LIMIT] *)
  DEFAULT_ENTRY_WORD_LIMIT : Z;
  FEED_TIMEDOUT_ERROR : string;
  FEED_NOT_FOUND_ERROR : string;
  FEED_GENERIC_ERROR : string;
  (** [Post._meta.fields] and [Feed._meta.fields], by field name *)
  Post_field : string → field_attr;
  Feed_field : string → field_attr;
}.

(** The attributes of a [FeedImporter]. *)
Record FeedImporter := {
  post_limit : option Z;
  update_on_import : bool;
  include_categories : bool;
  include_enclosures : bool;
  timeout : Z;
}.

Definition HTTP_OK : Z := 200.
Definition HTTP_MOVED : Z := 301.
Definition HTTP_FOUND : Z := 302.
Definition HTTP_NOT_MODIFIED : Z := 304.
Definition HTTP_TEMPORARY_REDIRECT : Z := 307.
Definition HTTP_NOT_FOUND : Z := 404.

Definition ACCEPTED_STATUSES : list Z :=
  [HTTP_FOUND; HTTP_MOVED; HTTP_OK; HTTP_TEMPORARY_REDIRECT].
Definition DEFAULT_POST_LIMIT : Z := 20.
Definition DEFAULT_SUMMARY_MAX_WORDS : Z := 25.

Definition status_in (status : Z) (l : list Z) : bool :=
  existsb (Z.eqb status) l.

(** ** The store (Django's managers) *)

Module Store.

Definition fresh_pk (pks : list nat) : nat := S (foldr Nat.max 0%nat pks).

(** [Model.objects.get] with keyword lookups, on the rows of a table. *)
Definition get {A} (rows : list A) (lookup : A → bool) : result A :=
  match List.filter lookup rows with
  | [] => Raise DoesNotExist
  | [row] => Ok row
  | _ :: _ :: _ => Raise MultipleObjectsReturned
  end.

(** [row.save()]: the row with this primary key is written; a row that
    is not in the table is inserted. *)
Definition save {A} (pk : A → nat) (row : A) (rows : list A) : list A :=
  if existsb (λ r, Nat.eqb (pk r) (pk row)) rows
  then List.map (λ r, if Nat.eqb (pk r) (pk row) then row else r) rows
  else rows ++ [row].

(** [related.add] of some rows, on a many-to-many relation. *)
Definition add_links (owner : nat) (pks : list nat) (links : list (nat * nat))
  : list (nat * nat) :=
  foldl (λ acc pk,
           if existsb (λ l, Nat.eqb l.1 owner && Nat.eqb l.2 pk) acc
           then acc else acc ++ [(owner, pk)])
        links pks.

End Store.

(** ** djangofeeds/importers.py *)

Section importers.
Context (E : Env).

(** [datetime.now()] and [time.localtime()] read the clock. *)
Definition datetime_now : M Z :=
  λ w, (Ok (clock E (w_ticks w)), set_ticks (S (w_ticks w)) w).

Definition time_localtime : M struct_time :=
  λ w, (Ok (localtime E (clock E (w_ticks w))), set_ticks (S (w_ticks w)) w).

Definition summarize_html (text : string) : M string :=
  call (truncate_html_words E text DEFAULT_SUMMARY_MAX_WORDS).

(** *** entries_by_date (lines 107-129) *)

Definition date_entry_tuple (entry : Entry) : M (pyval * Entry) :=
  match e_date_parsed entry with
  | Some d => ret (date_value d, entry)
  | None =>
      match e_updated_parsed entry with
      | Some d => ret (date_value d, entry)
      | None =>
          match e_published_parsed entry with
          | Some d => ret (date_value d, entry)
          | None => let! t := time_localtime in ret (PTime t, entry)
          end
      end
  end.

(** The order of the [(date, entry)] tuples: by the date, then by the
    entry, a dictionary. *)
Definition tuple_compare (x y : pyval * Entry) : comparison :=
  match PyCmp.compare x.1 y.1 with
  | Eq => PyCmp.dict_compare PyCmp.compare (entry_items x.2) (entry_items y.2)
  | c => c
  end.

Definition tuple_lt (x y : pyval * Entry) : bool :=
  match tuple_compare x y with
  | Lt => true
  | _ => false
  end.

(** [list.sort()]: a stable sort by [<]. *)
Fixpoint sort_insert (x : pyval * Entry) (l : list (pyval * Entry))
  : list (pyval * Entry) :=
  match l with
  | [] => [x]
  | y :: l' => if tuple_lt y x then y :: sort_insert x l' else x :: l
  end.

Definition list_sort (l : list (pyval * Entry)) : list (pyval * Entry) :=
  foldr sort_insert [] l.

(** The list [sorted_entries[:limit]] of the last line. *)
Definition sorted_entries_upto (entries : list Entry) (limit : option Z)
  : M (list (pyval * Entry)) :=
  let! sorted_entries := for_each date_entry_tuple entries in
  let sorted_entries := list_sort sorted_entries in
  let sorted_entries := rev sorted_entries in
  ret (Py.slice_to limit sorted_entries).

Definition entries_by_date (entries : list Entry) (limit : option Z)
  : M (list Entry) :=
  let! sliced := sorted_entries_upto entries limit in
  ret (snd <$> sliced).

(** *** The field handlers (lines 132-160, 233-243) *)

Definition _find_post_summary (feed_obj : Feed) (entry : Entry) : M string :=
  let content :=
    match e_content entry with
    | Some (block :: _) => default "" (block !! "value")
    | Some [] => ""
    | None => ""
    end in
  summarize_html (default content (e_summary entry)).

(** [datetime.fromtimestamp(time.mktime(v))] for a parsed date [v], which
    is a [struct_time] or [None]: [time.mktime(None)] raises [TypeError]. *)
Definition fromtimestamp_mktime (v : option struct_time) : M Z :=
  match v with
  | Some t => call (mktime E t)
  | None => raise TypeError
  end.

(** [_gen_parsed_date_to_datetime(field_name)] (lines 141-160): the
    [try] statement catches [TypeError] only. *)
Definition _parsed_date_to_datetime
    (field : Entry → option (option struct_time))
    (feed_obj : Feed) (entry : Entry) : M Z :=
  match field entry with
  | Some v =>
      try_except (fromtimestamp_mktime v)
        (λ e, match e with
              | TypeError => datetime_now
              | _ => raise e
              end)
  | None => datetime_now
  end.

Definition handle_link (feed_obj : Feed) (entry : Entry) : string :=
  match e_link entry with
  | Some l => if Py.truthy l then l else feed_url feed_obj
  | None => feed_url feed_obj
  end.

Definition handle_guid (feed_obj : Feed) (entry : Entry) : string :=
  Py.strip (default "" (e_guid entry)).

Definition handle_title (feed_obj : Feed) (entry : Entry) : string :=
  Py.strip (default "(no title)" (e_title entry)).

Definition handle_author (feed_obj : Feed) (entry : Entry) : string :=
  Py.strip (default "" (e_author entry)).

(** [post_fields_parsed]: every handler of [post_field_handlers] is
    applied, in the order of the items of that dictionary; with the hash
    of strings and the dictionaries of CPython 2.6 and 2.7 the keys come
    as content, date_published, link, author, title, date_updated, guid,
    feed.  The handlers of the content and of the two dates are the ones
    that can raise or read the clock; the others are pure. *)
Definition post_fields_parsed (entry : Entry) (feed_obj : Feed)
  : M PostFields :=
  let! content := _find_post_summary feed_obj entry in
  let! date_published :=
    _parsed_date_to_datetime e_published_parsed feed_obj entry in
  let! date_updated :=
    _parsed_date_to_datetime e_updated_parsed feed_obj entry in
  ret {| f_content := content;
         f_date_published := date_published;
         f_date_updated := date_updated;
         f_link := handle_link feed_obj entry;
         f_feed := feed_pk feed_obj;
         f_guid := handle_guid feed_obj entry;
         f_title := handle_title feed_obj entry;
         f_author := handle_author feed_obj entry |}.

(** [truncate_field_data(Post, fields)]: the values that are strings are
    truncated by the field of their name; the dates and the feed are not
    strings and pass unchanged. *)
Definition truncate_post_data (data : PostFields) : PostFields :=
  {| f_content := truncate_by_field (Post_field E "content") (f_content data);
     f_date_published := f_date_published data;
     f_date_updated := f_date_updated data;
     f_link := truncate_by_field (Post_field E "link") (f_link data);
     f_feed := f_feed data;
     f_guid := truncate_by_field (Post_field E "guid") (f_guid data);
     f_title := truncate_by_field (Post_field E "title") (f_title data);
     f_author := truncate_by_field (Post_field E "author") (f_author data) |}.

(** *** The posts of the store *)

Definition by_guid (guid : string) (feed_obj : Feed) (p : Post) : bool :=
  String.eqb (f_guid (post_fields p)) guid
  && Nat.eqb (f_feed (post_fields p)) (feed_pk feed_obj).

Definition by_title (title : string) (feed_obj : Feed) (date_published : Z)
    (p : Post) : bool :=
  String.eqb (f_title (post_fields p)) title
  && Nat.eqb (f_feed (post_fields p)) (feed_pk feed_obj)
  && Z.eqb (f_date_published (post_fields p)) date_published.

Definition Post_create (params : PostFields) : M Post :=
  λ w, let post := {| post_pk := Store.fresh_pk (post_pk <$> w_posts w);
                      post_fields := params |} in
       (Ok post, set_posts (w_posts w ++ [post]) w).

(** [Post.objects.get_or_create(defaults=fields, lookups)]: the lookups
    are items of [fields] with the same values, so the row created has
    the values of [fields]. *)
Definition Post_get_or_create (lookup : Post → bool) (params : PostFields)
  : M (Post * bool) :=
  λ w, match Store.get (w_posts w) lookup with
       | Ok post => (Ok (post, false), w)
       | Raise DoesNotExist =>
           (let! post := Post_create params in ret (post, true)) w
       | Raise e => (Raise e, w)
       end.

Definition Post_save (post : Post) : M unit :=
  λ w, (Ok tt, set_posts (Store.save post_pk post (w_posts w)) w).

(** *** _find_duplicate_post (lines 529-540) *)

Definition cmp_fields : list string := ["author"; "link"; "content"].

(** The inner loop over [cmp_fields].  Its first statement reads the name
    [possible_dupe], which no statement binds: the loop variable is
    [possible]. *)
Definition compare_fields (possible : Post) (fields : PostFields)
    (names : list string) : result (option Post) :=
  match names with
  | [] => Ok None
  | field :: _ => Raise (NameError "possible_dupe")
  end.

Fixpoint scan_possible (rows : list Post) (fields : PostFields)
  : result (option Post) :=
  match rows with
  | [] => Ok None
  | possible :: rows' =>
      match compare_fields possible fields cmp_fields with
      | Ok None => scan_possible rows' fields
      | r => r
      end
  end.

Definition _find_duplicate_post (lookup_fields : Post → bool)
    (fields : PostFields) : M (option Post) :=
  λ w, (scan_possible (List.filter lookup_fields (w_posts w)) fields, w).

(** *** Categories and enclosures (lines 343-361, 441-455) *)

Definition Category_get_or_create (name domain : string) : M Category :=
  λ w, match Store.get (w_categories w)
               (λ c, String.eqb (cat_name c) name
                     && String.eqb (cat_domain c) domain) with
       | Ok cat => (Ok cat, w)
       | Raise DoesNotExist =>
           let cat := {| cat_pk := Store.fresh_pk (cat_pk <$> w_categories w);
                         cat_name := name; cat_domain := domain |} in
           (Ok cat, set_categories (w_categories w ++ [cat]) w)
       | Raise e => (Raise e, w)
       end.

Definition create_category (domain name : string) : M Category :=
  let domain := Py.strip domain in
  let name := Py.strip name in
  Category_get_or_create name domain.

Definition get_categories (categories : option (list (string * string)))
  : M (list Category) :=
  match categories with
  | Some cats => for_each (λ cat, create_category cat.1 cat.2) cats
  | None => ret []
  end.

(** [get_enclosures] returns the empty list for an entry without
    enclosures and falls off its end, returning [None], for the others:
    its second [return] cannot be reached. *)
Definition get_enclosures (entry : Entry) : option (list nat) :=
  match e_enclosures entry with
  | None => Some []
  | Some _ => None
  end.

(** *** import_entry (lines 463-527) *)

(** The statement of lines 473-505: the post is looked up by its guid,
    or without guid by its title and date, and created when it is not
    found.  The result is the pair [(post, created)]. *)
Definition store_post (fields : PostFields) (feed_obj : Feed)
  : M (Post * bool) :=
  if Py.truthy (f_guid fields) then
    Post_get_or_create (by_guid (f_guid fields) feed_obj) fields
  else
    let lookup_fields :=
      by_title (f_title fields) feed_obj (f_date_published fields) in
    try_except (Post_get_or_create lookup_fields fields)
      (λ e, match e with
            | MultipleObjectsReturned =>
                let! dupe := _find_duplicate_post lookup_fields fields in
                match dupe with
                | Some post => ret (post, false)
                | None =>
                    let! post := Post_create fields in ret (post, true)
                end
            | _ => raise e
            end).

(** The statements of lines 507-527: a post that was not created is
    saved, then the enclosures and the categories are added when the
    importer includes them. *)
Definition save_and_attach (self : FeedImporter) (entry : Entry)
    (post : Post) (created : bool) : M Post :=
  let! _ := if created then ret tt else Post_save post in
  let! _ :=
    if include_enclosures self then
      let enclosures := default [] (get_enclosures entry) in
      λ w, (Ok tt, set_post_enclosures
                     (Store.add_links (post_pk post) enclosures
                        (w_post_enclosures w)) w)
    else ret tt in
  let! _ :=
    if include_categories self then
      let! categories := get_categories (e_categories entry) in
      λ w, (Ok tt, set_post_categories
                     (Store.add_links (post_pk post) (cat_pk <$> categories)
                        (w_post_categories w)) w)
    else ret tt in
  ret post.

Definition import_entry (self : FeedImporter) (entry : Entry)
    (feed_obj : Feed) : M Post :=
  let! fields := post_fields_parsed entry feed_obj in
  let fields := truncate_post_data fields in
  let! pc := store_post fields feed_obj in
  save_and_attach self entry pc.1 pc.2.

(** *** The feeds of the store *)

Definition with_last_error (err : string) (f : Feed) : Feed :=
  {| feed_pk := feed_pk f; feed_url := feed_url f; feed_name := feed_name f;
     feed_description := feed_description f; feed_sort := feed_sort f;
     feed_last_error := err;
     date_last_refresh := date_last_refresh f;
     http_etag := http_etag f;
     http_last_modified := http_last_modified f |}.

Definition with_refresh (now : Z) (etag : string) (modified : option Z)
    (f : Feed) : Feed :=
  {| feed_pk := feed_pk f; feed_url := feed_url f; feed_name := feed_name f;
     feed_description := feed_description f; feed_sort := feed_sort f;
     feed_last_error := feed_last_error f;
     date_last_refresh := Some now;
     http_etag := Some etag;
     http_last_modified := modified |}.

Definition Feed_save (feed_obj : Feed) : M unit :=
  λ w, (Ok tt, set_feeds (Store.save feed_pk feed_obj (w_feeds w)) w).

(** *** parse_feed (lines 256-278) *)

(** The parser is called with the importer's timeout as the default
    timeout of the sockets.  Its exceptions are the outcomes
    [ParseTimeout] ([socket.timeout]) and [ParseFailed]. *)
Definition parse_feed (self : FeedImporter) (url : string)
    (etag : option string) (modified : option struct_time)
  : M parse_outcome :=
  λ w, (Ok (parser_parse E url etag modified),
        set_fetches (w_fetches w ++
                       [{| fc_url := url; fc_etag := etag;
                           fc_modified := modified;
                           fc_timeout := timeout self |}]) w).

(** *** update_feed (lines 363-439) *)

Definition record_error (err : string) (feed_obj : Feed) : M Feed :=
  let feed_obj := with_last_error err feed_obj in
  let! _ := Feed_save feed_obj in
  ret feed_obj.

(** The test of the first statement (lines 379-380):
    [feed_obj.date_last_refresh and datetime.now() < ...]. *)
Definition recently_refreshed (feed_obj : Feed) : M bool :=
  match date_last_refresh feed_obj with
  | Some last =>
      let! now := datetime_now in
      ret (now <? last + MIN_REFRESH_INTERVAL E)
  | None => ret false
  end.

Definition update_feed (self : FeedImporter) (feed_obj : Feed)
    (feed : option ParsedFeed) (force : bool) : M Feed :=
  let! recent := recently_refreshed feed_obj in
  if recent then ret feed_obj
  else
    let limit := post_limit self in
    let! fetched :=
      match feed with
      | Some feed => ret (inl feed)
      | None =>
          let last_modified := localtime E <$> http_last_modified feed_obj in
          let! outcome :=
            parse_feed self (feed_url feed_obj) (http_etag feed_obj)
              last_modified in
          match outcome with
          | Parsed feed => ret (inl feed)
          | ParseTimeout =>
              let! feed_obj := record_error (FEED_TIMEDOUT_ERROR E) feed_obj in
              ret (inr feed_obj)
          | ParseFailed =>
              let! feed_obj := record_error (FEED_GENERIC_ERROR E) feed_obj in
              ret (inr feed_obj)
          end
      end in
    match fetched with
    | inr feed_obj => ret feed_obj
    | inl feed =>
        let status := default HTTP_OK (pf_ints feed !! "status") in
        if status =? HTTP_NOT_MODIFIED then ret feed_obj
        else if status =? HTTP_NOT_FOUND then
          record_error (FEED_NOT_FOUND_ERROR E) feed_obj
        else if negb (status_in status ACCEPTED_STATUSES) then
          record_error (FEED_GENERIC_ERROR E) feed_obj
        else
          let! ordered := entries_by_date (pf_entries feed) limit in
          let! entries :=
            for_each (λ entry, import_entry self entry feed_obj) ordered in
          let! now := datetime_now in
          let! modified :=
            match pf_modified feed with
            | Some t =>
                let! stamp := fromtimestamp_mktime (Some t) in
                ret (Some stamp)
            | None => ret (http_last_modified feed_obj)
            end in
          let feed_obj :=
            with_last_error ""
              (with_refresh now (default "" (pf_etag feed)) modified
                 feed_obj) in
          let! _ := Feed_save feed_obj in
          ret feed_obj
    end.

(** *** import_feed (lines 280-341) *)

(** [FeedCriticalError(msg, status=status)] (lines 82-89): [__init__]
    keeps the status when it is true; otherwise the attribute is that of
    the class, [None]. *)
Definition FeedCriticalError__init__ (status : Z) : exn :=
  FeedCriticalError (if status =? 0 then None else Some status).

(** The feed the code builds when the parser raises: [{"status": 500}]. *)
Definition failed_feed : ParsedFeed :=
  {| pf_ints := {["status" := 500]}; pf_href := ""; pf_etag := None;
     pf_modified := None; pf_entries := [];
     pf_channel := {| ch_title := None; ch_description := None;
                      ch_categories := None |} |}.

(** The key of the second read of the status, as it is written at
    line 315: the word "status" followed by a line feed. *)
Definition status_key_315 : string :=
  String.append "status" (String (ascii_of_nat 10) EmptyString).

(** [Feed.objects.get_or_create(feed_url=feed_url, **feed_data)]: there
    are no defaults, so every item is a lookup. *)
Definition Feed_get_or_create (url name description : string) (sort : Z)
    (last_error : string) : M (Feed * bool) :=
  λ w, match Store.get (w_feeds w)
               (λ f, String.eqb (feed_url f) url
                     && String.eqb (feed_name f) name
                     && String.eqb (feed_description f) description
                     && Z.eqb (feed_sort f) sort
                     && String.eqb (feed_last_error f) last_error) with
       | Ok f => (Ok (f, false), w)
       | Raise DoesNotExist =>
           let f := {| feed_pk := Store.fresh_pk (feed_pk <$> w_feeds w);
                       feed_url := url; feed_name := name;
                       feed_description := description; feed_sort := sort;
                       feed_last_error := last_error;
                       date_last_refresh := None; http_etag := None;
                       http_last_modified := None |} in
           (Ok (f, true), set_feeds (w_feeds w ++ [f]) w)
       | Raise e => (Raise e, w)
       end.

(** The end of [import_feed], after the feed row is known (lines 334-341).
    [feed] is [None] when the row was found by its URL: [feed.channel]
    then fails. *)
Definition import_feed_finish (self : FeedImporter) (feed_obj : Feed)
    (feed : option ParsedFeed) (force : bool) : M Feed :=
  let! _ :=
    if include_categories self then
      match feed with
      | None => raise AttributeError
      | Some f =>
          let! categories := get_categories (ch_categories (pf_channel f)) in
          λ w, (Ok tt, set_feed_categories
                         (Store.add_links (feed_pk feed_obj)
                            (cat_pk <$> categories)
                            (w_feed_categories w)) w)
      end
    else ret tt in
  if update_on_import self then update_feed self feed_obj feed force
  else ret feed_obj.

(** [depth] is the number of nested calls the interpreter allows.  The
    [try] statement holds the lookup of the feed only; its handler either
    returns the result of the nested call or goes on with the new row. *)
Fixpoint import_feed (depth : nat) (self : FeedImporter) (url : string)
    (force : bool) : M Feed :=
  match depth with
  | O => raise RecursionDepthExceeded
  | S depth' =>
      let url := Py.strip url in
      let! step :=
        try_except
          (let! feed_obj :=
             (λ w, (Store.get (w_feeds w)
                      (λ f, String.eqb (feed_url f) url), w)) in
           ret (inl (feed_obj, None)))
          (λ e,
             match e with
             | DoesNotExist =>
                 let last_error := "" in
                 let! outcome := parse_feed self url None None in
                 let! feed :=
                   match outcome with
                   | Parsed feed => ret feed
                   | ParseTimeout => raise AttributeError
                   | ParseFailed => ret failed_feed
                   end in
                 let status :=
                   default HTTP_NOT_FOUND (pf_ints feed !! "status") in
                 if status =? HTTP_NOT_FOUND then raise FeedNotFoundError
                 else if negb (status_in status ACCEPTED_STATUSES) then
                   raise (FeedCriticalError__init__ status)
                 else
                   let status :=
                     default HTTP_OK (pf_ints feed !! status_key_315) in
                   if ((status =? HTTP_FOUND) || (status =? HTTP_MOVED))
                      && negb (String.eqb url (pf_href feed))
                   then
                     let! returned :=
                       import_feed depth' self (pf_href feed) force in
                     ret (inr returned)
                   else
                     let feed_name :=
                       Py.strip (default "(no title)"
                                   (ch_title (pf_channel feed))) in
                     let name :=
                       truncate_by_field (Feed_field E "name") feed_name in
                     let description :=
                       truncate_by_field (Feed_field E "description")
                         (default "" (ch_description (pf_channel feed))) in
                     let! fc :=
                       Feed_get_or_create url name description 0 last_error in
                     let feed_obj := fc.1 in
                     let! _ :=
                       if fc.2 then ret tt else Feed_save feed_obj in
                     ret (inl (feed_obj, Some feed))
             | _ => raise e
             end) in
      match step with
      | inr returned => ret returned
      | inl (feed_obj, feed) => import_feed_finish self feed_obj feed force
      end
  end.

End importers.

(** ** djangofeeds/feedutil.py *)

Module feedutil.
Section feedutil.
Context (E : Env).

(** [timedelta(seconds=n)], in the unit of the instants. *)
Definition seconds (n : Z) : Z := n * 1000000.

(** [date_entry_tuple] (lines 20-28).  A parsed date is a [struct_time]
    or [None]; neither has the method [encode] the code calls on it. *)
Definition date_entry_tuple (now : Z) (entry : Entry) (counter : nat)
  : result (Z * Entry) :=
  match e_date_parsed entry with
  | Some _ => Raise AttributeError
  | None =>
      match e_updated_parsed entry with
      | Some _ => Raise AttributeError
      | None =>
          match e_published_parsed entry with
          | Some _ => Raise AttributeError
          | None => Ok (now - seconds (Z.of_nat counter * 30), entry)
          end
      end
  end.

(** The comprehension over [enumerate(entries)] (lines 30-31), from the
    position [counter] on. *)
Fixpoint date_entry_tuples (now : Z) (counter : nat) (entries : list Entry)
  : result (list (Z * Entry)) :=
  match entries with
  | [] => Ok []
  | entry :: entries' =>
      match date_entry_tuple now entry counter with
      | Raise e => Raise e
      | Ok t =>
          match date_entry_tuples now (S counter) entries' with
          | Raise e => Raise e
          | Ok ts => Ok (t :: ts)
          end
      end
  end.

(** [entries_by_date] (lines 11-35): the list is bound to the name
    [sortede_entries]; the next statement reads [sorted_entries]. *)
Definition entries_by_date (entries : list Entry) (limit : option Z)
  : M (list Entry) :=
  let! now := datetime_now E in
  let! sortede_entries := (λ w, (date_entry_tuples now 0 entries, w)) in
  raise (NameError "sorted_entries").

(** [find_post_content] (lines 38-51): the value of the first content
    block; without one, the description when it is not empty, else the
    summary; a text that cannot be decoded gives the empty string. *)
Definition find_post_content (feed_obj : Feed) (entry : Entry) : M string :=
  let content :=
    match e_content entry with
    | Some (block :: _) =>
        match block !! "value" with
        | Some v => Some v
        | None => None
        end
    | Some [] => None
    | None => None
    end in
  let content :=
    match content with
    | Some v => v
    | None =>
        match e_description entry with
        | Some d =>
            if Py.truthy d then d else default "" (e_summary entry)
        | None => default "" (e_summary entry)
        end
    end in
  try_except
    (call (truncate_html_words E content (DEFAULT_ENTRY_WORD_LIMIT E)))
    (λ e, match e with
          | UnicodeDecodeError => ret ""
          | _ => raise e
          end).

End feedutil.
End feedutil.

(** ** The duplicate resolver in the words of the specification *)

Module DuplicateResolver.

(** A stored post agrees with the candidate when its author, its link or
    its content equals the candidate's. *)
Definition agrees (fields : PostFields) (possible : Post) : bool :=
  String.eqb (f_author (post_fields possible)) (f_author fields)
  || String.eqb (f_link (post_fields possible)) (f_link fields)
  || String.eqb (f_content (post_fields possible)) (f_content fields).

(** The first of the matching posts that agrees with the candidate. *)
Definition first_agreeing (rows : list Post) (fields : PostFields)
  : option Post :=
  List.find (agrees fields) rows.

End DuplicateResolver.

(** ** Predicates of the statements *)

(** The dates [date_entry_tuple] resolves are [None] or a [struct_time]. *)
Definition is_date (v : pyval) : Prop :=
  v = PNone ∨ ∃ t, v = PTime t.

(** [d1 >= d2] in the order of Python 2. *)
Definition date_ge (d1 d2 : pyval) : Prop := PyCmp.compare d1 d2 ≠ Lt.

(** [x >= y] on the tuples the sort compares: [x < y] is false. *)
Definition tuple_ge (x y : pyval * Entry) : Prop := tuple_lt x y = false.

(** An entry without any of the three parsed dates. *)
Definition no_parsed_date (e : Entry) : Prop :=
  e_date_parsed e = None ∧ e_updated_parsed e = None
  ∧ e_published_parsed e = None.

(** The text [_find_post_summary] truncates: the summary of the entry,
    or without one the value of its first content block, or the empty
    string. *)
Definition summary_text (entry : Entry) : string :=
  match e_summary entry with
  | Some s => s
  | None =>
      match e_content entry with
      | Some (block :: _) => default "" (block !! "value")
      | _ => ""
      end
  end.

(** The handler of a date returns for the value [d] of the entry: the
    date is absent or [None], or the C library converts it (or raises the
    [TypeError] that is caught). *)
Definition date_handler_returns (E : Env) (d : option (option struct_time))
  : bool :=
  match d with
  | Some (Some t) =>
      match mktime E t with
      | Ok _ | Raise TypeError => true
      | Raise _ => false
      end
  | _ => true
  end.

(** The handlers of [post_field_handlers] all return for the entry: its
    text is decoded and its two dates are converted. *)
Definition handlers_return (E : Env) (entry : Entry) : bool :=
  match truncate_html_words E (summary_text entry) DEFAULT_SUMMARY_MAX_WORDS with
  | Ok _ => true
  | Raise _ => false
  end
  && date_handler_returns E (e_published_parsed entry)
  && date_handler_returns E (e_updated_parsed entry).

(** ** Frames *)

(** A computation keeps a relation between the world before and after. *)
Definition preserves {A} (R : world → world → Prop) (m : M A) : Prop :=
  ∀ w, R w (m w).2.

(** The feeds and the log of the parser are as before. *)
Definition same_feeds (w w' : world) : Prop :=
  w_feeds w' = w_feeds w ∧ w_fetches w' = w_fetches w.

(** Only the count of the clock reads differs. *)
Definition same_store (w w' : world) : Prop :=
  ∃ k, w' = set_ticks k w.

(** ** Invariants of the store *)

(** The primary keys of the posts are distinct. *)
Definition unique_pks (posts : list Post) : Prop :=
  NoDup (post_pk <$> posts).

(** No two categories have the same name and domain. *)
Definition unique_categories (cats : list Category) : Prop :=
  ∀ name domain,
    (length (List.filter
               (λ c, String.eqb (cat_name c) name
                     && String.eqb (cat_domain c) domain) cats) ≤ 1)%nat.

Definition store_ok (w : world) : Prop :=
  unique_pks (w_posts w) ∧ unique_categories (w_categories w).

(** The declared length of the guid of a post is positive, when there
    is one. *)
Definition guid_field_ok (E : Env) : Prop :=
  match Post_field E "guid" with
  | MaxLength (Some m) => 0 < m
  | _ => True
  end.

(** The guid under which [import_entry] stores an entry. *)
Definition stored_guid (E : Env) (feed_obj : Feed) (entry : Entry) : string :=
  truncate_by_field (Post_field E "guid") (handle_guid feed_obj entry).

(** ** Concrete inputs for the examples *)

Module Demo.

Definition no_entry : Entry :=
  {| e_date_parsed := None; e_updated_parsed := None;
     e_published_parsed := None; e_content := None; e_summary := None;
     e_description := None; e_link := None; e_guid := None;
     e_title := None; e_author := None; e_categories := None;
     e_enclosures := None |}.

(** An entry with a title, a guid, an author and a publication date. *)
Definition entry (title guid author : string) (published : option struct_time)
  : Entry :=
  {| e_date_parsed := None; e_updated_parsed := None;
     e_published_parsed := Some <$> published; e_content := None;
     e_summary := None; e_description := None; e_link := None;
     e_guid := Some guid; e_title := Some title; e_author := Some author;
     e_categories := None; e_enclosures := None |}.

(** An entry that has only a title and the canonical parsed date. *)
Definition dated (title : string) (t : struct_time) : Entry :=
  {| e_date_parsed := Some (Some t); e_updated_parsed := None;
     e_published_parsed := None; e_content := None; e_summary := None;
     e_description := None; e_link := None; e_guid := None;
     e_title := Some title; e_author := None; e_categories := None;
     e_enclosures := None |}.

Definition noon : struct_time := [2024; 5; 17; 12; 0; 0; 4; 138; 0].

Definition channel : Channel :=
  {| ch_title := Some "Example"; ch_description := None;
     ch_categories := None |}.

(** A feed the parser returns with the status [status]. *)
Definition parsed (status : Z) (href : string) (entries : list Entry)
  : ParsedFeed :=
  {| pf_ints := {["status" := status]}; pf_href := href; pf_etag := None;
     pf_modified := None; pf_entries := entries; pf_channel := channel |}.

Definition old_url : string := "http://old.example/feed".
Definition new_url : string := "http://new.example/feed".

(** A text with a byte that is not ASCII. *)
Definition is_ascii_text (text : string) : bool :=
  forallb (λ c, (nat_of_ascii c <? 128)%nat) (list_ascii_of_string text).

(** An environment: the clock is given; the calendar functions keep the
    seconds of the instant in [tm_sec], and a year before 1900 is out of
    their range; the texts of the examples are shorter than the word
    limit, so the truncation returns them, and it cannot decode a text
    that is not ASCII; the old URL is moved permanently to the new one. *)
Definition env (clock : nat → Z) : Env :=
  {| clock := clock;
     localtime := λ z, [1970; 1; 1; 0; 0; z `div` 1000000; 3; 1; 0];
     mktime := λ t,
       if nth 0 t 0 <? 1900 then Raise ValueError
       else Ok (nth 5 t 0 * 1000000);
     truncate_html_words := λ text _,
       if is_ascii_text text then Ok text else Raise UnicodeDecodeError;
     parser_parse := λ url _ _,
       if String.eqb url old_url then Parsed (parsed 301 new_url [])
       else if String.eqb url new_url then Parsed (parsed 200 new_url [])
       else ParseFailed;
     MIN_REFRESH_INTERVAL := 1200 * 1000000;
     FEED_TIMEOUT := 10;
     DEFAULT_ENTRY_WORD_LIMIT := 100;
     FEED_TIMEDOUT_ERROR := "TIMEDOUT_ERROR";
     FEED_NOT_FOUND_ERROR := "NOT_FOUND_ERROR";
     FEED_GENERIC_ERROR := "GENERIC_ERROR";
     Post_field := λ name,
       if String.eqb name "content" then MaxLength None
       else if String.eqb name "author" then MaxLength (Some 50)
       else MaxLength (Some 200);
     Feed_field := λ name,
       if String.eqb name "description" then MaxLength None
       else MaxLength (Some 200) |}.

(** A clock that advances by one second at each read, and a clock that
    is read twice within the same instant. *)
Definition ticking : nat → Z := λ k, (1000 + Z.of_nat k) * 1000000.
Definition frozen : nat → Z := λ _, 1000 * 1000000.

Definition importer : FeedImporter :=
  {| post_limit := Some DEFAULT_POST_LIMIT; update_on_import := true;
     include_categories := false; include_enclosures := false;
     timeout := 10 |}.

Definition feed_row (last_refresh : option Z) : Feed :=
  {| feed_pk := 1; feed_url := new_url; feed_name := "Example";
     feed_description := ""; feed_sort := 0; feed_last_error := "";
     date_last_refresh := last_refresh; http_etag := None;
     http_last_modified := None |}.

Definition store (feeds : list Feed) (posts : list Post) : world :=
  {| w_ticks := 0; w_fetches := []; w_feeds := feeds; w_posts := posts;
     w_categories := []; w_feed_categories := []; w_post_categories := [];
     w_post_enclosures := [] |}.

(** An entry with a summary and a content block. *)
Definition summary_and_content : Entry :=
  {| e_date_parsed := None; e_updated_parsed := None;
     e_published_parsed := None;
     e_content := Some [{["value" := "Full text"]}];
     e_summary := Some "Short"; e_description := None; e_link := None;
     e_guid := None; e_title := None; e_author := None;
     e_categories := None; e_enclosures := None |}.

(** An entry whose summary is a byte string that is not UTF-8: the
    Latin-1 bytes of the word "cafe" with an acute accent. *)
Definition undecodable : Entry :=
  {| e_date_parsed := None; e_updated_parsed := None;
     e_published_parsed := None; e_content := None;
     e_summary := Some (String.append "caf" (String (ascii_of_nat 233) ""));
     e_description := None; e_link := None; e_guid := Some "g9";
     e_title := Some "Menu"; e_author := None; e_categories := None;
     e_enclosures := None |}.

(** Stored posts under the title "News", published at [noon]. *)
Definition news_post (pk : nat) (guid author link content : string) : Post :=
  {| post_pk := pk;
     post_fields :=
       {| f_content := content; f_date_published := 0; f_date_updated := 0;
          f_link := link; f_feed := 1; f_guid := guid; f_title := "News";
          f_author := author |} |}.

Definition alice : Post := news_post 1 "g1" "Alice" "http://a.example/1" "x".
Definition bob : Post := news_post 2 "g2" "Bob" "http://b.example/2" "y".

(** A batch of one pass: two entries with guids and an entry without
    guid, all three with the title "News" and the same date, and an older
    entry.  [ordered] is the batch in the order [entries_by_date] gives
    it. *)
Definition morning : struct_time := [2024; 5; 17; 8; 0; 0; 4; 138; 0].
Definition e_g1 : Entry := entry "News" "g1" "Alice" (Some noon).
Definition e_g2 : Entry := entry "News" "g2" "Bob" (Some noon).
Definition e_none : Entry := entry "News" "" "Aaron" (Some noon).
Definition e_old : Entry := entry "Older" "g4" "Dan" (Some morning).

Definition batch : list Entry := [e_old; e_none; e_g1; e_g2].
Definition ordered : list Entry := [e_g2; e_g1; e_none; e_old].

Definition start : world := store [feed_row None] [].

(** The entry of guid "g1" with a summary. *)
Definition e_g1_with (summary : string) : Entry :=
  {| e_date_parsed := None; e_updated_parsed := None;
     e_published_parsed := Some (Some noon); e_content := None;
     e_summary := Some summary; e_description := None; e_link := None;
     e_guid := Some "g1"; e_title := Some "News"; e_author := Some "Alice";
     e_categories := None; e_enclosures := None |}.


(** A feed row of another URL, which the parser of [env] fails on. *)
Definition broken_row : Feed :=
  {| feed_pk := 1; feed_url := "http://broken.example/feed";
     feed_name := "Broken"; feed_description := ""; feed_sort := 0;
     feed_last_error := ""; date_last_refresh := None; http_etag := None;
     http_last_modified := None |}.

(** The environment [env] with a parser that gives the same outcome for
    every URL. *)
Definition env_of (outcome : parse_outcome) : Env :=
  {| clock := ticking;
     localtime := localtime (env ticking);
     mktime := mktime (env ticking);
     truncate_html_words := truncate_html_words (env ticking);
     parser_parse := λ _ _ _, outcome;
     MIN_REFRESH_INTERVAL := MIN_REFRESH_INTERVAL (env ticking);
     FEED_TIMEOUT := FEED_TIMEOUT (env ticking);
     DEFAULT_ENTRY_WORD_LIMIT := DEFAULT_ENTRY_WORD_LIMIT (env ticking);
     FEED_TIMEDOUT_ERROR := FEED_TIMEDOUT_ERROR (env ticking);
     FEED_NOT_FOUND_ERROR := FEED_NOT_FOUND_ERROR (env ticking);
     FEED_GENERIC_ERROR := FEED_GENERIC_ERROR (env ticking);
     Post_field := Post_field (env ticking);
     Feed_field := Feed_field (env ticking) |}.

(** The environment whose parser answers every URL with the batch and
    the status 200. *)
Definition env_batch : Env := env_of (Parsed (parsed 200 new_url batch)).

(** The pass of [update_feed] over the stored feed with that parser: the
    world after the fetch, the world and the posts after the imports of
    the first two entries of the ordered batch, and the world the import
    of the third entry leaves. *)
Definition fetched : world :=
  {| w_ticks := 0;
     w_fetches := [{| fc_url := new_url; fc_etag := None;
                      fc_modified := None; fc_timeout := 10 |}];
     w_feeds := [feed_row None]; w_posts := []; w_categories := [];
     w_feed_categories := []; w_post_categories := [];
     w_post_enclosures := [] |}.

Definition after_two : world :=
  Eval vm_compute in
    (for_each (λ x, import_entry env_batch importer x (feed_row None))
       [e_g2; e_g1] fetched).2.

Definition imported_two : list Post :=
  Eval vm_compute in
    match (for_each (λ x, import_entry env_batch importer x (feed_row None))
             [e_g2; e_g1] fetched).1 with
    | Ok posts => posts
    | Raise _ => []
    end.

Definition after_failure : world :=
  Eval vm_compute in
    (import_entry env_batch importer e_none (feed_row None) after_two).2.

(** A feed the parser returns with a cache token and a modified date. *)
Definition parsed_cached : ParsedFeed :=
  {| pf_ints := {["status" := 200]}; pf_href := new_url;
     pf_etag := Some "v2";
     pf_modified := Some [2024; 5; 17; 8; 0; 30; 4; 138; 0];
     pf_entries := []; pf_channel := channel |}.

(** An importer that stores categories. *)
Definition importer_with_categories : FeedImporter :=
  {| post_limit := Some DEFAULT_POST_LIMIT; update_on_import := true;
     include_categories := true; include_enclosures := false;
     timeout := 10 |}.

End Demo.

(** The title under which [import_entry] stores an entry. *)
Definition stored_title (E : Env) (feed_obj : Feed) (entry : Entry) : string :=
  truncate_by_field (Post_field E "title") (handle_title feed_obj entry).

(** The enclosure links and the count of clock reads are as before. *)
Definition same_enclosures (w w' : world) : Prop :=
  w_post_enclosures w' = w_post_enclosures w.

Definition same_ticks (w w' : world) : Prop := w_ticks w' = w_ticks w.

(** ** Named parts of update_feed *)

(** The call of the parser a refresh of [feed_obj] makes (lines 389-398):
    the URL of the feed with its cache token and cache date. *)
Definition refresh_call (E : Env) (self : FeedImporter) (feed_obj : Feed)
  : fetch_call :=
  {| fc_url := feed_url feed_obj; fc_etag := http_etag feed_obj;
     fc_modified := localtime E <$> http_last_modified feed_obj;
     fc_timeout := timeout self |}.

(** What [update_feed] works with: the feed that was passed, or the
    outcome of the parser. *)
Definition feed_in_hand (E : Env) (feed_obj : Feed)
    (feed : option ParsedFeed) : parse_outcome :=
  match feed with
  | Some f => Parsed f
  | None =>
      parser_parse E (feed_url feed_obj) (http_etag feed_obj)
        (localtime E <$> http_last_modified feed_obj)
  end.

Definition calls_made (E : Env) (self : FeedImporter) (feed_obj : Feed)
    (feed : option ParsedFeed) : list fetch_call :=
  match feed with
  | Some _ => []
  | None => [refresh_call E self feed_obj]
  end.

(** The world in which the feed is in hand: after the fetch, when there
    was one. *)
Definition world_with_feed (E : Env) (self : FeedImporter) (feed_obj : Feed)
    (feed : option ParsedFeed) (w : world) : world :=
  match feed with
  | Some _ => w
  | None => set_fetches (w_fetches w ++ [refresh_call E self feed_obj]) w
  end.

(** The statements of [update_feed] after the feed is in hand
    (lines 408-439). *)
Definition process_feed (E : Env) (self : FeedImporter) (feed_obj : Feed)
    (feed : ParsedFeed) : M Feed :=
  let status := default HTTP_OK (pf_ints feed !! "status") in
  if status =? HTTP_NOT_MODIFIED then ret feed_obj
  else if status =? HTTP_NOT_FOUND then
    record_error (FEED_NOT_FOUND_ERROR E) feed_obj
  else if negb (status_in status ACCEPTED_STATUSES) then
    record_error (FEED_GENERIC_ERROR E) feed_obj
  else
    let! ordered := entries_by_date E (pf_entries feed) (post_limit self) in
    let! entries :=
      for_each (λ entry, import_entry E self entry feed_obj) ordered in
    let! now := datetime_now E in
    let! modified :=
      match pf_modified feed with
      | Some t =>
          let! stamp := fromtimestamp_mktime E (Some t) in
          ret (Some stamp)
      | None => ret (http_last_modified feed_obj)
      end in
    let feed_obj :=
      with_last_error ""
        (with_refresh now (default "" (pf_etag feed)) modified feed_obj) in
    let! _ := Feed_save feed_obj in
    ret feed_obj.

(** The rows [update_feed] may write for [feed_obj]: the key, the URL,
    the name, the description and the sort order are those of
    [feed_obj]. *)
Definition same_feed_identity (f f' : Feed) : Prop :=
  feed_pk f' = feed_pk f ∧ feed_url f' = feed_url f
  ∧ feed_name f' = feed_name f ∧ feed_description f' = feed_description f
  ∧ feed_sort f' = feed_sort f.

(** ** Named parts of import_feed *)

(** The call of the parser a first import of [url] makes (line 300). *)
Definition import_call (self : FeedImporter) (url : string) : fetch_call :=
  {| fc_url := url; fc_etag := None; fc_modified := None;
     fc_timeout := timeout self |}.

(** The status the first import reads at line 306: that of the parsed
    feed, 404 when it has none, 500 when the parser raised; no status
    when the parser timed out. *)
Definition first_status (outcome : parse_outcome) : option Z :=
  match outcome with
  | Parsed f => Some (default HTTP_NOT_FOUND (pf_ints f !! "status"))
  | ParseFailed => Some 500
  | ParseTimeout => None
  end.

(** The feed row a first import creates (lines 321-329). *)
Definition new_feed_row (E : Env) (url : string) (f : ParsedFeed)
    (rows : list Feed) : Feed :=
  {| feed_pk := Store.fresh_pk (feed_pk <$> rows);
     feed_url := url;
     feed_name :=
       truncate_by_field (Feed_field E "name")
         (Py.strip (default "(no title)" (ch_title (pf_channel f))));
     feed_description :=
       truncate_by_field (Feed_field E "description")
         (default "" (ch_description (pf_channel f)));
     feed_sort := 0; feed_last_error := "";
     date_last_refresh := None; http_etag := None;
     http_last_modified := None |}.

(** An entry that has one of the three parsed dates, as a test. *)
Definition has_parsed_date (e : Entry) : bool :=
  match e_date_parsed e, e_updated_parsed e, e_published_parsed e with
  | None, None, None => false
  | _, _, _ => true
  end.

(** ** refresh_all (importers.py, lines 553-562) *)

(** [FeedImporter()]: the defaults of the class.  The two flags are the
    settings [DJANGOFEEDS_STORE_CATEGORIES] and
    [DJANGOFEEDS_STORE_ENCLOSURES]. *)
Definition default_importer (E : Env) (store_categories store_enclosures : bool)
  : FeedImporter :=
  {| post_limit := Some DEFAULT_POST_LIMIT; update_on_import := true;
     include_categories := store_categories;
     include_enclosures := store_enclosures;
     timeout := FEED_TIMEOUT E |}.

(** Every feed of [Feed.objects.all()], as the table is when the loop
    starts, is refreshed in turn.  The lines written to [sys.stderr] and
    the counts of [print_feed_summary] read the store and change nothing
    of it: they are left out, so [verbose] does not appear. *)
Definition refresh_all (E : Env) (store_categories store_enclosures : bool)
  : M unit :=
  let importer := default_importer E store_categories store_enclosures in
  λ w,
    (let! _ :=
       for_each (λ feed_obj, update_feed E importer feed_obj None false)
         (w_feeds w) in
     ret tt) w.

(** * Properties *)

(** ** Truncation *)

Lemma str_take_length (n : nat) (s : string) :
  String.length (Py.str_take n s) = Nat.min n (String.length s).
Proof.
  revert n; induction s as [|c s IH]; intros [|n]; simpl; auto.
Qed.

Lemma str_take_all (n : nat) (s : string) :
  (String.length s <= n)%nat → Py.str_take n s = s.
Proof.
  revert n; induction s as [|c s IH]; intros [|n] H; simpl in *; auto; try lia.
  f_equal. apply IH. lia.
Qed.

Lemma str_take_min (n : nat) (s : string) :
  Py.str_take (Nat.min n (String.length s)) s = Py.str_take n s.
Proof.
  revert n; induction s as [|c s IH]; intros [|n]; simpl; auto.
  f_equal. apply IH.
Qed.

Lemma str_take_prefix (n : nat) (s : string) :
  ∃ rest, s = String.append (Py.str_take n s) rest.
Proof.
  revert n; induction s as [|c s IH]; intros [|n]; simpl; eauto.
  destruct (IH n) as [rest Hrest]. exists rest. rewrite Hrest at 1. reflexivity.
Qed.

Lemma truncate_by_field_nonneg (m : Z) (s : string) :
  0 ≤ m →
  truncate_by_field (MaxLength (Some m)) s = Py.str_take (Z.to_nat m) s.
Proof.
  intros Hm. unfold truncate_by_field, Py.str_gt_number, Py.str_slice_to,
    Py.slice_stop.
  destruct (Z.leb_spec 0 m); [|lia]. apply str_take_min.
Qed.

(** C9, as the code has it.  A field without [max_length], or with
    [max_length = None], leaves the string unchanged.  For a declared
    length [m >= 0] the result is the first [m] characters of the string:
    it is the string itself when the string has at most [m] characters,
    and it has exactly [m] characters otherwise.  The length 0 is not
    "unlimited": it gives the empty string. *)
Theorem truncate_by_field_spec (s : string) (m : Z) :
  0 ≤ m →
  truncate_by_field NoMaxLength s = s
  ∧ truncate_by_field (MaxLength None) s = s
  ∧ truncate_by_field (MaxLength (Some m)) s = Py.str_take (Z.to_nat m) s
  ∧ (∃ rest, s = String.append (truncate_by_field (MaxLength (Some m)) s) rest)
  ∧ (Z.of_nat (String.length s) ≤ m →
     truncate_by_field (MaxLength (Some m)) s = s)
  ∧ (m < Z.of_nat (String.length s) →
     Z.of_nat (String.length (truncate_by_field (MaxLength (Some m)) s)) = m)
  ∧ (m = 0 → truncate_by_field (MaxLength (Some m)) s = "").
Proof.
  intros Hm. rewrite truncate_by_field_nonneg by done.
  repeat split; try done.
  - apply str_take_prefix.
  - intros Hle. apply str_take_all. lia.
  - intros Hlt. rewrite str_take_length. lia.
  - intros ->. by destruct s.
Qed.

Lemma truncate_by_field_spec_witness :
  0 ≤ 3
  ∧ truncate_by_field (MaxLength (Some 3)) "abcdef" = "abc"
  ∧ truncate_by_field (MaxLength (Some 3)) "ab" = "ab".
Proof.
  split; [lia|]. split.
  - exact (proj1 (proj2 (proj2 (truncate_by_field_spec "abcdef" 3 ltac:(lia))))).
  - apply (truncate_by_field_spec "ab" 3 ltac:(lia)). simpl. lia.
Defined.

(** C9 as the specification states it fails for the declared length 0:
    the string is not returned unchanged. *)
Lemma truncate_by_field_zero_not_unlimited :
  truncate_by_field (MaxLength (Some 0)) "abc" ≠ "abc".
Proof. discriminate. Qed.

(** Truncating a truncated value changes nothing. *)
Lemma truncate_by_field_idempotent (field : field_attr) (s : string) :
  (∀ m, field = MaxLength (Some m) → 0 ≤ m) →
  truncate_by_field field (truncate_by_field field s)
  = truncate_by_field field s.
Proof.
  intros Hf. destruct field as [|[m|]]; try done.
  specialize (Hf m eq_refl).
  rewrite !truncate_by_field_nonneg by done.
  apply str_take_all. rewrite str_take_length. lia.
Qed.

(** ** The order of Python 2 on the values of an entry *)

Module PyCmpFacts.
Import PyCmp.

Lemma seq_compare_antisym {A} (cmp : A → A → comparison) :
  (∀ x y, cmp y x = CompOpp (cmp x y)) →
  ∀ l1 l2, seq_compare cmp l2 l1 = CompOpp (seq_compare cmp l1 l2).
Proof.
  intros Hcmp. induction l1 as [|x l1 IH]; intros [|y l2]; simpl; try done.
  rewrite (Hcmp x y). destruct (cmp x y); simpl; auto.
Qed.

Lemma seq_compare_eq {A} (cmp : A → A → comparison) :
  (∀ x y, cmp x y = Eq → x = y) →
  ∀ l1 l2, seq_compare cmp l1 l2 = Eq → l1 = l2.
Proof.
  intros Hcmp. induction l1 as [|x l1 IH]; intros [|y l2]; simpl; try done.
  destruct (cmp x y) eqn:Hxy; try done.
  intros H. f_equal; auto.
Qed.

Lemma string_compare_antisym (s t : string) :
  String.compare t s = CompOpp (String.compare s t).
Proof. apply String.compare_antisym. Qed.

Lemma pair_compare_antisym (p q : string * string) :
  pair_compare q p = CompOpp (pair_compare p q).
Proof.
  unfold pair_compare. rewrite (string_compare_antisym p.1 q.1).
  destruct (String.compare p.1 q.1); simpl; auto using string_compare_antisym.
Qed.

Lemma pair_compare_eq (p q : string * string) :
  pair_compare p q = Eq → p = q.
Proof.
  unfold pair_compare. destruct p as [p1 p2], q as [q1 q2]; simpl.
  destruct (String.compare p1 q1) eqn:H1; try done.
  intros H2. apply String.compare_eq_iff in H1, H2. by subst.
Qed.

Section dict_facts.
Context {V : Type} `{EqDecision V}.
Variable vcmp : V → V → comparison.
Hypothesis vcmp_antisym : ∀ x y, vcmp y x = CompOpp (vcmp x y).
Hypothesis vcmp_eq : ∀ x y, vcmp x y = Eq → x = y.

Lemma smallest_None (l : list (string * V)) : smallest l = None → l = [].
Proof. destruct l as [|x l]; simpl; [done|]. by destruct (smallest l). Qed.

Lemma smallest_In (l : list (string * V)) x : smallest l = Some x → x ∈ l.
Proof.
  revert x. induction l as [|y l IH]; simpl; [done|]. intros x.
  destruct (smallest l) as [z|] eqn:Hz.
  - intros [= <-]. unfold smaller_key.
    destruct (String.compare y.1 z.1); try apply list_elem_of_here.
    apply list_elem_of_further. by apply IH.
  - intros [= <-]. apply list_elem_of_here.
Qed.

Lemma characterize_Some (a b : gmap string V) k v :
  characterize a b = Some (k, v) → a !! k = Some v ∧ b !! k ≠ Some v.
Proof.
  intros H. apply smallest_In in H.
  apply list_elem_of_In, filter_In in H as [Hin Hd].
  apply list_elem_of_In, elem_of_map_to_list in Hin.
  unfold differs in Hd. simpl in Hd. apply bool_decide_eq_true in Hd. done.
Qed.

Lemma characterize_None (a b : gmap string V) :
  characterize a b = None → a ⊆ b.
Proof.
  intros H. apply smallest_None in H.
  apply map_subseteq_spec. intros k v Hkv.
  apply elem_of_map_to_list, list_elem_of_In in Hkv.
  destruct (differs b (k, v)) eqn:Hd.
  - assert (In (k, v) (List.filter (differs b) (map_to_list a))) as Hin
      by (apply filter_In; done).
    rewrite H in Hin. destruct Hin.
  - unfold differs in Hd. simpl in Hd. apply bool_decide_eq_false in Hd.
    by apply dec_stable in Hd.
Qed.

Lemma characterize_None_eq (a b : gmap string V) :
  size a = size b → characterize a b = None → a = b.
Proof.
  intros Hsize H. apply characterize_None in H.
  apply map_subseteq_size_eq; [done|lia].
Qed.

Lemma characterize_refl (a : gmap string V) : characterize a a = None.
Proof.
  destruct (characterize a a) as [[k v]|] eqn:H; [|done].
  apply characterize_Some in H as [? ?]. done.
Qed.

Lemma dict_compare_antisym (a b : gmap string V) :
  dict_compare vcmp b a = CompOpp (dict_compare vcmp a b).
Proof.
  unfold dict_compare. rewrite (Nat.compare_antisym (size a) (size b)).
  destruct (Nat.compare_spec (size a) (size b)) as [Hsize| |]; simpl; try done.
  destruct (characterize a b) as [[ka va]|] eqn:Ha.
  - destruct (characterize b a) as [[kb vb]|] eqn:Hb; [|done].
    rewrite (string_compare_antisym ka kb).
    destruct (String.compare ka kb); simpl; auto.
  - apply (characterize_None_eq _ _ Hsize) in Ha. subst b.
    by rewrite characterize_refl.
Qed.

Lemma dict_compare_eq (a b : gmap string V) :
  dict_compare vcmp a b = Eq → a = b.
Proof.
  unfold dict_compare.
  destruct (Nat.compare_spec (size a) (size b)) as [Hsize| |]; try done.
  destruct (characterize a b) as [[ka va]|] eqn:Ha.
  - destruct (characterize b a) as [[kb vb]|] eqn:Hb.
    + destruct (String.compare ka kb) eqn:Hk; try done.
      intros Hv. apply String.compare_eq_iff in Hk. apply vcmp_eq in Hv.
      subst. apply characterize_Some in Ha as [? ?].
      apply characterize_Some in Hb as [? ?]. done.
    + intros _. symmetry. by apply characterize_None_eq.
  - intros _. by apply characterize_None_eq.
Qed.
End dict_facts.

Lemma item_compare_antisym (x y : pyitem) :
  item_compare y x = CompOpp (item_compare x y).
Proof.
  destruct x, y; simpl; try done.
  - apply dict_compare_antisym, string_compare_antisym.
  - apply pair_compare_antisym.
Qed.

Lemma item_compare_eq (x y : pyitem) : item_compare x y = Eq → x = y.
Proof.
  destruct x, y; simpl; try done.
  - intros H. f_equal. revert H. apply dict_compare_eq, String.compare_eq_iff.
  - intros H. f_equal. by apply pair_compare_eq.
Qed.

Lemma compare_antisym (v w : pyval) : compare w v = CompOpp (compare v w).
Proof.
  destruct v, w; simpl; try done.
  - apply string_compare_antisym.
  - apply seq_compare_antisym. intros x y. apply Z.compare_antisym.
  - apply seq_compare_antisym, item_compare_antisym.
Qed.

(** [compare] answers [Eq] for equal values only: it can stand for [==]. *)
Lemma compare_eq (v w : pyval) : compare v w = Eq → v = w.
Proof.
  destruct v, w; simpl; try done.
  - intros H. f_equal. by apply String.compare_eq_iff.
  - intros H. f_equal. revert H. apply seq_compare_eq, Z.compare_eq.
  - intros H. f_equal. revert H. apply seq_compare_eq, item_compare_eq.
Qed.

End PyCmpFacts.

(** ** Ordering the entries (importers.py) *)

Section sorting.

Lemma tuple_compare_antisym (x y : pyval * Entry) :
  tuple_compare y x = CompOpp (tuple_compare x y).
Proof.
  unfold tuple_compare. rewrite (PyCmpFacts.compare_antisym x.1 y.1).
  destruct (PyCmp.compare x.1 y.1); simpl; try done.
  apply PyCmpFacts.dict_compare_antisym, PyCmpFacts.compare_antisym.
Qed.

Lemma tuple_lt_asym (x y : pyval * Entry) :
  tuple_lt x y = true → tuple_lt y x = false.
Proof.
  unfold tuple_lt. rewrite (tuple_compare_antisym x y).
  by destruct (tuple_compare x y).
Qed.

Lemma tuple_ge_date (x y : pyval * Entry) : tuple_ge x y → date_ge x.1 y.1.
Proof.
  unfold tuple_ge, date_ge, tuple_lt, tuple_compare.
  by destruct (PyCmp.compare x.1 y.1).
Qed.

Lemma compare_refl (v : pyval) : PyCmp.compare v v = Eq.
Proof.
  pose proof (PyCmpFacts.compare_antisym v v) as H.
  by destruct (PyCmp.compare v v).
Qed.

Lemma tuple_ge_tie (x y : pyval * Entry) :
  tuple_ge x y → x.1 = y.1 →
  PyCmp.dict_compare PyCmp.compare (entry_items x.2) (entry_items y.2) ≠ Lt.
Proof.
  unfold tuple_ge, tuple_lt, tuple_compare. intros H Heq.
  rewrite Heq, compare_refl in H.
  by destruct (PyCmp.dict_compare _ _ _).
Qed.

(** The sort gives an ascending list. *)
Lemma sort_insert_HdRel x y l :
  tuple_ge x y → HdRel (flip tuple_ge) y l →
  HdRel (flip tuple_ge) y (sort_insert x l).
Proof.
  intros Hxy Hl. destruct l as [|z l]; simpl.
  - by constructor.
  - destruct (tuple_lt z x); constructor; try done. by inversion Hl.
Qed.

Lemma sort_insert_Sorted x l :
  Sorted (flip tuple_ge) l → Sorted (flip tuple_ge) (sort_insert x l).
Proof.
  induction 1 as [|y l Hs IH Hd]; simpl.
  - by repeat constructor.
  - destruct (tuple_lt y x) eqn:Hyx.
    + constructor; [done|]. apply sort_insert_HdRel; [|done].
      by apply tuple_lt_asym.
    + constructor; [by constructor|]. by constructor.
Qed.

Lemma list_sort_Sorted l : Sorted (flip tuple_ge) (list_sort l).
Proof.
  induction l as [|x l IH]; simpl; [constructor|].
  by apply sort_insert_Sorted.
Qed.

Lemma sort_insert_Permutation x l : sort_insert x l ≡ₚ x :: l.
Proof.
  induction l as [|y l IH]; simpl; [done|].
  destruct (tuple_lt y x); [|done].
  rewrite IH. apply Permutation_swap.
Qed.

Lemma list_sort_Permutation l : list_sort l ≡ₚ l.
Proof.
  induction l as [|x l IH]; simpl; [done|].
  by rewrite sort_insert_Permutation, IH.
Qed.

End sorting.

(** Sortedness under the list operations of [entries_by_date]. *)
Section sorted_lists.
Context {A : Type} (R : A → A → Prop).

Lemma Sorted_snoc l x :
  Sorted R l → (∀ y, last l = Some y → R y x) → Sorted R (l ++ [x]).
Proof.
  induction 1 as [|y l Hs IH Hd]; intros Hlast; simpl.
  - by repeat constructor.
  - constructor.
    + apply IH. intros z Hz. apply Hlast.
      destruct l; [done|]. exact Hz.
    + destruct l as [|z l]; simpl.
      * constructor. by apply Hlast.
      * constructor. by inversion Hd.
Qed.

Lemma Sorted_rev l : Sorted (flip R) l → Sorted R (rev l).
Proof.
  induction 1 as [|y l Hs IH Hd]; simpl; [constructor|].
  apply Sorted_snoc; [done|].
  intros z Hz. destruct l as [|z' l]; [done|].
  simpl in Hz. rewrite last_snoc in Hz. simplify_eq. by inversion Hd.
Qed.

Lemma Sorted_take n l : Sorted R l → Sorted R (take n l).
Proof.
  intros Hs. revert n. induction Hs as [|y l Hs IH Hd]; intros [|n]; simpl;
    try constructor; auto.
  destruct Hd; destruct n; simpl; by constructor.
Qed.

Lemma Sorted_StronglySorted_on (P : A → Prop) l :
  (∀ x y z, P x → P y → P z → R x y → R y z → R x z) →
  Forall P l → Sorted R l → StronglySorted R l.
Proof.
  intros Htrans HP Hs. induction Hs as [|y l Hs IH Hd]; [constructor|].
  apply Forall_cons in HP as [Py HP]. specialize (IH HP).
  constructor; [done|].
  destruct Hd as [|z l Hyz]; [constructor|].
  apply Forall_cons in HP as [Pz HP].
  constructor; [done|].
  apply StronglySorted_inv in IH as [_ Hall].
  rewrite Forall_forall in *. intros u Hu.
  apply (Htrans y z u); auto.
Qed.
End sorted_lists.

(** ** entries_by_date *)

Section entries_by_date_facts.
Context (E : Env).

Lemma seq_Z_ge_trans (a b c : list Z) :
  PyCmp.seq_compare Z.compare a b ≠ Lt →
  PyCmp.seq_compare Z.compare b c ≠ Lt →
  PyCmp.seq_compare Z.compare a c ≠ Lt.
Proof.
  revert b c. induction a as [|x a IH]; intros [|y b] [|z c]; simpl; try done.
  destruct (Z.compare_spec x y), (Z.compare_spec y z), (Z.compare_spec x z);
    try done; try lia; eauto.
Qed.

Lemma date_ge_trans (x y z : pyval) :
  is_date x → is_date y → is_date z →
  date_ge x y → date_ge y z → date_ge x z.
Proof.
  unfold date_ge.
  intros [->|[a ->]] [->|[b ->]] [->|[c ->]]; simpl; try done.
  apply seq_Z_ge_trans.
Qed.

Lemma is_date_value d : is_date (date_value d).
Proof. destruct d; [right; eauto | by left]. Qed.

(** The decoration never fails and keeps the entries in their order. *)
Lemma date_entry_tuple_ok entry w :
  ∃ d w', date_entry_tuple E entry w = (Ok (d, entry), w') ∧ is_date d.
Proof.
  unfold date_entry_tuple.
  destruct (e_date_parsed entry) as [d|];
    [eexists _, _; split; [done|apply is_date_value]|].
  destruct (e_updated_parsed entry) as [d|];
    [eexists _, _; split; [done|apply is_date_value]|].
  destruct (e_published_parsed entry) as [d|];
    [eexists _, _; split; [done|apply is_date_value]|].
  eexists _, _; split; [done|]. right; eauto.
Qed.

Lemma for_each_date_entry_tuple entries w :
  ∃ tuples w',
    for_each (date_entry_tuple E) entries w = (Ok tuples, w')
    ∧ snd <$> tuples = entries
    ∧ Forall (λ x, is_date x.1) tuples.
Proof.
  revert w. induction entries as [|entry entries IH]; intros w; simpl.
  - by eexists [], w.
  - destruct (date_entry_tuple_ok entry w) as (d & w1 & H1 & Hd).
    destruct (IH w1) as (tuples & w2 & H2 & Hsnd & Hall).
    exists ((d, entry) :: tuples), w2. unfold bind. rewrite H1, H2.
    split; [done|]. split; [by rewrite <- Hsnd|]. by constructor.
Qed.


Lemma Sorted_tuple_ge_dates (l : list (pyval * Entry)) :
  Sorted tuple_ge l → Sorted (λ x y, date_ge x.1 y.1) l.
Proof.
  induction 1 as [|a l _ IH Hd]; constructor; [done|].
  destruct Hd; constructor. by apply tuple_ge_date.
Qed.

Lemma Sorted_tuple_ge_ties (l : list (pyval * Entry)) (i : nat)
    (x y : pyval * Entry) :
  Sorted tuple_ge l → l !! i = Some x → l !! S i = Some y → x.1 = y.1 →
  PyCmp.dict_compare PyCmp.compare (entry_items x.2) (entry_items y.2) ≠ Lt.
Proof.
  intros Hs Hx Hy. apply tuple_ge_tie. revert i Hx Hy.
  induction Hs as [|a l Hs' IH Hd]; intros i Hx Hy; [done|].
  destruct i as [|i]; simpl in *.
  - simplify_eq. destruct Hd; simplify_eq/=. done.
  - by eapply IH.
Qed.

Lemma take_min_length {A} (n : nat) (l : list A) :
  take (Nat.min n (length l)) l = take n l.
Proof.
  destruct (Nat.le_ge_cases n (length l)) as [Hle|Hge].
  - by rewrite Nat.min_l.
  - rewrite Nat.min_r by done. by rewrite firstn_all, take_ge.
Qed.

(** The batch before the slice: the decorated entries, sorted. *)
Lemma sorted_batch (entries : list Entry) (w : world) :
  ∃ decorated sorted w',
    for_each (date_entry_tuple E) entries w = (Ok decorated, w')
    ∧ snd <$> decorated = entries
    ∧ Forall (λ x, is_date x.1) decorated
    ∧ sorted ≡ₚ decorated
    ∧ Sorted tuple_ge sorted
    ∧ StronglySorted (λ x y, date_ge x.1 y.1) sorted
    ∧ (∀ limit, sorted_entries_upto E entries limit w
                = (Ok (Py.slice_to limit sorted), w'))
    ∧ (∀ limit, entries_by_date E entries limit w
                = (Ok (snd <$> Py.slice_to limit sorted), w')).
Proof.
  destruct (for_each_date_entry_tuple entries w)
    as (dec & w' & Hdec & Hsnd & Hdates).
  exists dec, (rev (list_sort dec)), w'.
  assert (Hperm : rev (list_sort dec) ≡ₚ dec).
  { by rewrite <- Permutation_rev, list_sort_Permutation. }
  assert (Hsorted : Sorted tuple_ge (rev (list_sort dec))).
  { apply Sorted_rev, list_sort_Sorted. }
  split; [done|]. split; [done|]. split; [done|]. split; [done|].
  split; [done|]. split; [|split].
  - apply (Sorted_StronglySorted_on _ (λ x, is_date x.1)).
    + intros x y z. apply date_ge_trans.
    + by rewrite Hperm.
    + by apply Sorted_tuple_ge_dates.
  - intros limit. unfold sorted_entries_upto, bind. by rewrite Hdec.
  - intros limit. unfold entries_by_date, sorted_entries_upto, bind.
    by rewrite Hdec.
Qed.

(** C5, as the code has it.  [entries_by_date] always returns.  Let
    [decorated] be the pairs (resolved date, entry) of the input, in the
    order of the input, and [sorted] the batch in the order of the code:
    a permutation of [decorated] in which every pair is not below its
    successor in the order of the pairs, so that the resolved dates
    descend along the whole list and two neighbours with the same date
    have entries that descend in the order of dictionaries, whatever
    their places in the input were.  The result is the list of the
    entries of the first [limit] pairs of [sorted], for a limit
    [limit >= 0], and of all of them without a limit.  Hence the list
    that is returned is sorted in the same way, it is a prefix of a
    permutation of the input, and it has [min limit (length entries)]
    entries. *)
Theorem entries_by_date_sorted (entries : list Entry) (limit : option Z)
    (w : world) :
  (∀ n, limit = Some n → 0 ≤ n) →
  ∃ decorated sorted tuples w',
    for_each (date_entry_tuple E) entries w = (Ok decorated, w')
    ∧ snd <$> decorated = entries
    ∧ sorted ≡ₚ decorated
    ∧ Sorted tuple_ge sorted
    ∧ StronglySorted (λ x y, date_ge x.1 y.1) sorted
    ∧ (∀ i x y, sorted !! i = Some x → sorted !! S i = Some y →
         x.1 = y.1 →
         PyCmp.dict_compare PyCmp.compare
           (entry_items x.2) (entry_items y.2) ≠ Lt)
    ∧ tuples = take (match limit with
                     | Some n => Z.to_nat n
                     | None => length entries
                     end) sorted
    ∧ sorted_entries_upto E entries limit w = (Ok tuples, w')
    ∧ entries_by_date E entries limit w = (Ok (snd <$> tuples), w')
    ∧ StronglySorted (λ x y, date_ge x.1 y.1) tuples
    ∧ Sorted tuple_ge tuples
    ∧ (∀ i x y, tuples !! i = Some x → tuples !! S i = Some y →
         x.1 = y.1 →
         PyCmp.dict_compare PyCmp.compare
           (entry_items x.2) (entry_items y.2) ≠ Lt)
    ∧ (∃ rest, (snd <$> tuples) ++ rest ≡ₚ entries)
    ∧ length tuples
      = match limit with
        | Some n => Nat.min (Z.to_nat n) (length entries)
        | None => length entries
        end.
Proof.
  intros Hlimit.
  destruct (sorted_batch entries w)
    as (dec & sorted & w' & Hdec & Hsnd & Hdates & Hperm & Hsorted & Hstrong
        & Hup & Hrun).
  assert (Hlen : length sorted = length entries).
  { by rewrite Hperm, <- Hsnd, length_fmap. }
  set (n := match limit with
            | Some n => Z.to_nat n
            | None => length entries
            end).
  assert (Hn : Py.slice_to limit sorted = take n sorted).
  { subst n. destruct limit as [z|]; simpl.
    - unfold Py.slice_stop. specialize (Hlimit z eq_refl).
      destruct (Z.leb_spec 0 z); [|lia]. apply take_min_length.
    - by rewrite <- Hlen, firstn_all. }
  assert (Hs : Sorted tuple_ge (take n sorted)) by (by apply Sorted_take).
  exists dec, sorted, (take n sorted), w'.
  split; [done|]. split; [done|]. split; [done|]. split; [done|].
  split; [done|].
  split; [intros i x y; by apply Sorted_tuple_ge_ties|].
  split; [done|].
  split; [by rewrite Hup, Hn|]. split; [by rewrite Hrun, Hn|].
  split; [|split; [|split; [|split]]].
  - apply (Sorted_StronglySorted_on _ (λ x, is_date x.1)).
    + intros x y z. apply date_ge_trans.
    + apply Forall_take. by rewrite Hperm.
    + by apply Sorted_tuple_ge_dates.
  - done.
  - intros i x y. by apply Sorted_tuple_ge_ties.
  - exists (snd <$> drop n sorted). rewrite <- fmap_app, take_drop.
    by rewrite Hperm, Hsnd.
  - rewrite length_take, Hlen. subst n. destruct limit; lia.
Qed.

End entries_by_date_facts.

Lemma entries_by_date_sorted_witness :
  (∀ n, Some 1 = Some n → 0 ≤ n)
  ∧ ∃ (decorated sorted : list (pyval * Entry)) w',
      decorated = [(PTime [2024; 5; 17], Demo.dated "a" [2024; 5; 17]);
                   (PTime [2024; 5; 19], Demo.dated "c" [2024; 5; 19]);
                   (PTime [2024; 5; 18], Demo.dated "b" [2024; 5; 18])]
      ∧ sorted ≡ₚ decorated
      ∧ Sorted tuple_ge sorted
      ∧ entries_by_date (Demo.env Demo.ticking)
          [Demo.dated "a" [2024; 5; 17]; Demo.dated "c" [2024; 5; 19];
           Demo.dated "b" [2024; 5; 18]] (Some 1)
          (Demo.store [] []) = (Ok (snd <$> take 1 sorted), w')
      ∧ entries_by_date (Demo.env Demo.ticking)
          [Demo.dated "a" [2024; 5; 17]; Demo.dated "c" [2024; 5; 19];
           Demo.dated "b" [2024; 5; 18]] (Some 1)
          (Demo.store [] [])
        = (Ok [Demo.dated "c" [2024; 5; 19]], Demo.store [] []).
Proof.
  assert (H : ∀ n, Some 1 = Some n → 0 ≤ n) by (intros n [= <-]; lia).
  split; [exact H|].
  destruct (entries_by_date_sorted (Demo.env Demo.ticking)
              [Demo.dated "a" [2024; 5; 17]; Demo.dated "c" [2024; 5; 19];
               Demo.dated "b" [2024; 5; 18]] (Some 1)
              (Demo.store [] []) H)
    as (decorated & sorted & tuples & w' & Hdec & _ & Hperm & Hsorted & _ & _
        & Htuples & _ & Hres & _).
  exists decorated, sorted, w'.
  split; [by injection Hdec as <- _|]. split; [exact Hperm|].
  split; [exact Hsorted|]. rewrite Htuples in Hres.
  split; [exact Hres|]. vm_compute. reflexivity.
Defined.

(** C5 as the specification states it fails: two entries with the same
    date come out in the descending order of the entries, here the
    reverse of their order in the input. *)
Lemma entries_by_date_ties_not_input_order :
  e_date_parsed (Demo.dated "a" Demo.noon)
  = e_date_parsed (Demo.dated "b" Demo.noon)
  ∧ (entries_by_date (Demo.env Demo.ticking)
       [Demo.dated "a" Demo.noon; Demo.dated "b" Demo.noon] None
       (Demo.store [] [])).1
    = Ok [Demo.dated "b" Demo.noon; Demo.dated "a" Demo.noon]
  ∧ [Demo.dated "b" Demo.noon; Demo.dated "a" Demo.noon]
    ≠ [Demo.dated "a" Demo.noon; Demo.dated "b" Demo.noon].
Proof.
  split; [reflexivity|]. split; [vm_compute; reflexivity|]. discriminate.
Qed.

(** The default limit of [entries_by_date] is -1: the slice then drops
    the last tuple, the entry with the oldest date. *)
Lemma entries_by_date_default_limit_drops_last :
  (entries_by_date (Demo.env Demo.ticking)
     [Demo.dated "a" [2024; 5; 17]; Demo.dated "b" [2024; 5; 18]] (Some (-1))
     (Demo.store [] [])).1
  = Ok [Demo.dated "b" [2024; 5; 18]].
Proof. vm_compute. reflexivity. Qed.

(** ** The fallback dates *)

Section fallback_dates.
Context (E : Env).

Lemma date_entry_tuple_fallback entry w :
  no_parsed_date entry →
  date_entry_tuple E entry w
  = (Ok (PTime (localtime E (clock E (w_ticks w))), entry),
     set_ticks (S (w_ticks w)) w).
Proof.
  intros (H1 & H2 & H3). unfold date_entry_tuple. by rewrite H1, H2, H3.
Qed.

(** C6 on importers.py.  When no entry of the batch has a parsed date and
    the clock reads of the batch fall into the same second, every entry
    receives the same date: the dates of importers.py do not decrease
    with the position and they collide. *)
Theorem importers_fallback_dates_collide (entries : list Entry) (w : world)
    (t : struct_time) :
  Forall no_parsed_date entries →
  (∀ k, (k < length entries)%nat →
        localtime E (clock E (w_ticks w + k)) = t) →
  ∃ w', for_each (date_entry_tuple E) entries w
        = (Ok ((λ e, (PTime t, e)) <$> entries), w').
Proof.
  revert w. induction entries as [|e entries IH]; intros w Hall Hclock.
  - by eexists.
  - apply Forall_cons in Hall as [He Hall].
    simpl. unfold bind at 1. rewrite date_entry_tuple_fallback by done.
    destruct (IH (set_ticks (S (w_ticks w)) w) Hall) as [w' Hw'].
    { intros k Hk. simpl. replace (S (w_ticks w + k)) with (w_ticks w + S k)%nat by lia.
      apply Hclock. simpl. lia. }
    exists w'. unfold bind. rewrite Hw'. simpl.
    rewrite <- (Hclock 0%nat) by (simpl; lia).
    by rewrite Nat.add_0_r.
Qed.

(** The same batch in feedutil.py: the dates are [now - 30 s * position],
    they decrease strictly with the position. *)
Lemma feedutil_date_entry_tuples (now : Z) (counter : nat)
    (entries : list Entry) :
  Forall no_parsed_date entries →
  feedutil.date_entry_tuples now counter entries
  = Ok (imap (λ i e, (now - feedutil.seconds (Z.of_nat (counter + i) * 30), e))
          entries).
Proof.
  revert counter. induction entries as [|e entries IH]; intros counter Hall.
  - done.
  - apply Forall_cons in Hall as [(H1 & H2 & H3) Hall]. simpl.
    unfold feedutil.date_entry_tuple. rewrite H1, H2, H3.
    rewrite IH by done. rewrite Nat.add_0_r. do 2 f_equal.
    apply imap_ext. intros i x _. simpl. do 4 f_equal. lia.
Qed.

Lemma feedutil_fallback_dates_decrease (now : Z) (entries : list Entry) :
  Forall no_parsed_date entries →
  ∃ tuples,
    feedutil.date_entry_tuples now 0 entries = Ok tuples
    ∧ snd <$> tuples = entries
    ∧ ∀ i j x y, (i < j)%nat → tuples !! i = Some x → tuples !! j = Some y →
        y.1 < x.1.
Proof.
  intros Hall. eexists. split; [by apply feedutil_date_entry_tuples|].
  split.
  - rewrite fmap_imap. simpl. clear Hall.
    induction entries as [|e entries IH] using rev_ind; [done|].
    rewrite imap_app. simpl. by rewrite IH.
  - intros i j x y Hij Hx Hy.
    apply list_lookup_imap_Some in Hx as (ex & _ & ->).
    apply list_lookup_imap_Some in Hy as (ey & _ & ->).
    simpl. unfold feedutil.seconds. lia.
Qed.

End fallback_dates.

Lemma importers_fallback_dates_collide_witness :
  Forall no_parsed_date [Demo.no_entry; Demo.no_entry]
  ∧ (∀ k, (k < 2)%nat →
       localtime (Demo.env Demo.frozen) (Demo.frozen (0 + k))
       = localtime (Demo.env Demo.frozen) (Demo.frozen 0))
  ∧ ∃ w', for_each (date_entry_tuple (Demo.env Demo.frozen))
            [Demo.no_entry; Demo.no_entry] (Demo.store [] [])
          = (Ok [(PTime [1970; 1; 1; 0; 0; 1000; 3; 1; 0], Demo.no_entry);
                 (PTime [1970; 1; 1; 0; 0; 1000; 3; 1; 0], Demo.no_entry)],
             w').
Proof.
  assert (H1 : Forall no_parsed_date [Demo.no_entry; Demo.no_entry])
    by (repeat constructor).
  assert (H2 : ∀ k, (k < 2)%nat →
       localtime (Demo.env Demo.frozen) (Demo.frozen (0 + k))
       = localtime (Demo.env Demo.frozen) (Demo.frozen 0)) by reflexivity.
  split; [exact H1|]. split; [exact H2|].
  exact (importers_fallback_dates_collide (Demo.env Demo.frozen)
           [Demo.no_entry; Demo.no_entry] (Demo.store [] []) _ H1 H2).
Defined.

(** ** The content of a post *)

Section content.
Context (E : Env).

Lemma find_post_summary_text (feed_obj : Feed) (entry : Entry) :
  _find_post_summary E feed_obj entry = summarize_html E (summary_text entry).
Proof.
  unfold _find_post_summary, summary_text.
  destruct (e_summary entry); [done|].
  by destruct (e_content entry) as [[|block blocks]|].
Qed.

(** A handler that raises: [import_entry] raises with it, at its first
    statement, and nothing is written. *)
Lemma import_entry_content_raises (self : FeedImporter) (feed_obj : Feed)
    (entry : Entry) (w w' : world) (e : exn) :
  _find_post_summary E feed_obj entry w = (Raise e, w') →
  w' = w ∧ import_entry E self entry feed_obj w = (Raise e, w).
Proof.
  rewrite find_post_summary_text. unfold summarize_html, call.
  intros [= Hr <-]. split; [done|].
  unfold import_entry, post_fields_parsed. unfold bind.
  rewrite find_post_summary_text. unfold summarize_html, call.
  by rewrite Hr.
Qed.

(** C8 on the code.  The handler of the content in importers.py is
    [_find_post_summary].  It truncates the summary of the entry when the
    entry has one, whatever its content blocks are; without a summary it
    truncates the value of the first content block; without either, the
    empty string.  Nothing else of the entry is read: not its
    description.  The truncation is called without any [try]: when it
    cannot decode the text, its exception leaves the handler and
    [import_entry], which has written nothing; the content is not the
    empty string. *)
Theorem find_post_summary_spec (feed_obj : Feed) (entry : Entry) :
  (∀ s, e_summary entry = Some s →
        _find_post_summary E feed_obj entry = summarize_html E s)
  ∧ (∀ block blocks v,
        e_summary entry = None →
        e_content entry = Some (block :: blocks) →
        block !! "value" = Some v →
        _find_post_summary E feed_obj entry = summarize_html E v)
  ∧ (e_summary entry = None →
     e_content entry = None ∨ e_content entry = Some []
     ∨ (∃ block blocks, e_content entry = Some (block :: blocks)
                        ∧ block !! "value" = None) →
     _find_post_summary E feed_obj entry = summarize_html E "")
  ∧ (∀ feed_obj' entry',
        e_summary entry' = e_summary entry →
        e_content entry' = e_content entry →
        _find_post_summary E feed_obj' entry'
        = _find_post_summary E feed_obj entry)
  ∧ (∀ text w,
        summarize_html E text w
        = (truncate_html_words E text DEFAULT_SUMMARY_MAX_WORDS, w))
  ∧ (∀ self w w' e,
        _find_post_summary E feed_obj entry w = (Raise e, w') →
        import_entry E self entry feed_obj w = (Raise e, w)).
Proof.
  split; [|split; [|split; [|split; [|split]]]].
  - unfold _find_post_summary. by intros s ->.
  - unfold _find_post_summary. intros block blocks v -> -> ->. done.
  - unfold _find_post_summary.
    intros -> [->|[->|(block & blocks & -> & ->)]]; done.
  - unfold _find_post_summary. by intros feed_obj' entry' -> ->.
  - done.
  - intros self w w' e Hr.
    by destruct (import_entry_content_raises self feed_obj entry w w' e Hr).
Qed.

(** The sibling in feedutil.py, [find_post_content], which no handler of
    [post_field_handlers] calls: the value of the first content block
    comes first, whatever the summary is, and a text that cannot be
    decoded gives the empty string. *)
Lemma feedutil_find_post_content_spec (feed_obj : Feed) (entry : Entry)
    (w : world) :
  (∀ block blocks v text,
      e_content entry = Some (block :: blocks) →
      block !! "value" = Some v →
      truncate_html_words E v (DEFAULT_ENTRY_WORD_LIMIT E) = Ok text →
      feedutil.find_post_content E feed_obj entry w = (Ok text, w))
  ∧ (∀ s text,
        e_content entry = None → e_description entry = None →
        e_summary entry = Some s →
        truncate_html_words E s (DEFAULT_ENTRY_WORD_LIMIT E) = Ok text →
        feedutil.find_post_content E feed_obj entry w = (Ok text, w))
  ∧ (∀ d text,
        e_content entry = None → e_description entry = Some d →
        Py.truthy d = true →
        truncate_html_words E d (DEFAULT_ENTRY_WORD_LIMIT E) = Ok text →
        feedutil.find_post_content E feed_obj entry w = (Ok text, w))
  ∧ (∀ block blocks v,
        e_content entry = Some (block :: blocks) →
        block !! "value" = Some v →
        truncate_html_words E v (DEFAULT_ENTRY_WORD_LIMIT E)
        = Raise UnicodeDecodeError →
        feedutil.find_post_content E feed_obj entry w = (Ok "", w))
  ∧ (∀ s,
        e_content entry = None → e_description entry = None →
        e_summary entry = Some s →
        truncate_html_words E s (DEFAULT_ENTRY_WORD_LIMIT E)
        = Raise UnicodeDecodeError →
        feedutil.find_post_content E feed_obj entry w = (Ok "", w)).
Proof.
  unfold feedutil.find_post_content, try_except, call.
  split; [|split; [|split; [|split]]].
  - intros block blocks v text Hc Hv Hr. rewrite Hc, Hv. by rewrite Hr.
  - intros s text Hc Hd Hs Hr. rewrite Hc, Hd, Hs. simpl. by rewrite Hr.
  - intros d text Hc Hd Ht Hr. rewrite Hc, Hd, Ht. by rewrite Hr.
  - intros block blocks v Hc Hv Hr. rewrite Hc, Hv. by rewrite Hr.
  - intros s Hc Hd Hs Hr. rewrite Hc, Hd, Hs. simpl. by rewrite Hr.
Qed.

End content.

Lemma find_post_summary_spec_witness :
  e_summary Demo.summary_and_content = Some "Short"
  ∧ e_content Demo.summary_and_content = Some [{["value" := "Full text"]}]
  ∧ _find_post_summary (Demo.env Demo.ticking) (Demo.feed_row None)
      Demo.summary_and_content Demo.start
    = (Ok "Short", Demo.start)
  ∧ _find_post_summary (Demo.env Demo.ticking) (Demo.feed_row None)
      Demo.undecodable Demo.start
    = (Raise UnicodeDecodeError, Demo.start)
  ∧ import_entry (Demo.env Demo.ticking) Demo.importer Demo.undecodable
      (Demo.feed_row None) Demo.start
    = (Raise UnicodeDecodeError, Demo.start).
Proof.
  split; [reflexivity|]. split; [reflexivity|].
  pose proof (find_post_summary_spec (Demo.env Demo.ticking)
                (Demo.feed_row None) Demo.summary_and_content)
    as (Hsum & _).
  pose proof (find_post_summary_spec (Demo.env Demo.ticking)
                (Demo.feed_row None) Demo.undecodable)
    as (_ & _ & _ & _ & _ & Hraise).
  assert (H : _find_post_summary (Demo.env Demo.ticking) (Demo.feed_row None)
                Demo.undecodable Demo.start
              = (Raise UnicodeDecodeError, Demo.start)) by reflexivity.
  split; [by rewrite (Hsum "Short" eq_refl)|].
  split; [exact H|].
  exact (Hraise Demo.importer Demo.start Demo.start UnicodeDecodeError H).
Defined.

(** The two inputs on which the handler of importers.py and its sibling
    differ: with a summary and a content block the handler takes the
    summary and the sibling the block; on a text that is not decoded the
    handler raises and the sibling returns the empty string. *)
Lemma find_post_summary_not_content_first :
  (_find_post_summary (Demo.env Demo.ticking) (Demo.feed_row None)
     Demo.summary_and_content Demo.start).1 = Ok "Short"
  ∧ (feedutil.find_post_content (Demo.env Demo.ticking) (Demo.feed_row None)
       Demo.summary_and_content Demo.start).1 = Ok "Full text"
  ∧ (_find_post_summary (Demo.env Demo.ticking) (Demo.feed_row None)
       Demo.undecodable Demo.start).1 = Raise UnicodeDecodeError
  ∧ (feedutil.find_post_content (Demo.env Demo.ticking) (Demo.feed_row None)
       Demo.undecodable Demo.start).1 = Ok "".
Proof. repeat split. Qed.

(** ** The throttle of update_feed *)

Section throttle.
Context (E : Env).

Lemma update_feed_recent (self : FeedImporter) (feed_obj : Feed)
    (feed : option ParsedFeed) (force : bool) (w : world) (last : Z) :
  date_last_refresh feed_obj = Some last →
  clock E (w_ticks w) < last + MIN_REFRESH_INTERVAL E →
  update_feed E self feed_obj feed force w
  = (Ok feed_obj, set_ticks (S (w_ticks w)) w).
Proof.
  intros Hlast Hnow.
  unfold update_feed, recently_refreshed, bind, datetime_now, ret.
  rewrite Hlast. apply Z.ltb_lt in Hnow. by rewrite Hnow.
Qed.

(** [update_feed] never reads [force]. *)
Lemma update_feed_ignores_force (self : FeedImporter) (feed_obj : Feed)
    (feed : option ParsedFeed) (w : world) :
  update_feed E self feed_obj feed true w
  = update_feed E self feed_obj feed false w.
Proof. reflexivity. Qed.

(** C2.  A feed refreshed at [last] and refreshed again, not forced, at
    an instant before [last + MIN_REFRESH_INTERVAL]: the call returns
    the feed object as it was given, the parser is not called, and no
    table of the store changes; in particular the refresh date of the
    row stays. *)
Theorem update_feed_throttled (self : FeedImporter) (feed_obj : Feed)
    (feed : option ParsedFeed) (w : world) (last : Z) :
  date_last_refresh feed_obj = Some last →
  clock E (w_ticks w) < last + MIN_REFRESH_INTERVAL E →
  ∃ w', update_feed E self feed_obj feed false w = (Ok feed_obj, w')
        ∧ w_fetches w' = w_fetches w
        ∧ w_feeds w' = w_feeds w
        ∧ w_posts w' = w_posts w
        ∧ w_categories w' = w_categories w
        ∧ w_feed_categories w' = w_feed_categories w
        ∧ w_post_categories w' = w_post_categories w
        ∧ w_post_enclosures w' = w_post_enclosures w.
Proof.
  intros Hlast Hnow. eexists. split; [by eapply update_feed_recent|].
  repeat split.
Qed.

(** C3 on the code.  The same call with [force = true] is throttled all
    the same: the feed object is returned as it was and the parser is
    not called. *)
Theorem update_feed_forced_is_throttled (self : FeedImporter)
    (feed_obj : Feed) (w : world) (last : Z) :
  date_last_refresh feed_obj = Some last →
  clock E (w_ticks w) < last + MIN_REFRESH_INTERVAL E →
  ∃ w', update_feed E self feed_obj None true w = (Ok feed_obj, w')
        ∧ w_fetches w' = w_fetches w
        ∧ w_feeds w' = w_feeds w.
Proof.
  intros Hlast Hnow. eexists. split; [by eapply update_feed_recent|].
  repeat split.
Qed.

End throttle.

Lemma update_feed_throttled_witness :
  date_last_refresh (Demo.feed_row (Some 999000000)) = Some 999000000
  ∧ clock (Demo.env Demo.ticking)
      (w_ticks (Demo.store [Demo.feed_row (Some 999000000)] []))
    < 999000000 + MIN_REFRESH_INTERVAL (Demo.env Demo.ticking)
  ∧ ∃ w', update_feed (Demo.env Demo.ticking) Demo.importer
            (Demo.feed_row (Some 999000000)) None false
            (Demo.store [Demo.feed_row (Some 999000000)] [])
          = (Ok (Demo.feed_row (Some 999000000)), w')
          ∧ w_fetches w' = []
          ∧ w_feeds w' = [Demo.feed_row (Some 999000000)].
Proof.
  assert (H1 : date_last_refresh (Demo.feed_row (Some 999000000))
               = Some 999000000) by reflexivity.
  assert (H2 : clock (Demo.env Demo.ticking)
                 (w_ticks (Demo.store [Demo.feed_row (Some 999000000)] []))
               < 999000000 + MIN_REFRESH_INTERVAL (Demo.env Demo.ticking))
    by (vm_compute; reflexivity).
  split; [exact H1|]. split; [exact H2|].
  destruct (update_feed_throttled (Demo.env Demo.ticking) Demo.importer
              (Demo.feed_row (Some 999000000)) None
              (Demo.store [Demo.feed_row (Some 999000000)] []) _ H1 H2)
    as (w' & Hres & Hfetch & Hfeeds & _).
  exists w'. split; [exact Hres|]. split; [exact Hfetch | exact Hfeeds].
Defined.

Lemma update_feed_forced_is_throttled_witness :
  date_last_refresh (Demo.feed_row (Some 999000000)) = Some 999000000
  ∧ clock (Demo.env Demo.ticking)
      (w_ticks (Demo.store [Demo.feed_row (Some 999000000)] []))
    < 999000000 + MIN_REFRESH_INTERVAL (Demo.env Demo.ticking)
  ∧ ∃ w', update_feed (Demo.env Demo.ticking) Demo.importer
            (Demo.feed_row (Some 999000000)) None true
            (Demo.store [Demo.feed_row (Some 999000000)] [])
          = (Ok (Demo.feed_row (Some 999000000)), w')
          ∧ w_fetches w' = [].
Proof.
  assert (H1 : date_last_refresh (Demo.feed_row (Some 999000000))
               = Some 999000000) by reflexivity.
  assert (H2 : clock (Demo.env Demo.ticking)
                 (w_ticks (Demo.store [Demo.feed_row (Some 999000000)] []))
               < 999000000 + MIN_REFRESH_INTERVAL (Demo.env Demo.ticking))
    by (vm_compute; reflexivity).
  split; [exact H1|]. split; [exact H2|].
  destruct (update_feed_forced_is_throttled (Demo.env Demo.ticking)
              Demo.importer (Demo.feed_row (Some 999000000))
              (Demo.store [Demo.feed_row (Some 999000000)] []) _ H1 H2)
    as (w' & Hres & Hfetch & _).
  exists w'. split; [exact Hres | exact Hfetch].
Defined.

(** ** The redirect of import_feed *)

Section redirect.
Context (E : Env).

Lemma filter_nil_weaken {A} (p q : A → bool) (l : list A) :
  (∀ x, q x = true → p x = true) →
  List.filter p l = [] → List.filter q l = [].
Proof.
  intros Hpq. induction l as [|x l IH]; simpl; [done|].
  destruct (p x) eqn:Hp; [done|]. intros Hl.
  destruct (q x) eqn:Hq; [|by apply IH].
  apply Hpq in Hq. congruence.
Qed.

(** C10 on the code.  A first import of [url] whose fetch answers with a
    redirect status and another final URL: the second read of the status
    uses the key of line 315, which the result does not have, and finds
    [HTTP_OK].  [import_feed] does not call itself on the final URL: it
    fetches once, stores the feed under the URL it was given and goes on
    with that row. *)
Theorem import_feed_redirect_not_followed (depth : nat) (self : FeedImporter)
    (url : string) (force : bool) (w : world) (feed : ParsedFeed) :
  List.filter (λ f, String.eqb (feed_url f) (Py.strip url)) (w_feeds w) = [] →
  parser_parse E (Py.strip url) None None = Parsed feed →
  pf_ints feed !! "status" = Some HTTP_MOVED
  ∨ pf_ints feed !! "status" = Some HTTP_FOUND →
  pf_ints feed !! status_key_315 = None →
  pf_href feed ≠ Py.strip url →
  ∃ row w1,
    import_feed E (S depth) self url force w
    = import_feed_finish E self row (Some feed) force w1
    ∧ feed_url row = Py.strip url
    ∧ w_feeds w1 = w_feeds w ++ [row]
    ∧ w_fetches w1
      = w_fetches w ++ [{| fc_url := Py.strip url; fc_etag := None;
                           fc_modified := None;
                           fc_timeout := timeout self |}].
Proof.
  intros Hnew Hparse Hstatus Hkey Hhref.
  eexists _, _. split; [|split; [|split]]; cycle 1.
  - shelve.
  - shelve.
  - shelve.
  - simpl. unfold try_except, bind at 1. unfold bind at 1.
    unfold Store.get at 1. rewrite Hnew. simpl.
    unfold bind at 1. unfold bind at 1. unfold parse_feed at 1.
    rewrite Hparse. unfold bind at 1. unfold ret at 1.
    assert (Hs : ∃ s, pf_ints feed !! "status" = Some s
                      ∧ (s = HTTP_MOVED ∨ s = HTTP_FOUND)).
    { destruct Hstatus as [H|H]; eauto. }
    destruct Hs as (s & -> & Hs). rewrite Hkey.
    match goal with
    | |- context [if ?c then raise FeedNotFoundError else _] =>
        replace c with false by (by destruct Hs as [->| ->])
    end.
    match goal with
    | |- context [if ?c then raise (FeedCriticalError__init__ _) else _] =>
        replace c with false by (by destruct Hs as [->| ->])
    end.
    match goal with
    | |- context [if ?c && ?d then _ else _] =>
        replace c with false by reflexivity
    end.
    rewrite andb_false_l.
    unfold bind, Feed_get_or_create, Store.get, ret. simpl w_feeds.
    match goal with
    | |- context [List.filter ?q (w_feeds w)] =>
        rewrite (filter_nil_weaken
                   (λ f, String.eqb (feed_url f) (Py.strip url)) q (w_feeds w))
    end; [reflexivity| |exact Hnew].
    intros x Hx. repeat (apply andb_prop in Hx as [Hx _]). exact Hx.
  Unshelve.
  all: reflexivity.
Qed.

End redirect.

Lemma import_feed_redirect_not_followed_witness :
  List.filter (λ f, String.eqb (feed_url f) (Py.strip Demo.old_url))
    (w_feeds (Demo.store [] [])) = []
  ∧ parser_parse (Demo.env Demo.ticking) (Py.strip Demo.old_url) None None
    = Parsed (Demo.parsed 301 Demo.new_url [])
  ∧ pf_href (Demo.parsed 301 Demo.new_url []) ≠ Py.strip Demo.old_url
  ∧ ∃ row w1,
      import_feed (Demo.env Demo.ticking) 1 Demo.importer Demo.old_url false
        (Demo.store [] [])
      = import_feed_finish (Demo.env Demo.ticking) Demo.importer row
          (Some (Demo.parsed 301 Demo.new_url [])) false w1
      ∧ feed_url row = Py.strip Demo.old_url
      ∧ w_feeds w1 = [row].
Proof.
  assert (H1 : List.filter
                 (λ f, String.eqb (feed_url f) (Py.strip Demo.old_url))
                 (w_feeds (Demo.store [] [])) = []) by reflexivity.
  assert (H2 : parser_parse (Demo.env Demo.ticking) (Py.strip Demo.old_url)
                 None None = Parsed (Demo.parsed 301 Demo.new_url []))
    by (vm_compute; reflexivity).
  assert (H3 : pf_ints (Demo.parsed 301 Demo.new_url []) !! "status"
               = Some HTTP_MOVED
               ∨ pf_ints (Demo.parsed 301 Demo.new_url []) !! "status"
                 = Some HTTP_FOUND) by (left; vm_compute; reflexivity).
  assert (H4 : pf_ints (Demo.parsed 301 Demo.new_url []) !! status_key_315
               = None) by (vm_compute; reflexivity).
  assert (H5 : pf_href (Demo.parsed 301 Demo.new_url [])
               ≠ Py.strip Demo.old_url) by (vm_compute; discriminate).
  split; [exact H1|]. split; [exact H2|]. split; [exact H5|].
  destruct (import_feed_redirect_not_followed (Demo.env Demo.ticking) 0
              Demo.importer Demo.old_url false (Demo.store [] []) _
              H1 H2 H3 H4 H5) as (row & w1 & Hrun & Hurl & Hfeeds & _).
  exists row, w1. split; [exact Hrun|]. split; [exact Hurl | exact Hfeeds].
Defined.

(** The whole run on that input: one fetch, of the old URL, and one feed
    row, with the old URL; the new URL is never fetched. *)
Lemma import_feed_redirect_run :
  let r := import_feed (Demo.env Demo.ticking) 5 Demo.importer Demo.old_url
             false (Demo.store [] []) in
  fc_url <$> w_fetches r.2 = [Demo.old_url]
  ∧ feed_url <$> w_feeds r.2 = [Demo.old_url].
Proof. vm_compute. split; reflexivity. Qed.

(** ** Frames of the monadic code *)

Section preserves.
Context (R : world → world → Prop).
Context (R_refl : ∀ w, R w w).
Context (R_trans : ∀ w1 w2 w3, R w1 w2 → R w2 w3 → R w1 w3).

Lemma preserves_ret {A} (a : A) : preserves R (ret a).
Proof. intros w. apply R_refl. Qed.

Lemma preserves_raise {A} (e : exn) : preserves R (@raise A e).
Proof. intros w. apply R_refl. Qed.

Lemma preserves_bind {A B} (m : M A) (k : A → M B) :
  preserves R m → (∀ a, preserves R (k a)) → preserves R (bind m k).
Proof.
  intros Hm Hk w. unfold bind. specialize (Hm w).
  destruct (m w) as [[a|e] w1]; simpl in *; [|done].
  eapply R_trans; [exact Hm|apply Hk].
Qed.

Lemma preserves_try_except {A} (m : M A) (h : exn → M A) :
  preserves R m → (∀ e, preserves R (h e)) → preserves R (try_except m h).
Proof.
  intros Hm Hh w. unfold try_except. specialize (Hm w).
  destruct (m w) as [[a|e] w1]; simpl in *; [done|].
  eapply R_trans; [exact Hm|apply Hh].
Qed.

Lemma preserves_for_each {A B} (f : A → M B) (l : list A) :
  (∀ x, preserves R (f x)) → preserves R (for_each f l).
Proof.
  intros Hf. induction l as [|x l IH]; simpl.
  - apply preserves_ret.
  - apply preserves_bind; [apply Hf|]. intros y.
    apply preserves_bind; [apply IH|]. intros ys. apply preserves_ret.
Qed.

End preserves.

Ltac preserves_step :=
  first
    [ apply preserves_ret; solve [eauto]
    | apply preserves_raise; solve [eauto]
    | apply preserves_bind; [solve [eauto] | | intros ?]
    | apply preserves_try_except; [solve [eauto] | | intros ?]
    | apply preserves_for_each; [solve [eauto] | solve [eauto] | intros ?]
    | match goal with
      | |- preserves _ (if ?c then _ else _) => destruct c
      | |- preserves _ (match ?x with _ => _ end) => destruct x
      end ].

Lemma same_feeds_refl w : same_feeds w w.
Proof. by split. Qed.

Lemma same_feeds_trans w1 w2 w3 :
  same_feeds w1 w2 → same_feeds w2 w3 → same_feeds w1 w3.
Proof. intros [? ?] [? ?]. split; congruence. Qed.

Lemma same_store_refl w : same_store w w.
Proof. exists (w_ticks w). by destruct w. Qed.

Lemma same_store_trans w1 w2 w3 :
  same_store w1 w2 → same_store w2 w3 → same_store w1 w3.
Proof. intros [k ->] [k' ->]. by exists k'. Qed.

Lemma same_store_feeds w w' : same_store w w' → same_feeds w w'.
Proof. by intros [k ->]. Qed.

Global Hint Resolve same_feeds_refl same_feeds_trans same_store_refl
  same_store_trans : core.

Section frames.
Context (E : Env).

Lemma datetime_now_same_store : preserves same_store (datetime_now E).
Proof. intros w. by eexists. Qed.

Lemma time_localtime_same_store : preserves same_store (time_localtime E).
Proof. intros w. by eexists. Qed.

Lemma date_entry_tuple_same_store entry :
  preserves same_store (date_entry_tuple E entry).
Proof.
  unfold date_entry_tuple. repeat preserves_step.
  apply time_localtime_same_store.
Qed.

Lemma entries_by_date_same_store entries limit :
  preserves same_store (entries_by_date E entries limit).
Proof.
  unfold entries_by_date, sorted_entries_upto. repeat preserves_step.
  apply date_entry_tuple_same_store.
Qed.

Lemma call_same_store {A} (r : result A) : preserves same_store (call r).
Proof. intros w. apply same_store_refl. Qed.

Lemma find_post_summary_same_store feed_obj entry :
  preserves same_store (_find_post_summary E feed_obj entry).
Proof. unfold _find_post_summary, summarize_html. apply call_same_store. Qed.

Lemma parsed_date_to_datetime_same_store field feed_obj entry :
  preserves same_store (_parsed_date_to_datetime E field feed_obj entry).
Proof.
  unfold _parsed_date_to_datetime, fromtimestamp_mktime.
  repeat preserves_step;
    first [apply datetime_now_same_store | apply call_same_store].
Qed.

Lemma post_fields_parsed_same_store entry feed_obj :
  preserves same_store (post_fields_parsed E entry feed_obj).
Proof.
  unfold post_fields_parsed.
  repeat preserves_step;
    first [apply find_post_summary_same_store
          | apply parsed_date_to_datetime_same_store].
Qed.

Lemma preserves_weaken {A} (R R' : world → world → Prop) (m : M A) :
  (∀ w w', R w w' → R' w w') → preserves R m → preserves R' m.
Proof. intros HR Hm w. apply HR, Hm. Qed.

Lemma Post_get_or_create_same_feeds lookup params :
  preserves same_feeds (Post_get_or_create lookup params).
Proof.
  intros w. unfold Post_get_or_create.
  destruct (Store.get (w_posts w) lookup) as [p|[]]; by simpl.
Qed.

Lemma Category_get_or_create_same_feeds name domain :
  preserves same_feeds (Category_get_or_create name domain).
Proof.
  intros w. unfold Category_get_or_create.
  destruct (Store.get (w_categories w) _) as [p|[]]; by simpl.
Qed.

Lemma get_categories_same_feeds categories :
  preserves same_feeds (get_categories categories).
Proof.
  unfold get_categories, create_category. repeat preserves_step.
  apply Category_get_or_create_same_feeds.
Qed.

Lemma import_entry_same_feeds self entry feed_obj :
  preserves same_feeds (import_entry E self entry feed_obj).
Proof.
  unfold import_entry.
  apply preserves_bind; eauto.
  { eapply preserves_weaken;
      [apply same_store_feeds|apply post_fields_parsed_same_store]. }
  intros fields.
  apply preserves_bind; eauto.
  { unfold store_post.
    destruct (Py.truthy _); [apply Post_get_or_create_same_feeds|].
    apply preserves_try_except; eauto;
      [apply Post_get_or_create_same_feeds|].
    intros e. destruct e; try (apply preserves_raise; eauto).
    apply preserves_bind; eauto; [by intros w|].
    intros [p|]; repeat preserves_step. by intros w. }
  intros pc. unfold save_and_attach.
  repeat preserves_step; try (by intros w).
  apply get_categories_same_feeds.
Qed.

Lemma for_each_raise {A B} (f : A → M B) (pre : list A) (x : A)
    (rest : list A) (w w1 w2 : world) (ys : list B) (e : exn) :
  for_each f pre w = (Ok ys, w1) →
  f x w1 = (Raise e, w2) →
  for_each f (pre ++ x :: rest) w = (Raise e, w2).
Proof.
  revert w ys. induction pre as [|a pre IH]; intros w ys; simpl.
  - intros [= _ <-] Hx. unfold bind. by rewrite Hx.
  - unfold bind. destruct (f a w) as [[b|e'] wa]; [|done].
    destruct (for_each f pre wa) as [[bs|e'] wb] eqn:Hpre; [|done].
    intros [= _ <-] Hx. by rewrite (IH wa bs Hpre Hx).
Qed.

End frames.

(** ** The field handlers *)

Section handlers.
Context (E : Env).

Lemma set_ticks_same (w : world) : set_ticks (w_ticks w) w = w.
Proof. by destruct w. Qed.

(** A date handler that returns: it gives the converted date and reads
    no clock, or the instant of the clock. *)
Lemma parsed_date_to_datetime_returns
    (field : Entry → option (option struct_time)) (feed_obj : Feed)
    (entry : Entry) (w : world) :
  date_handler_returns E (field entry) = true →
  ∃ z k,
    _parsed_date_to_datetime E field feed_obj entry w = (Ok z, set_ticks k w)
    ∧ (w_ticks w ≤ k)%nat
    ∧ (∀ t z', field entry = Some (Some t) → mktime E t = Ok z' →
         z = z' ∧ k = w_ticks w)
    ∧ ((∀ t, field entry ≠ Some (Some t)) →
       z = clock E (w_ticks w) ∧ k = S (w_ticks w)).
Proof.
  unfold _parsed_date_to_datetime, fromtimestamp_mktime, try_except, call,
    raise, datetime_now, date_handler_returns.
  destruct (field entry) as [[t|]|]; intros Hret.
  - destruct (mktime E t) as [z|e] eqn:Hmk.
    + exists z, (w_ticks w). rewrite set_ticks_same.
      split; [done|]. split; [done|]. split.
      * intros t' z' [= <-]. rewrite Hmk. by intros [= <-].
      * intros Hno. by destruct (Hno t).
    + destruct e; try discriminate Hret.
      exists (clock E (w_ticks w)), (S (w_ticks w)).
      split; [done|]. split; [lia|]. split.
      * intros t' z' [= <-]. by rewrite Hmk.
      * done.
  - exists (clock E (w_ticks w)), (S (w_ticks w)).
    split; [done|]. split; [lia|]. split; [done|]. done.
  - exists (clock E (w_ticks w)), (S (w_ticks w)).
    split; [done|]. split; [lia|]. split; [done|]. done.
Qed.

(** A date handler that raises: the exception is the one of the C
    library, and the clock was not read. *)
Lemma parsed_date_to_datetime_raises
    (field : Entry → option (option struct_time)) (feed_obj : Feed)
    (entry : Entry) (w : world) :
  date_handler_returns E (field entry) = false →
  ∃ t e, field entry = Some (Some t) ∧ mktime E t = Raise e
         ∧ _parsed_date_to_datetime E field feed_obj entry w = (Raise e, w).
Proof.
  unfold _parsed_date_to_datetime, fromtimestamp_mktime, try_except, call,
    raise, date_handler_returns.
  destruct (field entry) as [[t|]|]; try done.
  destruct (mktime E t) as [z|e] eqn:Hmk; [done|]. intros Hret.
  exists t, e. split; [done|]. split; [done|].
  by destruct e.
Qed.

(** The fields of an entry whose handlers return. *)
Lemma post_fields_parsed_spec (entry : Entry) (feed_obj : Feed) (w : world) :
  handlers_return E entry = true →
  ∃ fields k,
    post_fields_parsed E entry feed_obj w = (Ok fields, set_ticks k w)
    ∧ (w_ticks w ≤ k)%nat
    ∧ truncate_html_words E (summary_text entry) DEFAULT_SUMMARY_MAX_WORDS
      = Ok (f_content fields)
    ∧ f_guid fields = handle_guid feed_obj entry
    ∧ f_title fields = handle_title feed_obj entry
    ∧ f_feed fields = feed_pk feed_obj
    ∧ (∀ t z, e_published_parsed entry = Some (Some t) → mktime E t = Ok z →
         f_date_published fields = z)
    ∧ ((∀ t, e_published_parsed entry ≠ Some (Some t)) →
       f_date_published fields = clock E (w_ticks w) ∧ (w_ticks w < k)%nat).
Proof.
  unfold handlers_return. intros Hret.
  apply andb_prop in Hret as [Hret Hupd].
  apply andb_prop in Hret as [Htext Hpub].
  destruct (truncate_html_words E (summary_text entry)
              DEFAULT_SUMMARY_MAX_WORDS) as [content|] eqn:Hcontent; [|done].
  destruct (parsed_date_to_datetime_returns e_published_parsed feed_obj
              entry w Hpub) as (zp & kp & Hrunp & Hkp & Hp1 & Hp2).
  destruct (parsed_date_to_datetime_returns e_updated_parsed feed_obj
              entry (set_ticks kp w) Hupd) as (zu & ku & Hrunu & Hku & _).
  eexists _, ku. split.
  - unfold post_fields_parsed. unfold bind at 1.
    rewrite find_post_summary_text. unfold summarize_html, call.
    rewrite Hcontent. unfold bind at 1. rewrite Hrunp.
    unfold bind at 1. rewrite Hrunu. reflexivity.
  - simpl in *. split; [lia|]. split; [done|]. split; [done|].
    split; [done|]. split; [done|]. split.
    + intros t z Ht Hz. by destruct (Hp1 t z Ht Hz).
    + intros Hno. destruct (Hp2 Hno) as [-> ->]. split; [done|]. lia.
Qed.

(** The fields of an entry one of whose handlers raises: the exception
    leaves [post_fields_parsed]. *)
Lemma post_fields_parsed_raises (entry : Entry) (feed_obj : Feed)
    (w : world) :
  handlers_return E entry = false →
  ∃ e k, post_fields_parsed E entry feed_obj w = (Raise e, set_ticks k w).
Proof.
  intros Hret.
  pose proof (post_fields_parsed_same_store E entry feed_obj w) as [k Hk].
  destruct (post_fields_parsed E entry feed_obj w) as [[fields|e] w1] eqn:Hrun;
    simpl in Hk; subst w1; [|by eexists _, _].
  exfalso. revert Hrun Hret. unfold handlers_return, post_fields_parsed.
  unfold bind at 1. rewrite find_post_summary_text.
  unfold summarize_html, call.
  destruct (truncate_html_words E (summary_text entry)
              DEFAULT_SUMMARY_MAX_WORDS) as [content|]; [|done].
  unfold bind at 1.
  destruct (date_handler_returns E (e_published_parsed entry)) eqn:Hpub.
  - destruct (parsed_date_to_datetime_returns e_published_parsed feed_obj
                entry w Hpub) as (zp & kp & -> & _).
    unfold bind at 1.
    destruct (date_handler_returns E (e_updated_parsed entry)) eqn:Hupd;
      [done|].
    destruct (parsed_date_to_datetime_raises e_updated_parsed feed_obj
                entry (set_ticks kp w) Hupd) as (t & e & _ & _ & ->).
    done.
  - destruct (parsed_date_to_datetime_raises e_published_parsed feed_obj
                entry w Hpub) as (t & e & _ & _ & ->).
    done.
Qed.

(** An entry one of whose handlers raises is not imported: [import_entry]
    raises and the store is as before. *)
Lemma import_entry_handler_raises (self : FeedImporter) (entry : Entry)
    (feed_obj : Feed) (w : world) :
  handlers_return E entry = false →
  ∃ e k, import_entry E self entry feed_obj w = (Raise e, set_ticks k w).
Proof.
  intros Hret.
  destruct (post_fields_parsed_raises entry feed_obj w Hret)
    as (e & k & Hrun).
  exists e, k. unfold import_entry, bind. by rewrite Hrun.
Qed.

End handlers.

(** A date before the range of the C library: the handler of the
    publication date raises [ValueError], which [except TypeError] does
    not catch, and the entry is not imported. *)
Lemma import_entry_out_of_range_raises :
  handlers_return (Demo.env Demo.ticking)
    (Demo.entry "Old" "g7" "Ann" (Some [1850; 1; 1; 0; 0; 0; 1; 1; 0]))
  = false
  ∧ import_entry (Demo.env Demo.ticking) Demo.importer
      (Demo.entry "Old" "g7" "Ann" (Some [1850; 1; 1; 0; 0; 0; 1; 1; 0]))
      (Demo.feed_row None) Demo.start
    = (Raise ValueError, Demo.start).
Proof. split; reflexivity. Qed.

(** ** The scan for a duplicate *)

Section duplicates.
Context (E : Env).

Lemma Store_get_multiple {A} (rows : list A) (lookup : A → bool) :
  (2 ≤ length (List.filter lookup rows))%nat →
  Store.get rows lookup = Raise MultipleObjectsReturned.
Proof.
  unfold Store.get. destruct (List.filter lookup rows) as [|x [|y l]];
    simpl; try lia. done.
Qed.

Lemma scan_possible_raises (rows : list Post) (fields : PostFields) :
  rows ≠ [] → scan_possible rows fields = Raise (NameError "possible_dupe").
Proof. by destruct rows. Qed.

(** C4 on the code.  An entry without guid whose title, feed and
    publication date match two stored posts or more: the scan reads the
    unbound name [possible_dupe] on its first candidate, and
    [import_entry] raises [NameError]; no post is updated and none is
    created. *)
Theorem import_entry_duplicate_scan_raises (self : FeedImporter)
    (entry : Entry) (feed_obj : Feed) (w w1 : world) (fields : PostFields) :
  post_fields_parsed E entry feed_obj w = (Ok fields, w1) →
  f_guid (truncate_post_data E fields) = "" →
  (2 ≤ length
         (List.filter
            (by_title (f_title (truncate_post_data E fields)) feed_obj
               (f_date_published (truncate_post_data E fields)))
            (w_posts w)))%nat →
  import_entry E self entry feed_obj w = (Raise (NameError "possible_dupe"), w1)
  ∧ w_posts w1 = w_posts w.
Proof.
  intros Hfields Hguid Hmany.
  assert (Hposts : w_posts w1 = w_posts w).
  { pose proof (post_fields_parsed_same_store E entry feed_obj w) as [k Hk].
    rewrite Hfields in Hk. simpl in Hk. by subst w1. }
  split; [|done].
  assert (Hstore : store_post (truncate_post_data E fields) feed_obj w1
                   = (Raise (NameError "possible_dupe"), w1)).
  { unfold store_post. rewrite Hguid. change (Py.truthy "") with false.
    cbv iota. unfold try_except, Post_get_or_create. rewrite Hposts.
    rewrite Store_get_multiple by done.
    unfold bind, _find_duplicate_post. rewrite Hposts.
    rewrite scan_possible_raises; [done|].
    intros Hnil. rewrite Hnil in Hmany. simpl in Hmany. lia. }
  unfold import_entry. unfold bind at 1. rewrite Hfields.
  unfold bind at 1. by rewrite Hstore.
Qed.

End duplicates.

Lemma import_entry_duplicate_scan_raises_witness :
  ∃ fields w1,
    post_fields_parsed (Demo.env Demo.ticking)
      (Demo.entry "News" "" "Bob" (Some Demo.noon)) (Demo.feed_row None)
      (Demo.store [Demo.feed_row None] [Demo.alice; Demo.bob])
    = (Ok fields, w1)
    ∧ f_guid (truncate_post_data (Demo.env Demo.ticking) fields) = ""
    ∧ List.filter
        (by_title (f_title (truncate_post_data (Demo.env Demo.ticking) fields))
           (Demo.feed_row None)
           (f_date_published
              (truncate_post_data (Demo.env Demo.ticking) fields)))
        [Demo.alice; Demo.bob] = [Demo.alice; Demo.bob]
    ∧ DuplicateResolver.first_agreeing [Demo.alice; Demo.bob]
        (truncate_post_data (Demo.env Demo.ticking) fields) = Some Demo.bob
    ∧ import_entry (Demo.env Demo.ticking) Demo.importer
        (Demo.entry "News" "" "Bob" (Some Demo.noon)) (Demo.feed_row None)
        (Demo.store [Demo.feed_row None] [Demo.alice; Demo.bob])
      = (Raise (NameError "possible_dupe"), w1).
Proof.
  eexists _, _.
  assert (H1 : post_fields_parsed (Demo.env Demo.ticking)
      (Demo.entry "News" "" "Bob" (Some Demo.noon)) (Demo.feed_row None)
      (Demo.store [Demo.feed_row None] [Demo.alice; Demo.bob])
      = (Ok _, _)) by (cbv; reflexivity).
  split; [exact H1|].
  split; [reflexivity|]. split; [reflexivity|]. split; [reflexivity|].
  refine (proj1 (import_entry_duplicate_scan_raises (Demo.env Demo.ticking)
                   Demo.importer _ _ _ _ _ H1 _ _)).
  - reflexivity.
  - simpl. lia.
Defined.

(** ** The posts an import writes *)

Section import_posts.
Context (E : Env).

Lemma fresh_pk_bound (pks : list nat) :
  Forall (λ k, (k < Store.fresh_pk pks)%nat) pks.
Proof.
  unfold Store.fresh_pk. induction pks as [|k pks IH]; simpl; [done|].
  constructor; [lia|]. eapply Forall_impl; [exact IH|]. simpl. lia.
Qed.

Lemma unique_pks_create (posts : list Post) (params : PostFields) :
  unique_pks posts →
  unique_pks (posts ++ [{| post_pk := Store.fresh_pk (post_pk <$> posts);
                           post_fields := params |}]).
Proof.
  unfold unique_pks. intros Hnd. rewrite fmap_app. simpl.
  apply NoDup_app. split; [done|]. split; [|apply NoDup_singleton].
  intros k Hk Hin. apply list_elem_of_singleton in Hin. subst k.
  pose proof (fresh_pk_bound (post_pk <$> posts)) as Hb.
  rewrite Forall_forall in Hb. specialize (Hb _ Hk). lia.
Qed.

(** Saving a row that is in the table as it is leaves the table as it
    is. *)
Lemma save_existing (post : Post) (posts : list Post) :
  unique_pks posts → post ∈ posts →
  Store.save post_pk post posts = posts.
Proof.
  unfold Store.save, unique_pks. intros Hnd Hin.
  assert (Hex : existsb (λ r, Nat.eqb (post_pk r) (post_pk post)) posts = true).
  { apply existsb_exists. exists post. split; [by apply list_elem_of_In|].
    apply Nat.eqb_refl. }
  rewrite Hex. clear Hex.
  induction posts as [|q posts IH]; [done|]. simpl.
  apply NoDup_cons in Hnd as [Hq Hnd].
  destruct (Nat.eqb_spec (post_pk q) (post_pk post)) as [Heq|Hne].
  - apply elem_of_cons in Hin as [->|Hin].
    + f_equal. clear IH. induction posts as [|r posts IH]; [done|]. simpl.
      destruct (Nat.eqb_spec (post_pk r) (post_pk q)) as [Hr|Hr].
      * exfalso. apply Hq. simpl. rewrite Hr. apply list_elem_of_here.
      * f_equal. apply IH.
        -- intros Hin. apply Hq. simpl. by apply list_elem_of_further.
        -- by apply NoDup_cons in Hnd as [_ ?].
    + exfalso. apply Hq. rewrite Heq. by apply list_elem_of_fmap_2.
  - f_equal. apply elem_of_cons in Hin as [->|Hin]; [done|]. by apply IH.
Qed.

Lemma filter_singleton_elem {A} (f : A → bool) (l : list A) (x : A) :
  List.filter f l = [x] → x ∈ l ∧ f x = true.
Proof.
  intros H. assert (Hin : In x (List.filter f l)) by (rewrite H; by left).
  apply filter_In in Hin as [? ?]. split; [by apply list_elem_of_In|done].
Qed.

(** Categories: [get_or_create] keeps them unique and never fails on a
    table where they are. *)
Lemma Category_get_or_create_ok (name domain : string) (w : world) :
  unique_categories (w_categories w) →
  ∃ cat w', Category_get_or_create name domain w = (Ok cat, w')
            ∧ unique_categories (w_categories w')
            ∧ w_posts w' = w_posts w.
Proof.
  intros Huniq. unfold Category_get_or_create, Store.get.
  pose proof (Huniq name domain) as Hlen.
  destruct (List.filter _ (w_categories w)) as [|c [|c' l]] eqn:Hf;
    simpl in Hlen; try lia.
  - eexists _, _. split; [reflexivity|]. split; [|done].
    simpl. intros name' domain'. rewrite List.filter_app, length_app. simpl.
    destruct (String.eqb_spec name name') as [<-|Hn]; simpl.
    + destruct (String.eqb_spec domain domain') as [<-|Hd]; simpl.
      * rewrite Hf. simpl. lia.
      * pose proof (Huniq name domain'). lia.
    + pose proof (Huniq name' domain'). lia.
  - eexists _, _. split; [reflexivity|]. done.
Qed.

Lemma get_categories_ok (categories : option (list (string * string)))
    (w : world) :
  unique_categories (w_categories w) →
  ∃ cats w', get_categories categories w = (Ok cats, w')
             ∧ unique_categories (w_categories w')
             ∧ w_posts w' = w_posts w.
Proof.
  unfold get_categories. destruct categories as [l|]; [|by eexists _, _].
  revert w. induction l as [|c l IH]; intros w Huniq; simpl.
  - by eexists _, _.
  - assert (Hc : ∃ cat w1, create_category c.1 c.2 w = (Ok cat, w1)
                           ∧ unique_categories (w_categories w1)
                           ∧ w_posts w1 = w_posts w)
      by apply (Category_get_or_create_ok _ _ w Huniq).
    destruct Hc as (cat & w1 & H1 & Hu1 & Hp1).
    destruct (IH w1 Hu1) as (cats & w2 & H2 & Hu2 & Hp2).
    exists (cat :: cats), w2. unfold bind. rewrite H1, H2.
    split; [done|]. split; [done|]. congruence.
Qed.

Lemma save_and_attach_ok (self : FeedImporter) (entry : Entry) (post : Post)
    (created : bool) (w : world) :
  store_ok w → (created = false → post ∈ w_posts w) →
  ∃ w', save_and_attach self entry post created w = (Ok post, w')
        ∧ store_ok w' ∧ w_posts w' = w_posts w.
Proof.
  intros [Hpk Hcat] Hin. unfold save_and_attach.
  assert (Hsave : created = false →
                  Store.save post_pk post (w_posts w) = w_posts w).
  { intros Hc. apply save_existing; auto. }
  destruct created, (include_enclosures self), (include_categories self);
    unfold bind, ret, Post_save; cbv beta iota;
    try match goal with
        | |- context [get_categories ?c ?w0] =>
            destruct (get_categories_ok c w0) as (cats & w3 & H3 & Hu3 & Hp3);
              [exact Hcat|rewrite H3]
        end;
    (eexists; split; [reflexivity|]); unfold store_ok; simpl;
    rewrite ?Hp3; simpl; rewrite ?Hsave by done; done.
Qed.

Lemma store_post_cases (fields : PostFields) (feed_obj : Feed)
    (w w' : world) (r : result (Post * bool)) :
  store_post fields feed_obj w = (r, w') →
  (w' = w ∧ ((∃ p, r = Ok (p, false) ∧ p ∈ w_posts w) ∨ ∃ e, r = Raise e))
  ∨ (∃ p, r = Ok (p, true) ∧ w' = set_posts (w_posts w ++ [p]) w
          ∧ p = {| post_pk := Store.fresh_pk (post_pk <$> w_posts w);
                   post_fields := fields |}).
Proof.
  unfold store_post. destruct (Py.truthy (f_guid fields)).
  - unfold Post_get_or_create, Store.get.
    destruct (List.filter _ (w_posts w)) as [|p [|q l]] eqn:Hf.
    + intros [= <- <-]. right. eexists. by repeat split.
    + intros [= <- <-]. left. split; [done|]. left. eexists. split; [done|].
      by apply filter_singleton_elem in Hf as [? _].
    + intros [= <- <-]. left. split; [done|]. right. by eexists.
  - unfold try_except, Post_get_or_create, Store.get.
    destruct (List.filter _ (w_posts w)) as [|p [|q l]] eqn:Hf.
    + intros [= <- <-]. right. eexists. by repeat split.
    + intros [= <- <-]. left. split; [done|]. left. eexists. split; [done|].
      by apply filter_singleton_elem in Hf as [? _].
    + unfold bind, _find_duplicate_post. rewrite Hf. simpl.
      intros [= <- <-]. left. split; [done|]. right. by eexists.
Qed.

(** Whether it returns or raises, [import_entry] leaves the stored posts
    as they are and adds at most the post it returns; a post it returns
    without creating it was stored. *)
Lemma import_entry_posts (self : FeedImporter) (entry : Entry)
    (feed_obj : Feed) (w w' : world) (r : result Post) :
  store_ok w →
  import_entry E self entry feed_obj w = (r, w') →
  store_ok w'
  ∧ (w_posts w' = w_posts w ∧ (∀ p, r = Ok p → p ∈ w_posts w)
     ∨ ∃ p, r = Ok p ∧ w_posts w' = w_posts w ++ [p]).
Proof.
  intros [Hpk Hcat].
  pose proof (post_fields_parsed_same_store E entry feed_obj w) as [k Hk].
  unfold import_entry. unfold bind at 1.
  destruct (post_fields_parsed E entry feed_obj w) as [[fields|e] w0];
    simpl in Hk; subst w0.
  2:{ intros [= <- <-]. split; [done|]. left. split; [done|]. done. }
  unfold bind at 1.
  destruct (store_post (truncate_post_data E fields) feed_obj (set_ticks k w))
    as [rp w1] eqn:Hstore.
  apply store_post_cases in Hstore
    as [[-> [(p & -> & Hin)|[e ->]]]|(p & -> & -> & Hp)].
  - destruct (save_and_attach_ok self entry p false (set_ticks k w))
      as (w2 & Hrun & Hok & Hposts); [done|done|].
    simpl. rewrite Hrun. intros [= <- <-]. split; [done|]. left.
    split; [done|]. by intros p' [= <-].
  - intros [= <- <-]. split; [done|]. left. split; [done|]. done.
  - destruct (save_and_attach_ok self entry p true
                (set_posts (w_posts (set_ticks k w) ++ [p]) (set_ticks k w)))
      as (w2 & Hrun & Hok & Hposts); [|done|].
    { split; [|done]. simpl. subst p. by apply unique_pks_create. }
    cbn [fst snd]. rewrite Hrun. intros [= <- <-]. split; [done|].
    right. exists p. by rewrite Hposts.
Qed.

(** The imports of a batch that all return: the posts they created are
    added to the table in their order, and every post that was returned
    is in the table afterwards. *)
Lemma for_each_import_posts (self : FeedImporter) (feed_obj : Feed)
    (entries : list Entry) (w w' : world) (posts : list Post) :
  store_ok w →
  for_each (λ x, import_entry E self x feed_obj) entries w = (Ok posts, w') →
  store_ok w'
  ∧ (∃ created, w_posts w' = w_posts w ++ created
                ∧ created `sublist_of` posts)
  ∧ Forall (λ p, p ∈ w_posts w') posts.
Proof.
  revert w posts. induction entries as [|x entries IH]; intros w posts Hok.
  - intros [= <- <-]. split; [done|]. split; [|done].
    exists []. by rewrite app_nil_r.
  - cbn [for_each]. unfold bind at 1.
    destruct (import_entry E self x feed_obj w) as [[p|e] w1] eqn:Hx; [|done].
    unfold bind at 1.
    destruct (for_each _ entries w1) as [[ps|e] w2] eqn:Hrest; [|done].
    intros [= <- <-].
    destruct (import_entry_posts self x feed_obj w w1 (Ok p) Hok Hx)
      as [Hok1 Hcase].
    destruct (IH w1 ps Hok1 Hrest) as (Hok2 & (created & Hposts & Hsub) & Hall).
    split; [done|].
    destruct Hcase as [[Hsame Hin]|(p' & [= <-] & Happ)].
    + split.
      * exists created. rewrite Hposts, Hsame. split; [done|].
        by apply sublist_cons.
      * constructor; [|done]. rewrite Hposts, Hsame.
        apply elem_of_app. left. by apply Hin.
    + split.
      * exists (p :: created). rewrite Hposts, Happ, <- app_assoc.
        split; [done|]. by apply sublist_skip.
      * constructor; [|done]. rewrite Hposts, Happ.
        apply elem_of_app. left. apply elem_of_app. right.
        apply list_elem_of_here.
Qed.

End import_posts.

(** ** A failing entry in update_feed *)

Section entry_failure.
Context (E : Env).

Lemma accepted_status (s : Z) :
  status_in s ACCEPTED_STATUSES = true →
  (s =? HTTP_NOT_MODIFIED) = false ∧ (s =? HTTP_NOT_FOUND) = false.
Proof.
  unfold status_in, ACCEPTED_STATUSES. simpl. intros H.
  repeat (apply orb_prop in H as [H|H]); try done;
    apply Z.eqb_eq in H; by subst s.
Qed.

Lemma recently_refreshed_same_store feed_obj :
  preserves same_store (recently_refreshed E feed_obj).
Proof.
  unfold recently_refreshed. repeat preserves_step.
  apply datetime_now_same_store.
Qed.

Lemma run_same_feeds {A} (m : M A) (w w' : world) (r : result A) :
  preserves same_feeds m → m w = (r, w') → w_feeds w' = w_feeds w.
Proof. intros Hm Hrun. specialize (Hm w). rewrite Hrun in Hm. apply Hm. Qed.

Lemma run_same_fetches {A} (m : M A) (w w' : world) (r : result A) :
  preserves same_feeds m → m w = (r, w') → w_fetches w' = w_fetches w.
Proof. intros Hm Hrun. specialize (Hm w). rewrite Hrun in Hm. apply Hm. Qed.

Lemma run_same_posts {A} (m : M A) (w w' : world) (r : result A) :
  preserves same_store m → m w = (r, w') →
  w_posts w' = w_posts w ∧ store_ok w = store_ok w'.
Proof.
  intros Hm Hrun. specialize (Hm w). rewrite Hrun in Hm.
  simpl in Hm. by destruct Hm as [k ->].
Qed.

(** With the feed in hand, [update_feed] is [process_feed] in the world
    after the fetch. *)
Lemma update_feed_process (self : FeedImporter) (feed_obj : Feed)
    (feed : option ParsedFeed) (force : bool) (w w0 : world)
    (f : ParsedFeed) :
  recently_refreshed E feed_obj w = (Ok false, w0) →
  feed_in_hand E feed_obj feed = Parsed f →
  update_feed E self feed_obj feed force w
  = process_feed E self feed_obj f (world_with_feed E self feed_obj feed w0)
  ∧ w_fetches (world_with_feed E self feed_obj feed w0)
    = w_fetches w ++ calls_made E self feed_obj feed
  ∧ w_feeds (world_with_feed E self feed_obj feed w0) = w_feeds w
  ∧ w_posts (world_with_feed E self feed_obj feed w0) = w_posts w.
Proof.
  intros Hrecent Hfeed.
  pose proof (recently_refreshed_same_store feed_obj w) as [k Hk].
  rewrite Hrecent in Hk. simpl in Hk. subst w0.
  unfold update_feed. unfold bind at 1. rewrite Hrecent. cbv iota.
  destruct feed as [f'|]; simpl in Hfeed.
  - injection Hfeed as ->. split; [reflexivity|]. simpl.
    by rewrite app_nil_r.
  - unfold bind at 1. unfold bind at 1. unfold parse_feed at 1.
    rewrite Hfeed. split; [reflexivity|]. done.
Qed.

(** C7, as the code has it.  Take a pass that is not throttled, over a
    feed that was passed in or is fetched by the pass, with an accepted
    status, and let the import of an entry of the ordered batch raise an
    exception after the entries before it were imported.  Then
    [update_feed] raises that exception, and the world it leaves is the
    one the failing import left: the entries after it are not imported
    and the feed row is not saved (its refresh date, its cache token and
    its error stay as they were).  The failing import wrote no post; the
    posts created for the entries before it are in the table, after the
    posts that were there, and every post those imports returned is
    stored. *)
Theorem update_feed_entry_failure_propagates (self : FeedImporter)
    (feed_obj : Feed) (feed : option ParsedFeed) (force : bool)
    (w w0 w1 w2 w3 : world) (f : ParsedFeed) (pre rest : list Entry)
    (entry : Entry) (imported : list Post) (e : exn) :
  store_ok w →
  recently_refreshed E feed_obj w = (Ok false, w0) →
  feed_in_hand E feed_obj feed = Parsed f →
  status_in (default HTTP_OK (pf_ints f !! "status")) ACCEPTED_STATUSES
  = true →
  entries_by_date E (pf_entries f) (post_limit self)
    (world_with_feed E self feed_obj feed w0)
  = (Ok (pre ++ entry :: rest), w1) →
  for_each (λ x, import_entry E self x feed_obj) pre w1 = (Ok imported, w2) →
  import_entry E self entry feed_obj w2 = (Raise e, w3) →
  update_feed E self feed_obj feed force w = (Raise e, w3)
  ∧ w_feeds w3 = w_feeds w
  ∧ w_fetches w3 = w_fetches w ++ calls_made E self feed_obj feed
  ∧ w_posts w3 = w_posts w2
  ∧ (∃ created, w_posts w3 = w_posts w ++ created
                ∧ created `sublist_of` imported)
  ∧ Forall (λ p, p ∈ w_posts w3) imported.
Proof.
  intros Hok Hrecent Hfeed Hstatus Hordered Hpre Hfail.
  destruct (update_feed_process self feed_obj feed force w w0 f Hrecent Hfeed)
    as (Hrun & Hfetch & Hfeeds & Hposts).
  assert (Hok0 : store_ok (world_with_feed E self feed_obj feed w0)).
  { destruct Hok as [Hpk Hcat]. split; [by rewrite Hposts|].
    pose proof (recently_refreshed_same_store feed_obj w) as [k Hk].
    rewrite Hrecent in Hk. simpl in Hk. subst w0. by destruct feed. }
  destruct (run_same_posts _ _ _ _
              (entries_by_date_same_store E _ _) Hordered) as [Hposts1 Hok1].
  rewrite Hok1 in Hok0.
  destruct (for_each_import_posts E self feed_obj pre w1 w2 imported
              Hok0 Hpre) as (Hok2 & (created & Hcreated & Hsub) & Hall).
  destruct (import_entry_posts E self entry feed_obj w2 w3 (Raise e)
              Hok2 Hfail) as [_ [[Hsame _]|(p & [=] & _)]].
  split; [|split; [|split; [|split; [|split]]]].
  - rewrite Hrun. unfold process_feed.
    destruct (accepted_status _ Hstatus) as [-> ->]. rewrite Hstatus.
    change (negb true) with false. cbv iota.
    unfold bind at 1. rewrite Hordered.
    unfold bind at 1.
    by rewrite (for_each_raise _ _ _ _ _ _ _ _ _ Hpre Hfail).
  - rewrite (run_same_feeds _ _ _ _ (import_entry_same_feeds E _ _ _) Hfail).
    rewrite (run_same_feeds _ _ _ _
               (preserves_for_each _ same_feeds_refl same_feeds_trans _ _
                  (λ x, import_entry_same_feeds E self x feed_obj)) Hpre).
    rewrite (run_same_feeds _ _ _ _
               (preserves_weaken _ _ _ same_store_feeds
                  (entries_by_date_same_store E _ _)) Hordered).
    exact Hfeeds.
  - rewrite (run_same_fetches _ _ _ _ (import_entry_same_feeds E _ _ _)
               Hfail).
    rewrite (run_same_fetches _ _ _ _
               (preserves_for_each _ same_feeds_refl same_feeds_trans _ _
                  (λ x, import_entry_same_feeds E self x feed_obj)) Hpre).
    rewrite (run_same_fetches _ _ _ _
               (preserves_weaken _ _ _ same_store_feeds
                  (entries_by_date_same_store E _ _)) Hordered).
    exact Hfetch.
  - exact Hsame.
  - exists created. rewrite Hsame, Hcreated, Hposts1, Hposts. done.
  - by rewrite Hsame.
Qed.

End entry_failure.

Lemma store_ok_start : store_ok Demo.start.
Proof. split; [apply NoDup_nil_2|]. intros name domain. simpl. lia. Qed.

Lemma update_feed_entry_failure_propagates_witness :
  store_ok Demo.start
  ∧ feed_in_hand Demo.env_batch (Demo.feed_row None) None
    = Parsed (Demo.parsed 200 Demo.new_url Demo.batch)
  ∧ entries_by_date Demo.env_batch Demo.batch (post_limit Demo.importer)
      (world_with_feed Demo.env_batch Demo.importer (Demo.feed_row None)
         None Demo.start)
    = (Ok ([Demo.e_g2; Demo.e_g1] ++ Demo.e_none :: [Demo.e_old]),
       Demo.fetched)
  ∧ for_each (λ x, import_entry Demo.env_batch Demo.importer x
                     (Demo.feed_row None))
      [Demo.e_g2; Demo.e_g1] Demo.fetched
    = (Ok Demo.imported_two, Demo.after_two)
  ∧ import_entry Demo.env_batch Demo.importer Demo.e_none
      (Demo.feed_row None) Demo.after_two
    = (Raise (NameError "possible_dupe"), Demo.after_failure)
  ∧ update_feed Demo.env_batch Demo.importer (Demo.feed_row None)
      None false Demo.start
    = (Raise (NameError "possible_dupe"), Demo.after_failure)
  ∧ w_feeds Demo.after_failure = [Demo.feed_row None]
  ∧ w_posts Demo.after_failure = Demo.imported_two
  ∧ (λ p, f_guid (post_fields p)) <$> Demo.imported_two = ["g2"; "g1"].
Proof.
  assert (H1 : recently_refreshed Demo.env_batch (Demo.feed_row None)
                 Demo.start = (Ok false, Demo.start)) by reflexivity.
  assert (H2 : feed_in_hand Demo.env_batch (Demo.feed_row None) None
               = Parsed (Demo.parsed 200 Demo.new_url Demo.batch))
    by reflexivity.
  assert (H3 : status_in
                 (default HTTP_OK
                    (pf_ints (Demo.parsed 200 Demo.new_url Demo.batch)
                       !! "status")) ACCEPTED_STATUSES = true)
    by (vm_compute; reflexivity).
  assert (H4 : entries_by_date Demo.env_batch
                 (pf_entries (Demo.parsed 200 Demo.new_url Demo.batch))
                 (post_limit Demo.importer)
                 (world_with_feed Demo.env_batch Demo.importer
                    (Demo.feed_row None) None Demo.start)
               = (Ok ([Demo.e_g2; Demo.e_g1] ++ Demo.e_none :: [Demo.e_old]),
                  Demo.fetched))
    by (vm_compute; reflexivity).
  assert (H5 : for_each (λ x, import_entry Demo.env_batch Demo.importer x
                                (Demo.feed_row None))
                 [Demo.e_g2; Demo.e_g1] Demo.fetched
               = (Ok Demo.imported_two, Demo.after_two))
    by (vm_compute; reflexivity).
  assert (H6 : import_entry Demo.env_batch Demo.importer Demo.e_none
                 (Demo.feed_row None) Demo.after_two
               = (Raise (NameError "possible_dupe"), Demo.after_failure))
    by (vm_compute; reflexivity).
  split; [exact store_ok_start|]. split; [exact H2|].
  split; [exact H4|]. split; [exact H5|]. split; [exact H6|].
  destruct (update_feed_entry_failure_propagates Demo.env_batch
              Demo.importer (Demo.feed_row None) None false
              _ _ _ _ _ _ _ _ _ _ _
              store_ok_start H1 H2 H3 H4 H5 H6)
    as (Hrun & Hfeeds & _ & Hposts & _).
  split; [exact Hrun|]. split; [exact Hfeeds|].
  split; [exact Hposts|]. reflexivity.
Defined.

(** C7 as the specification states it fails.  In the batch the import of
    the entry without guid raises; [update_feed] raises with it, for a
    feed that was passed in and for one that the pass fetches, and so
    does [refresh_all].  The older entry, which comes after it, is not
    imported, and the feed row keeps [date_last_refresh = None]. *)
Lemma update_feed_entry_failure_not_isolated :
  let r := update_feed (Demo.env Demo.ticking) Demo.importer
             (Demo.feed_row None)
             (Some (Demo.parsed 200 Demo.new_url Demo.batch)) false
             Demo.start in
  let r' := update_feed Demo.env_batch Demo.importer (Demo.feed_row None)
              None false Demo.start in
  let r'' := refresh_all Demo.env_batch false false Demo.start in
  r.1 = Raise (NameError "possible_dupe")
  ∧ (λ p, f_guid (post_fields p)) <$> w_posts r.2 = ["g2"; "g1"]
  ∧ w_feeds r.2 = [Demo.feed_row None]
  ∧ r'.1 = Raise (NameError "possible_dupe")
  ∧ (λ p, f_guid (post_fields p)) <$> w_posts r'.2 = ["g2"; "g1"]
  ∧ w_feeds r'.2 = [Demo.feed_row None]
  ∧ r''.1 = Raise (NameError "possible_dupe")
  ∧ (λ p, f_guid (post_fields p)) <$> w_posts r''.2 = ["g2"; "g1"]
  ∧ w_feeds r''.2 = [Demo.feed_row None].
Proof. vm_compute. repeat split. Qed.

(** ** One post for a guid *)

Section guid_identity.
Context (E : Env).

Lemma truthy_nonempty (s : string) : s ≠ "" → Py.truthy s = true.
Proof.
  intros Hs. unfold Py.truthy. destruct (String.eqb_spec s ""); done.
Qed.

(** A guid that is not empty after trimming is stored as a string that is
    not empty, when the declared length of the field is positive. *)
Lemma stored_guid_nonempty (feed_obj : Feed) (entry : Entry) :
  guid_field_ok E → handle_guid feed_obj entry ≠ "" →
  stored_guid E feed_obj entry ≠ "".
Proof.
  unfold guid_field_ok, stored_guid. intros Hok Hs.
  destruct (Post_field E "guid") as [|[m|]]; try done.
  rewrite truncate_by_field_nonneg by lia.
  destruct (handle_guid feed_obj entry) as [|c s]; [done|].
  destruct (Z.to_nat m) eqn:Hm; [lia|]. done.
Qed.

(** One import of an entry with a guid whose handlers return, in a store
    that has at most one post of that guid and feed. *)
Lemma import_entry_guid_step (self : FeedImporter) (entry : Entry)
    (feed_obj : Feed) (guid : string) (w : world) :
  stored_guid E feed_obj entry = guid → guid ≠ "" →
  handlers_return E entry = true →
  store_ok w →
  (length (List.filter (by_guid guid feed_obj) (w_posts w)) ≤ 1)%nat →
  ∃ post w',
    import_entry E self entry feed_obj w = (Ok post, w')
    ∧ store_ok w'
    ∧ List.filter (by_guid guid feed_obj) (w_posts w') = [post]
    ∧ (List.filter (by_guid guid feed_obj) (w_posts w) = [post]
       ∧ w_posts w' = w_posts w
       ∨ List.filter (by_guid guid feed_obj) (w_posts w) = []
         ∧ w_posts w' = w_posts w ++ [post]
         ∧ ∃ fields w0,
             post_fields_parsed E entry feed_obj w = (Ok fields, w0)
             ∧ post_fields post = truncate_post_data E fields).
Proof.
  intros Hstored Hguid Hret [Hpk Hcat] Hone. unfold stored_guid in Hstored.
  destruct (post_fields_parsed_spec E entry feed_obj w Hret)
    as (fields & k & Hparse & _ & _ & Hg & _ & Hfeed & _).
  assert (Hg' : f_guid (truncate_post_data E fields) = guid).
  { simpl. by rewrite Hg. }
  assert (Hfeed' : f_feed (truncate_post_data E fields) = feed_pk feed_obj)
    by done.
  unfold import_entry. unfold bind at 1. rewrite Hparse.
  unfold store_post. rewrite Hg'.
  rewrite truthy_nonempty by done.
  unfold bind at 1. unfold Post_get_or_create, Store.get. simpl w_posts.
  destruct (List.filter (by_guid guid feed_obj) (w_posts w))
    as [|p [|p' l]] eqn:Hf; simpl in Hone; try lia.
  - (* no post yet: it is created *)
    unfold bind, Post_create, ret. simpl.
    set (post := {| post_pk := Store.fresh_pk (post_pk <$> w_posts w);
                    post_fields := truncate_post_data E fields |}).
    destruct (save_and_attach_ok self entry post true
                (set_posts (w_posts w ++ [post]) (set_ticks k w)))
      as (w' & Hrun & Hok & Hposts); [|done|].
    { split; [by apply unique_pks_create|done]. }
    exists post, w'. split; [exact Hrun|]. split; [done|].
    rewrite Hposts. simpl. split.
    + rewrite List.filter_app, Hf. simpl.
      unfold by_guid at 1. simpl. rewrite Hg, Hstored.
      by rewrite String.eqb_refl, Hfeed, Nat.eqb_refl.
    + right. split; [done|]. split; [done|]. by eexists _, _.
  - (* the post exists: it is saved as it is *)
    apply filter_singleton_elem in Hf as Hp. destruct Hp as [Hin _].
    destruct (save_and_attach_ok self entry p false (set_ticks k w))
      as (w' & Hrun & Hok & Hposts); [done|done|].
    exists p, w'. simpl. split; [exact Hrun|]. split; [done|].
    rewrite Hposts. simpl. split; [done|]. by left.
Qed.

(** C1 on the code.  Let the entries a feed sends under one guid, which
    is not empty when it is stored, be imported one after the other, the
    handlers returning for each, into a store with at most one post of
    that guid and feed.  Every import returns the same post, and the
    store has exactly one post of that identity afterwards: the one that
    was stored, or the one the first import created with the values of
    the first entry.  The imports after the first take the branch of
    [post.save()] and leave the table of posts exactly as the first
    import left it: no value of an entry that is sent again is written to
    the post, whatever its title, content, link, author or dates are. *)
Theorem import_entry_guid_keeps_first_values (self : FeedImporter)
    (feed_obj : Feed) (first : Entry) (resent : list Entry) (guid : string)
    (w : world) :
  guid ≠ "" →
  Forall (λ x, stored_guid E feed_obj x = guid
               ∧ handlers_return E x = true) (first :: resent) →
  store_ok w →
  (length (List.filter (by_guid guid feed_obj) (w_posts w)) ≤ 1)%nat →
  ∃ post w1 w',
    import_entry E self first feed_obj w = (Ok post, w1)
    ∧ for_each (λ x, import_entry E self x feed_obj) (first :: resent) w
      = (Ok (replicate (S (length resent)) post), w')
    ∧ List.filter (by_guid guid feed_obj) (w_posts w') = [post]
    ∧ w_posts w' = w_posts w1
    ∧ (List.filter (by_guid guid feed_obj) (w_posts w) = [post]
       ∧ w_posts w1 = w_posts w
       ∨ List.filter (by_guid guid feed_obj) (w_posts w) = []
         ∧ w_posts w1 = w_posts w ++ [post]
         ∧ ∃ fields w0,
             post_fields_parsed E first feed_obj w = (Ok fields, w0)
             ∧ post_fields post = truncate_post_data E fields)
    ∧ store_ok w'.
Proof.
  intros Hguid Hall. revert first w Hall.
  induction resent as [|second resent IH]; intros first w Hall Hok Hone.
  - apply Forall_cons in Hall as [[Hg Hret] _].
    destruct (import_entry_guid_step self first feed_obj guid w)
      as (post & w' & Hrun & Hok' & Hf & Hcase); auto.
    exists post, w', w'. simpl. unfold bind. rewrite Hrun. simpl. done.
  - apply Forall_cons in Hall as [[Hg Hret] Hall].
    destruct (import_entry_guid_step self first feed_obj guid w)
      as (post & w1 & Hrun & Hok1 & Hf1 & Hcase1); auto.
    destruct (IH second w1 Hall Hok1)
      as (post' & w2 & w' & _ & Hrest & Hf & Hposts2 & Hcase & Hok');
      [by rewrite Hf1|].
    destruct Hcase as [[Hsame Hposts]|[Hnone _]]; [|congruence].
    assert (post' = post) by congruence. subst post'.
    exists post, w1, w'.
    split; [exact Hrun|].
    split.
    { cbn [for_each]. unfold bind at 1. rewrite Hrun.
      unfold bind at 1. cbn [for_each] in Hrest. rewrite Hrest. done. }
    split; [done|]. split; [congruence|]. split; [exact Hcase1|done].
Qed.

End guid_identity.

Lemma import_entry_guid_keeps_first_values_witness :
  "g1" ≠ ""
  ∧ store_ok Demo.start
  ∧ _find_post_summary (Demo.env Demo.ticking) (Demo.feed_row None)
      (Demo.e_g1_with "second") Demo.start
    = (Ok "second", Demo.start)
  ∧ ∃ post w',
      for_each (λ x, import_entry (Demo.env Demo.ticking) Demo.importer x
                       (Demo.feed_row None))
        [Demo.e_g1_with "first"; Demo.e_g1_with "second"] Demo.start
      = (Ok [post; post], w')
      ∧ w_posts w' = [post]
      ∧ f_guid (post_fields post) = "g1"
      ∧ f_content (post_fields post) = "first".
Proof.
  assert (H1 : "g1" ≠ "") by discriminate.
  assert (H2 : Forall (λ x, stored_guid (Demo.env Demo.ticking)
                              (Demo.feed_row None) x = "g1"
                            ∧ handlers_return (Demo.env Demo.ticking) x
                              = true)
                 [Demo.e_g1_with "first"; Demo.e_g1_with "second"])
    by (repeat constructor).
  assert (H3 : (length (List.filter (by_guid "g1" (Demo.feed_row None))
                          (w_posts Demo.start)) ≤ 1)%nat) by (simpl; lia).
  split; [exact H1|]. split; [exact store_ok_start|].
  split; [reflexivity|].
  destruct (import_entry_guid_keeps_first_values (Demo.env Demo.ticking)
              Demo.importer (Demo.feed_row None) (Demo.e_g1_with "first")
              [Demo.e_g1_with "second"] "g1" Demo.start
              H1 H2 store_ok_start H3)
    as (post & w1 & w' & _ & Hrun & _ & Hposts & Hcase & _).
  destruct Hcase as [[Hf _]|(_ & Hw1 & fields & w0 & Hparse & Hfields)];
    [discriminate Hf|].
  exists post, w'. split; [exact Hrun|].
  split; [by rewrite Hposts, Hw1|].
  rewrite Hfields.
  injection Hparse as <- _. split; reflexivity.
Defined.

(** Two imports of one entry: they return the same row, and the store has
    that row only. *)
Lemma import_entry_twice_run :
  let r := for_each (λ x, import_entry (Demo.env Demo.ticking) Demo.importer
                            x (Demo.feed_row None))
             (replicate 2 Demo.e_g1) Demo.start in
  (∃ post, r.1 = Ok [post; post] ∧ w_posts r.2 = [post])
  ∧ length (w_posts r.2) = 1%nat.
Proof. vm_compute. split; [eexists; split; reflexivity | reflexivity]. Qed.

(** What the update branch writes: the feed sends the guid "g1" again
    with another summary; the store still has one post of that guid, and
    the post keeps the content of the first import, since [post.save()]
    writes the row that was read. *)
Lemma import_entry_resend_keeps_content :
  let run :=
    let! _ := import_entry (Demo.env Demo.ticking) Demo.importer
                (Demo.e_g1_with "first") (Demo.feed_row None) in
    import_entry (Demo.env Demo.ticking) Demo.importer
      (Demo.e_g1_with "second") (Demo.feed_row None) in
  (λ p, (f_guid (post_fields p), f_content (post_fields p)))
    <$> w_posts (run Demo.start).2
  = [("g1", "first")].
Proof. vm_compute. reflexivity. Qed.

(** * Further properties of the code *)

(** ** Truncation of field data *)

Lemma append_empty_r (s : string) : String.append s "" = s.
Proof.
  induction s as [|c s IH]; [done|].
  change (String c (String.append s "") = String c s). by rewrite IH.
Qed.

(** X1.  Whatever the field declares, also a negative length,
    [truncate_by_field] returns a prefix of the value: it never changes
    or reorders characters, and the result is never longer than the
    value. *)
Theorem truncate_by_field_prefix (field : field_attr) (s : string) :
  (∃ rest, s = String.append (truncate_by_field field s) rest)
  ∧ (String.length (truncate_by_field field s) ≤ String.length s)%nat.
Proof.
  destruct field as [|[m|]]; simpl.
  - split; [exists ""; by rewrite append_empty_r|done].
  - unfold Py.str_slice_to. split; [apply str_take_prefix|].
    rewrite str_take_length. lia.
  - split; [exists ""; by rewrite append_empty_r|done].
Qed.

(** X2.  [truncate_field_data] on the fields of a post is idempotent when
    the declared lengths of the model are not negative: data that was
    truncated passes a second truncation unchanged. *)
Theorem truncate_post_data_idempotent (E : Env) (data : PostFields) :
  (∀ name m, Post_field E name = MaxLength (Some m) → 0 ≤ m) →
  truncate_post_data E (truncate_post_data E data) = truncate_post_data E data.
Proof.
  intros Hfields. unfold truncate_post_data. simpl.
  rewrite !truncate_by_field_idempotent; eauto.
Qed.

Lemma truncate_post_data_idempotent_witness :
  (∀ name m, Post_field (Demo.env Demo.ticking) name = MaxLength (Some m) →
             0 ≤ m)
  ∧ truncate_post_data (Demo.env Demo.ticking)
      (truncate_post_data (Demo.env Demo.ticking)
         (post_fields Demo.alice))
    = truncate_post_data (Demo.env Demo.ticking) (post_fields Demo.alice).
Proof.
  assert (H : ∀ name m,
             Post_field (Demo.env Demo.ticking) name = MaxLength (Some m) →
             0 ≤ m).
  { intros name m. simpl.
    destruct (String.eqb name "content"); [discriminate|].
    destruct (String.eqb name "author"); intros [= <-]; lia. }
  split; [exact H|].
  exact (truncate_post_data_idempotent (Demo.env Demo.ticking)
           (post_fields Demo.alice) H).
Defined.

(** A negative declared length cuts from the end, and cuts again at the
    second truncation. *)
Lemma truncate_by_field_negative_not_idempotent :
  truncate_by_field (MaxLength (Some (-1))) "abc" = "ab"
  ∧ truncate_by_field (MaxLength (Some (-1))) "ab" = "a".
Proof. split; reflexivity. Qed.

(** ** More on entries_by_date *)

Section entries_by_date_more.
Context (E : Env).

(** The tuples before the slice: sorted, dated, a permutation of the
    decorated input. *)
Lemma sorted_tuples (entries : list Entry) (w : world) :
  ∃ sorted w',
    (∀ limit, sorted_entries_upto E entries limit w
              = (Ok (Py.slice_to limit sorted), w'))
    ∧ (∀ limit, entries_by_date E entries limit w
                = (Ok (snd <$> Py.slice_to limit sorted), w'))
    ∧ snd <$> sorted ≡ₚ entries
    ∧ Sorted tuple_ge sorted
    ∧ Forall (λ x, is_date x.1) sorted.
Proof.
  destruct (for_each_date_entry_tuple E entries w)
    as (dec & w' & Hdec & Hsnd & Hdates).
  exists (rev (list_sort dec)), w'.
  assert (Hperm : rev (list_sort dec) ≡ₚ dec).
  { by rewrite <- Permutation_rev, list_sort_Permutation. }
  split; [|split; [|split; [|split]]].
  - intros limit. unfold sorted_entries_upto, bind. by rewrite Hdec.
  - intros limit. unfold entries_by_date, sorted_entries_upto, bind.
    by rewrite Hdec.
  - by rewrite Hperm, Hsnd.
  - apply Sorted_rev, list_sort_Sorted.
  - by rewrite Hperm.
Qed.

(** X3.  Without a limit ([limit = None]) [entries_by_date] returns a
    permutation of its input: no entry is lost and none is added. *)
Theorem entries_by_date_no_limit_permutation (entries : list Entry)
    (w : world) :
  ∃ out w', entries_by_date E entries None w = (Ok out, w')
            ∧ out ≡ₚ entries.
Proof.
  destruct (sorted_tuples entries w) as (sorted & w' & _ & Hrun & Hperm & _).
  exists (snd <$> sorted), w'. split; [apply (Hrun None)|done].
Qed.

Lemma StronglySorted_snoc_inv {A} (R : A → A → Prop) (l : list A) (x : A) :
  StronglySorted R (l ++ [x]) → Forall (λ y, R y x) l.
Proof.
  induction l as [|a l IH]; simpl; [done|].
  intros Hs. apply StronglySorted_inv in Hs as [Hs Hall].
  constructor; [|by apply IH].
  rewrite Forall_forall in Hall. apply Hall.
  apply elem_of_app. right. apply list_elem_of_here.
Qed.

(** X4.  With the default limit of the function, -1, [entries_by_date]
    drops one entry of every non-empty batch, the last of the sorted
    batch: the pairs (resolved date, entry) that are kept, followed by
    the pair that is dropped, are a permutation of the pairs of the input
    in the descending order of the code, and the date of every pair that
    is kept is not below the date of the pair that is dropped.  The
    result has one entry less than the input. *)
Theorem entries_by_date_default_limit (entries : list Entry) (w : world) :
  entries ≠ [] →
  ∃ decorated kept dropped w',
    for_each (date_entry_tuple E) entries w = (Ok decorated, w')
    ∧ snd <$> decorated = entries
    ∧ kept ++ [dropped] ≡ₚ decorated
    ∧ Sorted tuple_ge (kept ++ [dropped])
    ∧ Forall (λ x, date_ge x.1 dropped.1) kept
    ∧ sorted_entries_upto E entries (Some (-1)) w = (Ok kept, w')
    ∧ entries_by_date E entries (Some (-1)) w = (Ok (snd <$> kept), w')
    ∧ S (length kept) = length entries
    ∧ (snd <$> kept) ++ [dropped.2] ≡ₚ entries.
Proof.
  intros Hne.
  destruct (sorted_batch E entries w)
    as (dec & sorted & w' & Hdec & Hsnd & _ & Hperm & Hsorted & Hstrong
        & Hup & Hrun).
  assert (Hlen : length sorted = length entries).
  { by rewrite Hperm, <- Hsnd, length_fmap. }
  destruct sorted as [|x sorted _] using rev_ind.
  { destruct entries; [done|]. simpl in Hlen. lia. }
  exists dec, sorted, x, w'.
  assert (Hslice : Py.slice_to (Some (-1)) (sorted ++ [x]) = sorted).
  { unfold Py.slice_to, Py.slice_stop. simpl.
    rewrite length_app. simpl.
    replace (Z.to_nat (Z.of_nat (length sorted + 1) + -1))
      with (length sorted) by lia.
    by rewrite take_app_length. }
  split; [done|]. split; [done|]. split; [done|]. split; [done|].
  split; [by apply StronglySorted_snoc_inv in Hstrong|].
  split; [by rewrite Hup, Hslice|]. split; [by rewrite Hrun, Hslice|].
  split; [rewrite <- Hlen, length_app; simpl; lia|].
  rewrite <- Hsnd, <- Hperm, fmap_app. done.
Qed.


End entries_by_date_more.

Lemma entries_by_date_default_limit_witness :
  [Demo.dated "a" [2024; 5; 17]; Demo.dated "c" [2024; 5; 19];
   Demo.dated "b" [2024; 5; 18]] ≠ []
  ∧ ∃ (kept : list (pyval * Entry)) (dropped : pyval * Entry) w',
      kept ++ [dropped]
      ≡ₚ [(PTime [2024; 5; 17], Demo.dated "a" [2024; 5; 17]);
          (PTime [2024; 5; 19], Demo.dated "c" [2024; 5; 19]);
          (PTime [2024; 5; 18], Demo.dated "b" [2024; 5; 18])]
      ∧ Forall (λ x, date_ge x.1 dropped.1) kept
      ∧ entries_by_date (Demo.env Demo.ticking)
          [Demo.dated "a" [2024; 5; 17]; Demo.dated "c" [2024; 5; 19];
           Demo.dated "b" [2024; 5; 18]]
          (Some (-1)) (Demo.store [] []) = (Ok (snd <$> kept), w')
      ∧ snd <$> kept
        = [Demo.dated "c" [2024; 5; 19]; Demo.dated "b" [2024; 5; 18]].
Proof.
  assert (H : [Demo.dated "a" [2024; 5; 17]; Demo.dated "c" [2024; 5; 19];
               Demo.dated "b" [2024; 5; 18]] ≠ []) by discriminate.
  split; [exact H|].
  destruct (entries_by_date_default_limit (Demo.env Demo.ticking)
              [Demo.dated "a" [2024; 5; 17]; Demo.dated "c" [2024; 5; 19];
               Demo.dated "b" [2024; 5; 18]]
              (Demo.store [] []) H)
    as (decorated & kept & dropped & w' & Hdec & _ & Hperm & _ & Hge & _
        & Hrun & _).
  exists kept, dropped, w'.
  split; [by injection Hdec as <- _|]. split; [exact Hge|].
  split; [exact Hrun|].
  assert (Hc : entries_by_date (Demo.env Demo.ticking)
          [Demo.dated "a" [2024; 5; 17]; Demo.dated "c" [2024; 5; 19];
           Demo.dated "b" [2024; 5; 18]]
          (Some (-1)) (Demo.store [] [])
        = (Ok [Demo.dated "c" [2024; 5; 19]; Demo.dated "b" [2024; 5; 18]],
           Demo.store [] [])) by (vm_compute; reflexivity).
  rewrite Hc in Hrun. by injection Hrun as <- _.
Defined.


(** ** More on import_entry *)

Section import_entry_more.
Context (E : Env).


Ltac frame_prim :=
  let w := fresh "w" in
  intros w;
  unfold same_enclosures, same_ticks, Post_get_or_create,
    Category_get_or_create, Post_save, Post_create, _find_duplicate_post,
    Store.get, bind, ret;
  simpl; repeat case_match; simpl; done.

Lemma get_enclosures_empty (entry : Entry) :
  default [] (get_enclosures entry) = [].
Proof. unfold get_enclosures. by destruct (e_enclosures entry). Qed.

Lemma same_enclosures_trans w1 w2 w3 :
  same_enclosures w1 w2 → same_enclosures w2 w3 → same_enclosures w1 w3.
Proof. unfold same_enclosures. congruence. Qed.

Lemma same_ticks_trans w1 w2 w3 :
  same_ticks w1 w2 → same_ticks w2 w3 → same_ticks w1 w3.
Proof. unfold same_ticks. congruence. Qed.

Lemma store_post_frame (R : world → world → Prop) fields feed_obj :
  (∀ w, R w w) → (∀ w l, R w (set_posts l w)) →
  preserves R (store_post fields feed_obj).
Proof.
  intros Hrefl Hposts w.
  destruct (store_post fields feed_obj w) as [r w'] eqn:Hrun.
  apply store_post_cases in Hrun as [[-> _]|(p & _ & -> & _)]; simpl; auto.
Qed.

Lemma get_categories_frame (R : world → world → Prop) categories :
  (∀ w, R w w) → (∀ w1 w2 w3, R w1 w2 → R w2 w3 → R w1 w3) →
  (∀ w l, R w (set_categories l w)) →
  preserves R (get_categories categories).
Proof.
  intros Hrefl Htrans Hcats. unfold get_categories, create_category.
  destruct categories as [l|]; [|by apply preserves_ret].
  apply preserves_for_each; auto. intros c w.
  unfold Category_get_or_create, Store.get.
  repeat case_match; simpl; auto.
Qed.

Lemma save_and_attach_same_ticks self entry post created :
  preserves same_ticks (save_and_attach self entry post created).
Proof.
  unfold save_and_attach.
  assert (Hrefl : ∀ w, same_ticks w w) by done.
  pose proof same_ticks_trans as Htrans.
  repeat preserves_step; try frame_prim.
  by apply get_categories_frame.
Qed.

Lemma save_and_attach_same_enclosures self entry post created :
  preserves same_enclosures (save_and_attach self entry post created).
Proof.
  unfold save_and_attach.
  assert (Hrefl : ∀ w, same_enclosures w w) by done.
  pose proof same_enclosures_trans as Htrans.
  repeat preserves_step; try frame_prim.
  - intros w. unfold same_enclosures. simpl.
    by rewrite get_enclosures_empty.
  - by apply get_categories_frame.
Qed.

(** X7.  [import_entry] never attaches an enclosure to a post, also when
    the importer includes enclosures: [get_enclosures] gives the empty
    list for an entry without enclosures and [None] for the others. *)
Theorem import_entry_attaches_no_enclosure (self : FeedImporter)
    (entry : Entry) (feed_obj : Feed) (w : world) :
  w_post_enclosures (import_entry E self entry feed_obj w).2
  = w_post_enclosures w.
Proof.
  change (same_enclosures w (import_entry E self entry feed_obj w).2).
  revert w. change (preserves same_enclosures
                      (import_entry E self entry feed_obj)).
  unfold import_entry.
  apply preserves_bind; [apply same_enclosures_trans| |intros fields].
  { intros w.
    pose proof (post_fields_parsed_same_store E entry feed_obj w) as [k ->].
    done. }
  apply preserves_bind; [apply same_enclosures_trans| |intros pc].
  { by apply store_post_frame. }
  apply save_and_attach_same_enclosures.
Qed.

(** One import of an entry without guid whose handlers return and whose
    publication date the C library converts, in a store with at most one
    post of its title, feed and date. *)
Lemma import_entry_title_step (self : FeedImporter) (entry : Entry)
    (feed_obj : Feed) (w : world) (t : struct_time) (published : Z) :
  stored_guid E feed_obj entry = "" →
  e_published_parsed entry = Some (Some t) →
  mktime E t = Ok published →
  handlers_return E entry = true →
  store_ok w →
  (length (List.filter
             (by_title (stored_title E feed_obj entry) feed_obj published)
             (w_posts w)) ≤ 1)%nat →
  ∃ post w',
    import_entry E self entry feed_obj w = (Ok post, w')
    ∧ store_ok w'
    ∧ List.filter
        (by_title (stored_title E feed_obj entry) feed_obj published)
        (w_posts w') = [post]
    ∧ (List.filter
         (by_title (stored_title E feed_obj entry) feed_obj published)
         (w_posts w) = [post] ∧ w_posts w' = w_posts w
       ∨ List.filter
           (by_title (stored_title E feed_obj entry) feed_obj published)
           (w_posts w) = [] ∧ w_posts w' = w_posts w ++ [post]).
Proof.
  intros Hguid Hpub Hmk Hret [Hpk Hcat] Hone.
  destruct (post_fields_parsed_spec E entry feed_obj w Hret)
    as (fields & k & Hparse & _ & _ & Hg & Ht & Hfeed & Hdate & _).
  specialize (Hdate t published Hpub Hmk).
  set (title := stored_title E feed_obj entry) in *.
  assert (Hg' : f_guid (truncate_post_data E fields) = "").
  { simpl. by rewrite Hg. }
  assert (Ht' : f_title (truncate_post_data E fields) = title).
  { simpl. by rewrite Ht. }
  assert (Hd' : f_date_published (truncate_post_data E fields) = published)
    by done.
  unfold import_entry. unfold bind at 1. rewrite Hparse.
  unfold store_post. rewrite Hg', Ht', Hd'.
  change (Py.truthy "") with false. cbv iota.
  unfold bind at 1. unfold try_except, Post_get_or_create, Store.get.
  simpl w_posts.
  destruct (List.filter (by_title title feed_obj published) (w_posts w))
    as [|p [|p' l]] eqn:Hf; simpl in Hone; try lia.
  - unfold bind, Post_create, ret. cbn [fst snd].
    set (post := {| post_pk := Store.fresh_pk (post_pk <$> w_posts w);
                    post_fields := truncate_post_data E fields |}).
    destruct (save_and_attach_ok self entry post true
                (set_posts (w_posts w ++ [post]) (set_ticks k w)))
      as (w' & Hrun & Hok & Hposts); [|done|].
    { split; [by apply unique_pks_create|done]. }
    exists post, w'. split; [exact Hrun|]. split; [done|].
    rewrite Hposts. simpl. split; [|by right].
    rewrite List.filter_app, Hf. simpl.
    unfold by_title at 1. simpl. rewrite Ht. fold title.
    by rewrite String.eqb_refl, Hfeed, Nat.eqb_refl, Hdate, Z.eqb_refl.
  - apply filter_singleton_elem in Hf as Hp. destruct Hp as [Hin _].
    destruct (save_and_attach_ok self entry p false (set_ticks k w))
      as (w' & Hrun & Hok & Hposts); [done|done|].
    exists p, w'. cbn [fst snd]. split; [exact Hrun|]. split; [done|].
    rewrite Hposts. simpl. split; [done|]. by left.
Qed.

(** X8.  Without a guid the identity of a post is its title, feed and
    publication date only.  Take a non-empty batch of entries without
    guid that share their stored title and their parsed publication
    date, which the C library converts, whatever their authors, links
    and contents are, and let the handlers return for each of them.
    Importing the batch into a store with at most one post of that
    identity leaves exactly one post of it: every import returns that
    post, and only the first can create it. *)
Theorem import_entry_title_once (self : FeedImporter) (feed_obj : Feed)
    (entries : list Entry) (title : string) (t : struct_time)
    (published : Z) (w : world) :
  entries ≠ [] →
  mktime E t = Ok published →
  Forall (λ x, stored_guid E feed_obj x = ""
               ∧ stored_title E feed_obj x = title
               ∧ e_published_parsed x = Some (Some t)
               ∧ handlers_return E x = true) entries →
  store_ok w →
  (length (List.filter (by_title title feed_obj published) (w_posts w))
   ≤ 1)%nat →
  ∃ post posts w',
    for_each (λ x, import_entry E self x feed_obj) entries w = (Ok posts, w')
    ∧ posts = replicate (length entries) post
    ∧ List.filter (by_title title feed_obj published) (w_posts w') = [post]
    ∧ (List.filter (by_title title feed_obj published) (w_posts w) = [post]
       ∧ w_posts w' = w_posts w
       ∨ List.filter (by_title title feed_obj published) (w_posts w) = []
         ∧ w_posts w' = w_posts w ++ [post])
    ∧ store_ok w'.
Proof.
  intros Hne Hmk Hall. destruct entries as [|e entries]; [done|]. clear Hne.
  revert e w Hall. induction entries as [|e' entries IH];
    intros e w Hall Hok Hone.
  - apply Forall_cons in Hall as [(Hg & Ht & Hp & Hret) _]. subst title.
    destruct (import_entry_title_step self e feed_obj w t published)
      as (post & w' & Hrun & Hok' & Hf & Hcase); auto.
    exists post, [post], w'. simpl. unfold bind. rewrite Hrun. simpl. done.
  - apply Forall_cons in Hall as [(Hg & Ht & Hp & Hret) Hall].
    destruct (import_entry_title_step self e feed_obj w t published)
      as (post & w1 & Hrun & Hok1 & Hf1 & Hcase1); auto;
      rewrite ?Ht in *; [done|].
    destruct (IH e' w1 Hall Hok1)
      as (post' & posts & w' & Hrest & -> & Hf & Hcase & Hok');
      [by rewrite Hf1|].
    destruct Hcase as [[Hsame Hposts]|[Hnone _]]; [|congruence].
    assert (post' = post) by congruence. subst post'.
    exists post, (replicate (length (e :: e' :: entries)) post), w'.
    cbn [for_each]. unfold bind at 1. rewrite Hrun.
    unfold bind at 1. cbn [for_each] in Hrest. rewrite Hrest. unfold ret.
    split; [done|]. split; [done|]. split; [done|]. split; [|done].
    rewrite Hposts. exact Hcase1.
Qed.

(** One import of an entry without guid and without a parsed publication
    date, whose handlers return: the date of the post is the instant of
    the import. *)
Lemma import_entry_undated_step (self : FeedImporter) (entry : Entry)
    (feed_obj : Feed) (w : world) :
  stored_guid E feed_obj entry = "" →
  (∀ t, e_published_parsed entry ≠ Some (Some t)) →
  handlers_return E entry = true →
  store_ok w →
  Forall (λ p, f_date_published (post_fields p) ≠ clock E (w_ticks w))
    (w_posts w) →
  ∃ post w',
    import_entry E self entry feed_obj w = (Ok post, w')
    ∧ store_ok w'
    ∧ w_posts w' = w_posts w ++ [post]
    ∧ f_date_published (post_fields post) = clock E (w_ticks w)
    ∧ (w_ticks w < w_ticks w')%nat.
Proof.
  intros Hguid Hpub Hret [Hpk Hcat] Hfresh.
  destruct (post_fields_parsed_spec E entry feed_obj w Hret)
    as (fields & k & Hparse & _ & _ & Hg & Ht & Hfeed & _ & Hdate).
  destruct (Hdate Hpub) as [Hd Hk]. clear Hdate.
  assert (Hg' : f_guid (truncate_post_data E fields) = "").
  { simpl. by rewrite Hg. }
  unfold import_entry. unfold bind at 1. rewrite Hparse.
  unfold store_post. rewrite Hg'.
  change (Py.truthy "") with false. cbv iota.
  unfold bind at 1. unfold try_except, Post_get_or_create, Store.get.
  simpl w_posts.
  assert (Hf : List.filter
                 (by_title (f_title (truncate_post_data E fields)) feed_obj
                    (f_date_published (truncate_post_data E fields)))
                 (w_posts w) = []).
  { simpl f_date_published. rewrite Hd. clear -Hfresh.
    induction Hfresh as [|p l Hp _ IH]; [done|]. simpl.
    unfold by_title at 1.
    destruct (Z.eqb_spec (f_date_published (post_fields p))
                (clock E (w_ticks w))); [done|].
    by rewrite andb_false_r. }
  rewrite Hf. unfold bind, Post_create, ret. cbn [fst snd].
  set (post := {| post_pk := Store.fresh_pk (post_pk <$> w_posts (set_ticks k w));
                  post_fields := truncate_post_data E fields |}).
  destruct (save_and_attach_ok self entry post true
              (set_posts (w_posts (set_ticks k w) ++ [post]) (set_ticks k w)))
    as (w' & Hrun & Hok & Hposts); [|done|].
  { split; [by apply unique_pks_create|done]. }
  exists post, w'. split; [exact Hrun|]. split; [done|].
  split; [by rewrite Hposts|]. split; [done|].
  pose proof (save_and_attach_same_ticks self entry post true
                (set_posts (w_posts (set_ticks k w) ++ [post])
                   (set_ticks k w))) as Hticks.
  rewrite Hrun in Hticks. unfold same_ticks in Hticks. simpl in Hticks. lia.
Qed.

(** X9.  An entry without guid and without a parsed publication date is
    stored with the instant of its import as its date, which is part of
    its identity.  Let the handlers return for the entry, let the clock
    advance from one read to the next, and let the posts of the store be
    published before the instant of the first import.  Then every import
    of the entry creates a new post: n imports add n posts. *)
Theorem import_entry_undated_duplicates (self : FeedImporter)
    (entry : Entry) (feed_obj : Feed) (n : nat) (w : world) :
  (∀ i j, (i < j)%nat → clock E i < clock E j) →
  stored_guid E feed_obj entry = "" →
  (∀ t, e_published_parsed entry ≠ Some (Some t)) →
  handlers_return E entry = true →
  store_ok w →
  Forall (λ p, f_date_published (post_fields p) < clock E (w_ticks w))
    (w_posts w) →
  ∃ posts w',
    for_each (λ x, import_entry E self x feed_obj) (replicate n entry) w
    = (Ok posts, w')
    ∧ length posts = n
    ∧ w_posts w' = w_posts w ++ posts.
Proof.
  intros Hclock Hguid Hpub Hret. revert w.
  induction n as [|n IH]; intros w Hok Hold.
  - exists [], w. simpl. by rewrite app_nil_r.
  - destruct (import_entry_undated_step self entry feed_obj w)
      as (post & w1 & Hrun & Hok1 & Hposts1 & Hdate & Hticks); auto.
    { eapply Forall_impl; [exact Hold|]. simpl. lia. }
    destruct (IH w1 Hok1) as (posts & w' & Hrest & Hlen & Hposts).
    { rewrite Hposts1. apply Forall_app. split.
      - eapply Forall_impl; [exact Hold|]. simpl. intros p Hp.
        pose proof (Hclock _ _ Hticks). lia.
      - constructor; [|done]. rewrite Hdate. by apply Hclock. }
    exists (post :: posts), w'. simpl. unfold bind at 1. rewrite Hrun.
    unfold bind at 1. rewrite Hrest. unfold ret.
    split; [done|]. split; [simpl; lia|].
    by rewrite Hposts, Hposts1, <- app_assoc.
Qed.

End import_entry_more.


Lemma import_entry_title_once_witness :
  [Demo.entry "News" "" "Alice" (Some Demo.noon);
   Demo.entry "News" "" "Bob" (Some Demo.noon)] ≠ []
  ∧ mktime (Demo.env Demo.ticking) Demo.noon = Ok 0
  ∧ store_ok Demo.start
  ∧ ∃ post posts w',
      for_each (λ x, import_entry (Demo.env Demo.ticking) Demo.importer x
                       (Demo.feed_row None))
        [Demo.entry "News" "" "Alice" (Some Demo.noon);
         Demo.entry "News" "" "Bob" (Some Demo.noon)] Demo.start
      = (Ok posts, w')
      ∧ posts = [post; post]
      ∧ w_posts w' = [post].
Proof.
  assert (H1 : [Demo.entry "News" "" "Alice" (Some Demo.noon);
                Demo.entry "News" "" "Bob" (Some Demo.noon)] ≠ [])
    by discriminate.
  assert (H0 : mktime (Demo.env Demo.ticking) Demo.noon = Ok 0)
    by reflexivity.
  assert (H2 : Forall
                 (λ x, stored_guid (Demo.env Demo.ticking)
                         (Demo.feed_row None) x = ""
                       ∧ stored_title (Demo.env Demo.ticking)
                           (Demo.feed_row None) x = "News"
                       ∧ e_published_parsed x = Some (Some Demo.noon)
                       ∧ handlers_return (Demo.env Demo.ticking) x = true)
                 [Demo.entry "News" "" "Alice" (Some Demo.noon);
                  Demo.entry "News" "" "Bob" (Some Demo.noon)])
    by (repeat constructor).
  assert (H3 : (length (List.filter
                          (by_title "News" (Demo.feed_row None) 0)
                          (w_posts Demo.start)) ≤ 1)%nat) by (simpl; lia).
  split; [exact H1|]. split; [exact H0|]. split; [exact store_ok_start|].
  destruct (import_entry_title_once (Demo.env Demo.ticking) Demo.importer
              (Demo.feed_row None) _ "News" Demo.noon 0 Demo.start
              H1 H0 H2 store_ok_start H3)
    as (post & posts & w' & Hrun & Hposts & _ & Hcase & _).
  exists post, posts, w'. split; [exact Hrun|]. split; [exact Hposts|].
  destruct Hcase as [[Hf _]|[_ Hw]]; [discriminate Hf | exact Hw].
Defined.

Lemma import_entry_undated_duplicates_witness :
  (∀ i j, (i < j)%nat → Demo.ticking i < Demo.ticking j)
  ∧ handlers_return (Demo.env Demo.ticking) (Demo.entry "News" "" "Bob" None)
    = true
  ∧ store_ok Demo.start
  ∧ ∃ posts w',
      for_each (λ x, import_entry (Demo.env Demo.ticking) Demo.importer x
                       (Demo.feed_row None))
        (replicate 2 (Demo.entry "News" "" "Bob" None)) Demo.start
      = (Ok posts, w')
      ∧ length posts = 2%nat
      ∧ w_posts w' = posts.
Proof.
  assert (H1 : ∀ i j, (i < j)%nat → Demo.ticking i < Demo.ticking j)
    by (intros i j Hij; unfold Demo.ticking; lia).
  assert (H2 : stored_guid (Demo.env Demo.ticking) (Demo.feed_row None)
                 (Demo.entry "News" "" "Bob" None) = "") by reflexivity.
  assert (H3 : ∀ t, e_published_parsed (Demo.entry "News" "" "Bob" None)
                    ≠ Some (Some t)) by (intros t; discriminate).
  assert (H4 : Forall (λ p, f_date_published (post_fields p)
                            < clock (Demo.env Demo.ticking)
                                (w_ticks Demo.start))
                 (w_posts Demo.start)) by constructor.
  assert (H5 : handlers_return (Demo.env Demo.ticking)
                 (Demo.entry "News" "" "Bob" None) = true) by reflexivity.
  split; [exact H1|]. split; [exact H5|]. split; [exact store_ok_start|].
  destruct (import_entry_undated_duplicates (Demo.env Demo.ticking)
              Demo.importer (Demo.entry "News" "" "Bob" None)
              (Demo.feed_row None) 2 Demo.start H1 H2 H3 H5 store_ok_start H4)
    as (posts & w' & Hrun & Hlen & Hposts).
  exists posts, w'. split; [exact Hrun|]. split; [exact Hlen | exact Hposts].
Defined.

(** ** The outcomes of update_feed *)

Section update_feed_outcomes.
Context (E : Env).

Lemma recently_refreshed_never (feed_obj : Feed) (w : world) :
  date_last_refresh feed_obj = None →
  recently_refreshed E feed_obj w = (Ok false, w).
Proof. intros H. unfold recently_refreshed. by rewrite H. Qed.

Lemma recently_refreshed_elapsed (feed_obj : Feed) (w : world) (last : Z) :
  date_last_refresh feed_obj = Some last →
  last + MIN_REFRESH_INTERVAL E ≤ clock E (w_ticks w) →
  recently_refreshed E feed_obj w = (Ok false, set_ticks (S (w_ticks w)) w).
Proof.
  intros H Hnow. unfold recently_refreshed, bind, datetime_now, ret.
  rewrite H. by destruct (Z.ltb_spec (clock E (w_ticks w))
                            (last + MIN_REFRESH_INTERVAL E)); [lia|].
Qed.

Lemma recently_refreshed_run (feed_obj : Feed) (w : world) :
  ∃ b k, recently_refreshed E feed_obj w = (Ok b, set_ticks k w).
Proof.
  unfold recently_refreshed, bind, datetime_now, ret.
  destruct (date_last_refresh feed_obj); eexists _, _; [reflexivity|].
  instantiate (1 := w_ticks w). by destruct w.
Qed.

(** The refresh whose fetch fails. *)
Lemma update_feed_fetch_failure_run (self : FeedImporter) (feed_obj : Feed)
    (force : bool) (w w0 : world) (outcome : parse_outcome) :
  recently_refreshed E feed_obj w = (Ok false, w0) →
  feed_in_hand E feed_obj None = outcome →
  (∀ f, outcome ≠ Parsed f) →
  let err := match outcome with
             | ParseTimeout => FEED_TIMEDOUT_ERROR E
             | _ => FEED_GENERIC_ERROR E
             end in
  ∃ w', update_feed E self feed_obj None force w
        = (Ok (with_last_error err feed_obj), w')
        ∧ w_feeds w'
          = Store.save feed_pk (with_last_error err feed_obj) (w_feeds w)
        ∧ w_fetches w' = w_fetches w ++ [refresh_call E self feed_obj]
        ∧ w_posts w' = w_posts w
        ∧ date_last_refresh (with_last_error err feed_obj)
          = date_last_refresh feed_obj.
Proof.
  intros Hrecent Hfeed Hfail err.
  pose proof (recently_refreshed_same_store E feed_obj w) as [k Hk].
  rewrite Hrecent in Hk. simpl in Hk. subst w0.
  unfold update_feed. unfold bind at 1. rewrite Hrecent. cbv iota.
  unfold bind at 1. unfold bind at 1. unfold parse_feed at 1.
  simpl in Hfeed. rewrite Hfeed. subst err.
  destruct outcome as [f| |]; [by destruct (Hfail f)| |];
    (eexists; split; [reflexivity|]; done).
Qed.

(** X10.  A refresh whose fetch times out, or fails with another
    exception, is not raised to the caller: [update_feed] returns the
    feed with [last_error] set to the timeout error, or to the generic
    error, and saves it.  The parser was called once; the refresh date
    of the feed and the posts are as before. *)
Theorem update_feed_fetch_failure (self : FeedImporter) (feed_obj : Feed)
    (force : bool) (w w0 : world) (outcome : parse_outcome) :
  recently_refreshed E feed_obj w = (Ok false, w0) →
  feed_in_hand E feed_obj None = outcome →
  (∀ f, outcome ≠ Parsed f) →
  let err := match outcome with
             | ParseTimeout => FEED_TIMEDOUT_ERROR E
             | _ => FEED_GENERIC_ERROR E
             end in
  ∃ w', update_feed E self feed_obj None force w
        = (Ok (with_last_error err feed_obj), w')
        ∧ w_feeds w'
          = Store.save feed_pk (with_last_error err feed_obj) (w_feeds w)
        ∧ w_fetches w' = w_fetches w ++ [refresh_call E self feed_obj]
        ∧ w_posts w' = w_posts w
        ∧ date_last_refresh (with_last_error err feed_obj)
          = date_last_refresh feed_obj.
Proof.
  exact (update_feed_fetch_failure_run self feed_obj force w w0 outcome).
Qed.

Lemma process_feed_not_modified (self : FeedImporter) (feed_obj : Feed)
    (feed : ParsedFeed) (w : world) :
  pf_ints feed !! "status" = Some HTTP_NOT_MODIFIED →
  process_feed E self feed_obj feed w = (Ok feed_obj, w).
Proof. intros H. unfold process_feed. by rewrite H. Qed.

(** X11.  A feed that answers "not modified" (304) is left alone:
    [update_feed] returns the feed object as it was given and writes
    nothing; the refresh date does not move. *)
Theorem update_feed_not_modified (self : FeedImporter) (feed_obj : Feed)
    (feed : option ParsedFeed) (force : bool) (w w0 : world)
    (f : ParsedFeed) :
  recently_refreshed E feed_obj w = (Ok false, w0) →
  feed_in_hand E feed_obj feed = Parsed f →
  pf_ints f !! "status" = Some HTTP_NOT_MODIFIED →
  ∃ w', update_feed E self feed_obj feed force w = (Ok feed_obj, w')
        ∧ w_feeds w' = w_feeds w
        ∧ w_posts w' = w_posts w
        ∧ w_fetches w' = w_fetches w ++ calls_made E self feed_obj feed.
Proof.
  intros Hrecent Hfeed Hstatus.
  destruct (update_feed_process E self feed_obj feed force w w0 f Hrecent Hfeed)
    as (-> & Hfetch & Hfeeds & Hposts).
  eexists. by rewrite process_feed_not_modified.
Qed.

(** X12.  A feed whose status is rejected (404, or any status that is
    neither accepted nor 304) is recorded, not raised: [update_feed]
    returns the feed with [last_error] set to the not-found error for
    404 and to the generic error otherwise, and saves it; the refresh
    date and the posts are as before. *)
Theorem update_feed_rejected_status (self : FeedImporter) (feed_obj : Feed)
    (feed : option ParsedFeed) (force : bool) (w w0 : world)
    (f : ParsedFeed) (status : Z) :
  recently_refreshed E feed_obj w = (Ok false, w0) →
  feed_in_hand E feed_obj feed = Parsed f →
  pf_ints f !! "status" = Some status →
  status ≠ HTTP_NOT_MODIFIED →
  status_in status ACCEPTED_STATUSES = false →
  let err := if status =? HTTP_NOT_FOUND then FEED_NOT_FOUND_ERROR E
             else FEED_GENERIC_ERROR E in
  ∃ w', update_feed E self feed_obj feed force w
        = (Ok (with_last_error err feed_obj), w')
        ∧ w_feeds w'
          = Store.save feed_pk (with_last_error err feed_obj) (w_feeds w)
        ∧ w_posts w' = w_posts w
        ∧ date_last_refresh (with_last_error err feed_obj)
          = date_last_refresh feed_obj.
Proof.
  intros Hrecent Hfeed Hstatus Hnm Hrej err.
  destruct (update_feed_process E self feed_obj feed force w w0 f Hrecent Hfeed)
    as (-> & Hfetch & Hfeeds & Hposts).
  unfold process_feed. rewrite Hstatus.
  change (default HTTP_OK (Some status)) with status.
  destruct (Z.eqb_spec status HTTP_NOT_MODIFIED); [done|].
  subst err. rewrite Hrej.
  destruct (status =? HTTP_NOT_FOUND); simpl;
    (eexists; split; [reflexivity|]; simpl; by rewrite Hfeeds, Hposts).
Qed.

(** X13.  A pass over a feed with an accepted status whose entries are
    all imported.  When the C library converts the modified date of the
    fetched feed, if it has one, the feed that is returned and saved has
    the instant read after the imports as its refresh date, an empty
    [last_error], the cache token of the fetched feed (the empty string
    when it has none) and its cache date (the stored one when the fetched
    feed has none); the key and the URL are those of the feed object, and
    the posts are those the imports left.  When the C library raises on
    the modified date, the exception leaves [update_feed]: the posts of
    the imports stay and the feed row is not saved. *)
Theorem update_feed_success (self : FeedImporter) (feed_obj : Feed)
    (feed : option ParsedFeed) (force : bool) (w w0 w2 w3 : world)
    (f : ParsedFeed) (ordered : list Entry) (posts : list Post) :
  recently_refreshed E feed_obj w = (Ok false, w0) →
  feed_in_hand E feed_obj feed = Parsed f →
  status_in (default HTTP_OK (pf_ints f !! "status")) ACCEPTED_STATUSES
  = true →
  entries_by_date E (pf_entries f) (post_limit self)
    (world_with_feed E self feed_obj feed w0) = (Ok ordered, w2) →
  for_each (λ x, import_entry E self x feed_obj) ordered w2 = (Ok posts, w3) →
  (∀ stamp, (∀ t, pf_modified f = Some t → mktime E t = Ok stamp) →
     ∃ feed' w',
       update_feed E self feed_obj feed force w = (Ok feed', w')
       ∧ same_feed_identity feed_obj feed'
       ∧ date_last_refresh feed' = Some (clock E (w_ticks w3))
       ∧ feed_last_error feed' = ""
       ∧ http_etag feed' = Some (default "" (pf_etag f))
       ∧ http_last_modified feed'
         = match pf_modified f with
           | Some t => Some stamp
           | None => http_last_modified feed_obj
           end
       ∧ w_feeds w' = Store.save feed_pk feed' (w_feeds w)
       ∧ w_posts w' = w_posts w3
       ∧ w_fetches w' = w_fetches w ++ calls_made E self feed_obj feed)
  ∧ (∀ t e, pf_modified f = Some t → mktime E t = Raise e →
       ∃ w', update_feed E self feed_obj feed force w = (Raise e, w')
             ∧ w_feeds w' = w_feeds w
             ∧ w_posts w' = w_posts w3).
Proof.
  intros Hrecent Hfeed Hstatus Hordered Himport.
  destruct (update_feed_process E self feed_obj feed force w w0 f Hrecent Hfeed)
    as (-> & Hfetch & Hfeeds & Hposts).
  assert (Hf2 : same_feeds (world_with_feed E self feed_obj feed w0) w2).
  { pose proof (entries_by_date_same_store E (pf_entries f) (post_limit self)
                  (world_with_feed E self feed_obj feed w0)) as H.
    rewrite Hordered in H. by apply same_store_feeds. }
  assert (Hf3 : same_feeds w2 w3).
  { pose proof (preserves_for_each _ same_feeds_refl same_feeds_trans _
                  ordered (λ x, import_entry_same_feeds E self x feed_obj) w2)
      as H.
    by rewrite Himport in H. }
  destruct Hf2 as [Hfe2 Hfc2], Hf3 as [Hfe3 Hfc3].
  unfold process_feed.
  destruct (accepted_status _ Hstatus) as [-> ->]. rewrite Hstatus.
  change (negb true) with false. cbv iota.
  split.
  - intros stamp Hmod.
    unfold bind at 1. rewrite Hordered.
    unfold bind at 1. rewrite Himport.
    unfold bind at 1. unfold datetime_now at 1. cbv beta iota.
    destruct (pf_modified f) as [t|] eqn:Ht.
    + unfold bind at 1. unfold bind at 1.
      unfold fromtimestamp_mktime, call. rewrite (Hmod t eq_refl).
      eexists _, _. split; [reflexivity|]. simpl.
      repeat split; try done; congruence.
    + eexists _, _. split; [reflexivity|]. simpl.
      repeat split; try done; congruence.
  - intros t e Ht Hmk.
    unfold bind at 1. rewrite Hordered.
    unfold bind at 1. rewrite Himport.
    unfold bind at 1. unfold datetime_now at 1. cbv beta iota.
    rewrite Ht. unfold bind at 1. unfold bind at 1.
    unfold fromtimestamp_mktime, call. rewrite Hmk.
    eexists. split; [reflexivity|]. simpl. split; congruence.
Qed.

Lemma process_feed_effects (self : FeedImporter) (feed_obj : Feed)
    (f : ParsedFeed) (w : world) :
  w_fetches (process_feed E self feed_obj f w).2 = w_fetches w
  ∧ (w_feeds (process_feed E self feed_obj f w).2 = w_feeds w
     ∨ ∃ f', same_feed_identity feed_obj f'
             ∧ w_feeds (process_feed E self feed_obj f w).2
               = Store.save feed_pk f' (w_feeds w)).
Proof.
  unfold process_feed.
  destruct (_ =? HTTP_NOT_MODIFIED). { simpl. split; [done|left; done]. }
  destruct (_ =? HTTP_NOT_FOUND).
  { simpl. split; [done|]. right. eexists. split; [|reflexivity]. done. }
  destruct (negb _).
  { simpl. split; [done|]. right. eexists. split; [|reflexivity]. done. }
  unfold bind.
  pose proof (entries_by_date_same_store E (pf_entries f) (post_limit self) w)
    as H2. apply same_store_feeds in H2.
  destruct (entries_by_date E (pf_entries f) (post_limit self) w)
    as [[ordered|e] w2]; simpl in H2; destruct H2 as [Hfe2 Hfc2];
    [|simpl; split; [exact Hfc2|left; exact Hfe2]].
  pose proof (preserves_for_each _ same_feeds_refl same_feeds_trans _
                ordered (λ x, import_entry_same_feeds E self x feed_obj) w2)
    as H3.
  destruct (for_each _ ordered w2) as [[posts|e] w3]; simpl in H3;
    destruct H3 as [Hfe3 Hfc3]; simpl.
  - destruct (pf_modified f) as [t|]; simpl.
    + unfold call. destruct (mktime E t) as [stamp|e]; simpl.
      * split; [congruence|]. right. eexists.
        split; [|by rewrite Hfe3, Hfe2]. done.
      * split; [congruence|]. left. congruence.
    + split; [congruence|]. right. eexists.
      split; [|by rewrite Hfe3, Hfe2]. done.
  - split; [congruence|]. left. congruence.
Qed.

Lemma update_feed_effects (self : FeedImporter) (feed_obj : Feed)
    (feed : option ParsedFeed) (force : bool) (w : world) :
  (w_fetches (update_feed E self feed_obj feed force w).2 = w_fetches w
   ∨ feed = None
     ∧ w_fetches (update_feed E self feed_obj feed force w).2
       = w_fetches w ++ [refresh_call E self feed_obj])
  ∧ (w_feeds (update_feed E self feed_obj feed force w).2 = w_feeds w
     ∨ ∃ f', same_feed_identity feed_obj f'
             ∧ w_feeds (update_feed E self feed_obj feed force w).2
               = Store.save feed_pk f' (w_feeds w)).
Proof.
  destruct (recently_refreshed_run feed_obj w) as (b & k & Hrecent).
  destruct b.
  { unfold update_feed, bind. rewrite Hrecent. simpl. by split; left. }
  destruct (feed_in_hand E feed_obj feed) as [f| |] eqn:Hfeed.
  - destruct (update_feed_process E self feed_obj feed force w _ f
                Hrecent Hfeed) as (-> & Hfetch & Hfeeds & _).
    destruct (process_feed_effects self feed_obj f
                (world_with_feed E self feed_obj feed (set_ticks k w)))
      as [Hc Hf].
    rewrite Hc, Hfetch. split.
    + destruct feed; simpl; [left; by rewrite app_nil_r|by right].
    + by rewrite Hfeeds in Hf.
  - destruct feed; [done|].
    destruct (update_feed_fetch_failure_run self feed_obj force w _ ParseTimeout
                Hrecent Hfeed) as (w' & -> & Hfeeds & Hfetch & _); [done|].
    simpl. split; [by right|]. right. eexists. split; [|exact Hfeeds]. done.
  - destruct feed; [done|].
    destruct (update_feed_fetch_failure_run self feed_obj force w _ ParseFailed
                Hrecent Hfeed) as (w' & -> & Hfeeds & Hfetch & _); [done|].
    simpl. split; [by right|]. right. eexists. split; [|exact Hfeeds]. done.
Qed.

(** X14.  Whatever happens in it, [update_feed] calls the parser at
    most once, and not at all when the parsed feed is passed to it: the
    only call it can make is the conditional fetch of the feed's URL with
    the stored cache token and cache date. *)
Theorem update_feed_parser_calls (self : FeedImporter) (feed_obj : Feed)
    (feed : option ParsedFeed) (force : bool) (w : world) :
  w_fetches (update_feed E self feed_obj feed force w).2 = w_fetches w
  ∨ feed = None
    ∧ w_fetches (update_feed E self feed_obj feed force w).2
      = w_fetches w ++ [refresh_call E self feed_obj].
Proof. apply update_feed_effects. Qed.

(** X15.  Whatever happens in it, [update_feed] writes at most one row
    of the table of feeds, by a save of the feed object: the row written
    has the key, the URL, the name, the description and the sort order
    of the feed object it was given. *)
Theorem update_feed_feed_rows (self : FeedImporter) (feed_obj : Feed)
    (feed : option ParsedFeed) (force : bool) (w : world) :
  w_feeds (update_feed E self feed_obj feed force w).2 = w_feeds w
  ∨ ∃ f', same_feed_identity feed_obj f'
          ∧ w_feeds (update_feed E self feed_obj feed force w).2
            = Store.save feed_pk f' (w_feeds w).
Proof. apply update_feed_effects. Qed.

End update_feed_outcomes.

Lemma update_feed_fetch_failure_witness :
  recently_refreshed (Demo.env Demo.ticking) Demo.broken_row
    (Demo.store [Demo.broken_row] [])
  = (Ok false, Demo.store [Demo.broken_row] [])
  ∧ feed_in_hand (Demo.env Demo.ticking) Demo.broken_row None = ParseFailed
  ∧ ∃ w', update_feed (Demo.env Demo.ticking) Demo.importer Demo.broken_row
            None false (Demo.store [Demo.broken_row] [])
          = (Ok (with_last_error "GENERIC_ERROR" Demo.broken_row), w')
          ∧ w_feeds w' = [with_last_error "GENERIC_ERROR" Demo.broken_row]
          ∧ w_posts w' = [].
Proof.
  assert (H1 : recently_refreshed (Demo.env Demo.ticking) Demo.broken_row
                 (Demo.store [Demo.broken_row] [])
               = (Ok false, Demo.store [Demo.broken_row] [])) by reflexivity.
  assert (H2 : feed_in_hand (Demo.env Demo.ticking) Demo.broken_row None
               = ParseFailed) by (vm_compute; reflexivity).
  assert (H3 : ∀ f, ParseFailed ≠ Parsed f) by (intros f; discriminate).
  split; [exact H1|]. split; [exact H2|].
  destruct (update_feed_fetch_failure (Demo.env Demo.ticking) Demo.importer
              Demo.broken_row false _ _ ParseFailed H1 H2 H3)
    as (w' & Hrun & Hfeeds & _ & Hposts & _).
  exists w'. split; [exact Hrun|]. split; [exact Hfeeds | exact Hposts].
Defined.

Lemma update_feed_not_modified_witness :
  recently_refreshed (Demo.env Demo.ticking) (Demo.feed_row None) Demo.start
  = (Ok false, Demo.start)
  ∧ pf_ints (Demo.parsed 304 Demo.new_url [Demo.e_g1]) !! "status"
    = Some HTTP_NOT_MODIFIED
  ∧ ∃ w', update_feed (Demo.env Demo.ticking) Demo.importer
            (Demo.feed_row None)
            (Some (Demo.parsed 304 Demo.new_url [Demo.e_g1])) false Demo.start
          = (Ok (Demo.feed_row None), w')
          ∧ w_feeds w' = [Demo.feed_row None]
          ∧ w_posts w' = [].
Proof.
  assert (H1 : recently_refreshed (Demo.env Demo.ticking)
                 (Demo.feed_row None) Demo.start = (Ok false, Demo.start))
    by reflexivity.
  assert (H2 : pf_ints (Demo.parsed 304 Demo.new_url [Demo.e_g1]) !! "status"
               = Some HTTP_NOT_MODIFIED) by (vm_compute; reflexivity).
  split; [exact H1|]. split; [exact H2|].
  destruct (update_feed_not_modified (Demo.env Demo.ticking) Demo.importer
              (Demo.feed_row None)
              (Some (Demo.parsed 304 Demo.new_url [Demo.e_g1])) false
              _ _ _ H1 eq_refl H2)
    as (w' & Hrun & Hfeeds & Hposts & _).
  exists w'. split; [exact Hrun|]. split; [exact Hfeeds | exact Hposts].
Defined.

Lemma update_feed_rejected_status_witness :
  recently_refreshed (Demo.env Demo.ticking) (Demo.feed_row None) Demo.start
  = (Ok false, Demo.start)
  ∧ pf_ints (Demo.parsed 404 Demo.new_url [Demo.e_g1]) !! "status" = Some 404
  ∧ 404 ≠ HTTP_NOT_MODIFIED
  ∧ status_in 404 ACCEPTED_STATUSES = false
  ∧ ∃ w', update_feed (Demo.env Demo.ticking) Demo.importer
            (Demo.feed_row None)
            (Some (Demo.parsed 404 Demo.new_url [Demo.e_g1])) false Demo.start
          = (Ok (with_last_error "NOT_FOUND_ERROR" (Demo.feed_row None)), w')
          ∧ w_posts w' = [].
Proof.
  assert (H1 : recently_refreshed (Demo.env Demo.ticking)
                 (Demo.feed_row None) Demo.start = (Ok false, Demo.start))
    by reflexivity.
  assert (H2 : pf_ints (Demo.parsed 404 Demo.new_url [Demo.e_g1]) !! "status"
               = Some 404) by (vm_compute; reflexivity).
  assert (H3 : 404 ≠ HTTP_NOT_MODIFIED) by discriminate.
  assert (H4 : status_in 404 ACCEPTED_STATUSES = false) by reflexivity.
  split; [exact H1|]. split; [exact H2|]. split; [exact H3|].
  split; [exact H4|].
  destruct (update_feed_rejected_status (Demo.env Demo.ticking) Demo.importer
              (Demo.feed_row None)
              (Some (Demo.parsed 404 Demo.new_url [Demo.e_g1])) false
              _ _ _ 404 H1 eq_refl H2 H3 H4)
    as (w' & Hrun & _ & Hposts & _).
  exists w'. split; [exact Hrun | exact Hposts].
Defined.

Lemma update_feed_success_witness :
  recently_refreshed (Demo.env_of (Parsed Demo.parsed_cached))
    (Demo.feed_row None) Demo.start
  = (Ok false, Demo.start)
  ∧ feed_in_hand (Demo.env_of (Parsed Demo.parsed_cached))
      (Demo.feed_row None) None
    = Parsed Demo.parsed_cached
  ∧ (∀ t, pf_modified Demo.parsed_cached = Some t →
          mktime (Demo.env_of (Parsed Demo.parsed_cached)) t = Ok 30000000)
  ∧ ∃ feed' w',
      update_feed (Demo.env_of (Parsed Demo.parsed_cached)) Demo.importer
        (Demo.feed_row None) None false Demo.start = (Ok feed', w')
      ∧ date_last_refresh feed' = Some (Demo.ticking 0)
      ∧ feed_last_error feed' = ""
      ∧ http_etag feed' = Some "v2"
      ∧ http_last_modified feed' = Some 30000000
      ∧ w_feeds w' = [feed'].
Proof.
  assert (H1 : recently_refreshed (Demo.env_of (Parsed Demo.parsed_cached))
                 (Demo.feed_row None) Demo.start = (Ok false, Demo.start))
    by reflexivity.
  assert (H2 : feed_in_hand (Demo.env_of (Parsed Demo.parsed_cached))
                 (Demo.feed_row None) None
               = Parsed Demo.parsed_cached) by reflexivity.
  assert (H3 : status_in
                 (default HTTP_OK (pf_ints Demo.parsed_cached !! "status"))
                 ACCEPTED_STATUSES = true) by (vm_compute; reflexivity).
  assert (H4 : ∀ t, pf_modified Demo.parsed_cached = Some t →
                    mktime (Demo.env_of (Parsed Demo.parsed_cached)) t
                    = Ok 30000000)
    by (intros t [= <-]; reflexivity).
  assert (H5 : entries_by_date (Demo.env_of (Parsed Demo.parsed_cached))
                 (pf_entries Demo.parsed_cached) (post_limit Demo.importer)
                 (world_with_feed (Demo.env_of (Parsed Demo.parsed_cached))
                    Demo.importer (Demo.feed_row None) None Demo.start)
               = (Ok [], Demo.fetched)) by reflexivity.
  split; [exact H1|]. split; [exact H2|]. split; [exact H4|].
  destruct (proj1 (update_feed_success (Demo.env_of (Parsed Demo.parsed_cached))
                     Demo.importer (Demo.feed_row None) None false
                     Demo.start Demo.start _ _ Demo.parsed_cached [] []
                     H1 H2 H3 H5 eq_refl) 30000000 H4)
    as (feed' & w' & Hrun & _ & Hdate & Herr & Hetag & Hmod & Hfeeds & _).
  exists feed', w'. split; [exact Hrun|]. split; [exact Hdate|].
  split; [exact Herr|]. split; [exact Hetag|]. split; [exact Hmod|].
  rewrite Hfeeds.
  assert (Hpk : feed_pk feed' = 1%nat).
  { revert Hrun. vm_compute. by intros [= <- _]. }
  unfold Store.save. simpl. rewrite Hpk. reflexivity.
Defined.

(** ** The outcomes of import_feed *)

Section import_feed_outcomes.
Context (E : Env).

(** The first import up to the first read of the status. *)
Lemma import_feed_first_status (depth : nat) (self : FeedImporter)
    (url : string) (force : bool) (w : world) (status : Z) :
  List.filter (λ f, String.eqb (feed_url f) (Py.strip url)) (w_feeds w) = [] →
  first_status (parser_parse E (Py.strip url) None None) = Some status →
  status = HTTP_NOT_FOUND ∨ status_in status ACCEPTED_STATUSES = false →
  import_feed E (S depth) self url force w
  = (Raise (if status =? HTTP_NOT_FOUND then FeedNotFoundError
            else FeedCriticalError__init__ status),
     set_fetches (w_fetches w ++ [import_call self (Py.strip url)]) w).
Proof.
  intros Hnew Hstatus Hrej.
  cbn [import_feed]. unfold try_except, bind at 1. unfold bind at 1.
  unfold Store.get at 1. rewrite Hnew. cbv beta iota.
  unfold bind at 1. unfold bind at 1. unfold parse_feed at 1.
  unfold first_status in Hstatus.
  destruct (parser_parse E (Py.strip url) None None) as [f| |]; [| done |];
    injection Hstatus as Hs; unfold bind at 1; unfold ret at 1;
    cbv beta iota.
  - rewrite Hs. destruct (Z.eqb_spec status HTTP_NOT_FOUND) as [->|Hne].
    + reflexivity.
    + destruct Hrej as [?|Hrej]; [done|]. by rewrite Hrej.
  - subst status. reflexivity.
Qed.

(** X16.  A first import whose fetch answers 404, or answers without a
    status: [import_feed] raises [FeedNotFoundError]; the parser was
    called once and no feed row is stored. *)
Theorem import_feed_not_found (depth : nat) (self : FeedImporter)
    (url : string) (force : bool) (w : world) :
  List.filter (λ f, String.eqb (feed_url f) (Py.strip url)) (w_feeds w) = [] →
  first_status (parser_parse E (Py.strip url) None None)
  = Some HTTP_NOT_FOUND →
  ∃ w', import_feed E (S depth) self url force w
        = (Raise FeedNotFoundError, w')
        ∧ w_feeds w' = w_feeds w
        ∧ w_posts w' = w_posts w
        ∧ w_fetches w' = w_fetches w ++ [import_call self (Py.strip url)].
Proof.
  intros Hnew Hstatus.
  rewrite (import_feed_first_status depth self url force w HTTP_NOT_FOUND
             Hnew Hstatus) by (by left).
  eexists. split; [reflexivity|]. done.
Qed.

(** X17.  A first import whose fetch answers a status that is neither
    404 nor accepted, or whose parser raises (status 500):
    [import_feed] raises [FeedCriticalError]; no feed row is stored.  The
    exception carries that status, unless the status is 0: its
    constructor keeps a status only when it is true, so that for the
    status 0 the attribute is the [None] of the class. *)
Theorem import_feed_critical (depth : nat) (self : FeedImporter)
    (url : string) (force : bool) (w : world) (status : Z) :
  List.filter (λ f, String.eqb (feed_url f) (Py.strip url)) (w_feeds w) = [] →
  first_status (parser_parse E (Py.strip url) None None) = Some status →
  status ≠ HTTP_NOT_FOUND →
  status_in status ACCEPTED_STATUSES = false →
  ∃ w', import_feed E (S depth) self url force w
        = (Raise (FeedCriticalError
                    (if status =? 0 then None else Some status)), w')
        ∧ w_feeds w' = w_feeds w
        ∧ w_posts w' = w_posts w
        ∧ w_fetches w' = w_fetches w ++ [import_call self (Py.strip url)].
Proof.
  intros Hnew Hstatus Hne Hrej.
  rewrite (import_feed_first_status depth self url force w status
             Hnew Hstatus) by (by right).
  destruct (Z.eqb_spec status HTTP_NOT_FOUND); [done|].
  eexists. split; [reflexivity|]. done.
Qed.

(** X18.  A first import whose fetch times out: the handler only binds
    the name [error], the feed stays [None] and the read of its status
    raises [AttributeError]; no feed row is stored and no timeout error
    is recorded. *)
Theorem import_feed_timeout (depth : nat) (self : FeedImporter)
    (url : string) (force : bool) (w : world) :
  List.filter (λ f, String.eqb (feed_url f) (Py.strip url)) (w_feeds w) = [] →
  parser_parse E (Py.strip url) None None = ParseTimeout →
  ∃ w', import_feed E (S depth) self url force w = (Raise AttributeError, w')
        ∧ w_feeds w' = w_feeds w
        ∧ w_posts w' = w_posts w.
Proof.
  intros Hnew Hparse.
  cbn [import_feed]. unfold try_except, bind at 1. unfold bind at 1.
  unfold Store.get at 1. rewrite Hnew. cbv beta iota.
  unfold bind at 1. unfold bind at 1. unfold parse_feed at 1.
  rewrite Hparse. eexists. split; [reflexivity|]. done.
Qed.

(** The import of a URL that is stored, with categories off. *)
Lemma import_feed_stored_run (depth : nat) (self : FeedImporter)
    (url : string) (force : bool) (w : world) (row : Feed) :
  List.filter (λ f, String.eqb (feed_url f) (Py.strip url)) (w_feeds w)
  = [row] →
  include_categories self = false →
  import_feed E (S depth) self url force w
  = if update_on_import self then update_feed E self row None force w
    else (Ok row, w).
Proof.
  intros Hrow Hcat.
  cbn [import_feed]. unfold try_except, bind at 1. unfold bind at 1.
  unfold Store.get at 1. rewrite Hrow. cbv beta iota. unfold ret at 1.
  cbv beta iota.
  unfold import_feed_finish. rewrite Hcat. unfold bind at 1. simpl.
  by destruct (update_on_import self).
Qed.

(** X19.  The import of a URL that is stored once is a refresh of its
    row: with categories off, [import_feed] does not call the parser
    itself and is [update_feed] on the stored row without a parsed feed
    when the importer updates on import, and returns the row untouched
    otherwise. *)
Theorem import_feed_stored (depth : nat) (self : FeedImporter)
    (url : string) (force : bool) (w : world) (row : Feed) :
  List.filter (λ f, String.eqb (feed_url f) (Py.strip url)) (w_feeds w)
  = [row] →
  include_categories self = false →
  import_feed E (S depth) self url force w
  = if update_on_import self then update_feed E self row None force w
    else (Ok row, w).
Proof. exact (import_feed_stored_run depth self url force w row). Qed.

(** The import of a URL that is stored, with categories on. *)
Lemma import_feed_stored_categories_run (depth : nat) (self : FeedImporter)
    (url : string) (force : bool) (w : world) (row : Feed) :
  List.filter (λ f, String.eqb (feed_url f) (Py.strip url)) (w_feeds w)
  = [row] →
  include_categories self = true →
  import_feed E (S depth) self url force w = (Raise AttributeError, w).
Proof.
  intros Hrow Hcat.
  cbn [import_feed]. unfold try_except, bind at 1. unfold bind at 1.
  unfold Store.get at 1. rewrite Hrow. cbv beta iota. unfold ret at 1.
  cbv beta iota.
  unfold import_feed_finish. rewrite Hcat. reflexivity.
Qed.

(** X20.  The import of a stored URL with categories on fails: no feed
    was parsed, and reading its channel raises [AttributeError] before
    anything is written. *)
Theorem import_feed_stored_categories (depth : nat) (self : FeedImporter)
    (url : string) (force : bool) (w : world) (row : Feed) :
  List.filter (λ f, String.eqb (feed_url f) (Py.strip url)) (w_feeds w)
  = [row] →
  include_categories self = true →
  import_feed E (S depth) self url force w = (Raise AttributeError, w).
Proof.
  exact (import_feed_stored_categories_run depth self url force w row).
Qed.

(** X21.  A first import whose fetch answers an accepted status stores
    one new feed row and goes on with it: the row has the trimmed URL
    that was given, the trimmed and truncated title of the channel
    ("(no title)" when the channel has none) as its name, the truncated
    description, no error and no refresh date. *)
Theorem import_feed_creates_row (depth : nat) (self : FeedImporter)
    (url : string) (force : bool) (w : world) (f : ParsedFeed) :
  List.filter (λ r, String.eqb (feed_url r) (Py.strip url)) (w_feeds w) = [] →
  parser_parse E (Py.strip url) None None = Parsed f →
  status_in (default HTTP_NOT_FOUND (pf_ints f !! "status")) ACCEPTED_STATUSES
  = true →
  pf_ints f !! status_key_315 = None →
  import_feed E (S depth) self url force w
  = import_feed_finish E self (new_feed_row E (Py.strip url) f (w_feeds w))
      (Some f) force
      (set_feeds (w_feeds w ++ [new_feed_row E (Py.strip url) f (w_feeds w)])
         (set_fetches (w_fetches w ++ [import_call self (Py.strip url)]) w)).
Proof.
  intros Hnew Hparse Hstatus Hkey.
  cbn [import_feed]. unfold try_except, bind at 1. unfold bind at 1.
  unfold Store.get at 1. rewrite Hnew. cbv beta iota.
  unfold bind at 1. unfold bind at 1. unfold parse_feed at 1.
  rewrite Hparse. unfold bind at 1. unfold ret at 1. rewrite Hkey.
  match goal with
  | |- context [if ?c then raise FeedNotFoundError else _] =>
      replace c with false
  end.
  2:{ symmetry. by destruct (accepted_status _ Hstatus). }
  rewrite Hstatus. change (negb true) with false. cbv iota.
  match goal with
  | |- context [if ?c && ?d then _ else _] =>
      replace c with false by reflexivity
  end.
  rewrite andb_false_l.
  unfold bind, Feed_get_or_create, Store.get, ret. simpl w_feeds.
  match goal with
  | |- context [List.filter ?q (w_feeds w)] =>
      rewrite (filter_nil_weaken
                 (λ r, String.eqb (feed_url r) (Py.strip url)) q (w_feeds w))
  end; [reflexivity| |exact Hnew].
  intros x Hx. repeat (apply andb_prop in Hx as [Hx _]). exact Hx.
Qed.

End import_feed_outcomes.

Lemma import_feed_not_found_witness :
  List.filter (λ f, String.eqb (feed_url f) (Py.strip Demo.new_url))
    (w_feeds (Demo.store [] [])) = []
  ∧ first_status
      (parser_parse (Demo.env_of (Parsed (Demo.parsed 404 Demo.new_url [])))
         (Py.strip Demo.new_url) None None) = Some HTTP_NOT_FOUND
  ∧ ∃ w', import_feed (Demo.env_of (Parsed (Demo.parsed 404 Demo.new_url [])))
            1 Demo.importer Demo.new_url false (Demo.store [] [])
          = (Raise FeedNotFoundError, w')
          ∧ w_feeds w' = [].
Proof.
  assert (H1 : List.filter
                 (λ f, String.eqb (feed_url f) (Py.strip Demo.new_url))
                 (w_feeds (Demo.store [] [])) = []) by reflexivity.
  assert (H2 : first_status
      (parser_parse (Demo.env_of (Parsed (Demo.parsed 404 Demo.new_url [])))
         (Py.strip Demo.new_url) None None) = Some HTTP_NOT_FOUND)
    by (vm_compute; reflexivity).
  split; [exact H1|]. split; [exact H2|].
  destruct (import_feed_not_found
              (Demo.env_of (Parsed (Demo.parsed 404 Demo.new_url [])))
              0 Demo.importer Demo.new_url false (Demo.store [] []) H1 H2)
    as (w' & Hrun & Hfeeds & _).
  exists w'. split; [exact Hrun | exact Hfeeds].
Defined.

Lemma import_feed_critical_witness :
  List.filter (λ f, String.eqb (feed_url f)
                      (Py.strip "http://broken.example/feed"))
    (w_feeds (Demo.store [] [])) = []
  ∧ first_status
      (parser_parse (Demo.env Demo.ticking)
         (Py.strip "http://broken.example/feed") None None) = Some 500
  ∧ 500 ≠ HTTP_NOT_FOUND
  ∧ status_in 500 ACCEPTED_STATUSES = false
  ∧ ∃ w', import_feed (Demo.env Demo.ticking) 1 Demo.importer
            "http://broken.example/feed" false (Demo.store [] [])
          = (Raise (FeedCriticalError (Some 500)), w')
          ∧ w_feeds w' = [].
Proof.
  assert (H1 : List.filter (λ f, String.eqb (feed_url f)
                      (Py.strip "http://broken.example/feed"))
                 (w_feeds (Demo.store [] [])) = []) by reflexivity.
  assert (H2 : first_status
      (parser_parse (Demo.env Demo.ticking)
         (Py.strip "http://broken.example/feed") None None) = Some 500)
    by (vm_compute; reflexivity).
  assert (H3 : 500 ≠ HTTP_NOT_FOUND) by discriminate.
  assert (H4 : status_in 500 ACCEPTED_STATUSES = false) by reflexivity.
  split; [exact H1|]. split; [exact H2|]. split; [exact H3|].
  split; [exact H4|].
  destruct (import_feed_critical (Demo.env Demo.ticking) 0 Demo.importer
              "http://broken.example/feed" false (Demo.store [] []) 500
              H1 H2 H3 H4) as (w' & Hrun & Hfeeds & _).
  exists w'. split; [exact Hrun | exact Hfeeds].
Defined.

(** The status 0 is not accepted, and it is not true: the exception of
    the first import carries [None]. *)
Lemma import_feed_critical_status_zero :
  import_feed (Demo.env_of (Parsed (Demo.parsed 0 Demo.new_url [])))
    1 Demo.importer Demo.new_url false (Demo.store [] [])
  = (Raise (FeedCriticalError None),
     set_fetches [import_call Demo.importer Demo.new_url] (Demo.store [] [])).
Proof. vm_compute. reflexivity. Qed.

Lemma import_feed_timeout_witness :
  List.filter (λ f, String.eqb (feed_url f) (Py.strip Demo.new_url))
    (w_feeds (Demo.store [] [])) = []
  ∧ parser_parse (Demo.env_of ParseTimeout) (Py.strip Demo.new_url) None None
    = ParseTimeout
  ∧ ∃ w', import_feed (Demo.env_of ParseTimeout) 1 Demo.importer
            Demo.new_url false (Demo.store [] [])
          = (Raise AttributeError, w')
          ∧ w_feeds w' = [].
Proof.
  assert (H1 : List.filter
                 (λ f, String.eqb (feed_url f) (Py.strip Demo.new_url))
                 (w_feeds (Demo.store [] [])) = []) by reflexivity.
  assert (H2 : parser_parse (Demo.env_of ParseTimeout)
                 (Py.strip Demo.new_url) None None = ParseTimeout)
    by reflexivity.
  split; [exact H1|]. split; [exact H2|].
  destruct (import_feed_timeout (Demo.env_of ParseTimeout) 0 Demo.importer
              Demo.new_url false (Demo.store [] []) H1 H2)
    as (w' & Hrun & Hfeeds & _).
  exists w'. split; [exact Hrun | exact Hfeeds].
Defined.

Lemma import_feed_stored_witness :
  List.filter (λ f, String.eqb (feed_url f) (Py.strip Demo.new_url))
    (w_feeds Demo.start) = [Demo.feed_row None]
  ∧ include_categories Demo.importer = false
  ∧ import_feed (Demo.env Demo.ticking) 1 Demo.importer Demo.new_url false
      Demo.start
    = update_feed (Demo.env Demo.ticking) Demo.importer (Demo.feed_row None)
        None false Demo.start.
Proof.
  assert (H1 : List.filter
                 (λ f, String.eqb (feed_url f) (Py.strip Demo.new_url))
                 (w_feeds Demo.start) = [Demo.feed_row None])
    by (vm_compute; reflexivity).
  assert (H2 : include_categories Demo.importer = false) by reflexivity.
  split; [exact H1|]. split; [exact H2|].
  exact (import_feed_stored (Demo.env Demo.ticking) 0 Demo.importer
           Demo.new_url false Demo.start (Demo.feed_row None) H1 H2).
Defined.

Lemma import_feed_stored_categories_witness :
  List.filter (λ f, String.eqb (feed_url f) (Py.strip Demo.new_url))
    (w_feeds Demo.start) = [Demo.feed_row None]
  ∧ include_categories Demo.importer_with_categories = true
  ∧ import_feed (Demo.env Demo.ticking) 1 Demo.importer_with_categories
      Demo.new_url false Demo.start
    = (Raise AttributeError, Demo.start).
Proof.
  assert (H1 : List.filter
                 (λ f, String.eqb (feed_url f) (Py.strip Demo.new_url))
                 (w_feeds Demo.start) = [Demo.feed_row None])
    by (vm_compute; reflexivity).
  assert (H2 : include_categories Demo.importer_with_categories = true)
    by reflexivity.
  split; [exact H1|]. split; [exact H2|].
  exact (import_feed_stored_categories (Demo.env Demo.ticking) 0
           Demo.importer_with_categories Demo.new_url false Demo.start
           (Demo.feed_row None) H1 H2).
Defined.

Lemma import_feed_creates_row_witness :
  List.filter (λ r, String.eqb (feed_url r) (Py.strip Demo.new_url))
    (w_feeds (Demo.store [] [])) = []
  ∧ parser_parse (Demo.env Demo.ticking) (Py.strip Demo.new_url) None None
    = Parsed (Demo.parsed 200 Demo.new_url [])
  ∧ feed_name (new_feed_row (Demo.env Demo.ticking) (Py.strip Demo.new_url)
                 (Demo.parsed 200 Demo.new_url []) []) = "Example"
  ∧ import_feed (Demo.env Demo.ticking) 1 Demo.importer Demo.new_url false
      (Demo.store [] [])
    = import_feed_finish (Demo.env Demo.ticking) Demo.importer
        (new_feed_row (Demo.env Demo.ticking) (Py.strip Demo.new_url)
           (Demo.parsed 200 Demo.new_url []) [])
        (Some (Demo.parsed 200 Demo.new_url [])) false
        (set_feeds
           ([] ++ [new_feed_row (Demo.env Demo.ticking)
                     (Py.strip Demo.new_url)
                     (Demo.parsed 200 Demo.new_url []) []])
           (set_fetches ([] ++ [import_call Demo.importer
                                  (Py.strip Demo.new_url)])
              (Demo.store [] []))).
Proof.
  assert (H1 : List.filter
                 (λ r, String.eqb (feed_url r) (Py.strip Demo.new_url))
                 (w_feeds (Demo.store [] [])) = []) by reflexivity.
  assert (H2 : parser_parse (Demo.env Demo.ticking) (Py.strip Demo.new_url)
                 None None = Parsed (Demo.parsed 200 Demo.new_url []))
    by (vm_compute; reflexivity).
  assert (H3 : status_in
                 (default HTTP_NOT_FOUND
                    (pf_ints (Demo.parsed 200 Demo.new_url []) !! "status"))
                 ACCEPTED_STATUSES = true) by (vm_compute; reflexivity).
  assert (H4 : pf_ints (Demo.parsed 200 Demo.new_url []) !! status_key_315
               = None) by (vm_compute; reflexivity).
  split; [exact H1|]. split; [exact H2|].
  split; [vm_compute; reflexivity|].
  exact (import_feed_creates_row (Demo.env Demo.ticking) 0 Demo.importer
           Demo.new_url false (Demo.store [] []) _ H1 H2 H3 H4).
Defined.

(** ** A stored URL and the keyword force *)

Section import_feed_more.
Context (E : Env).

Lemma NoDup_fmap_elem_eq {A B} (g : A → B) (l : list A) (x y : A) :
  NoDup (g <$> l) → x ∈ l → y ∈ l → g x = g y → x = y.
Proof.
  induction l as [|a l IH]; intros Hnd Hx Hy Hg; [by apply elem_of_nil in Hx|].
  rewrite fmap_cons in Hnd. apply NoDup_cons in Hnd as [Ha Hnd].
  apply elem_of_cons in Hx as [->|Hx]; apply elem_of_cons in Hy as [->|Hy].
  - done.
  - exfalso. apply Ha. rewrite Hg. by apply list_elem_of_fmap_2.
  - exfalso. apply Ha. rewrite <- Hg. by apply list_elem_of_fmap_2.
  - by apply IH.
Qed.

Lemma save_keeps_urls (row f' : Feed) (rows : list Feed) :
  NoDup (feed_pk <$> rows) → row ∈ rows → same_feed_identity row f' →
  feed_url <$> Store.save feed_pk f' rows = feed_url <$> rows.
Proof.
  intros Hnd Hin (Hpk & Hurl & _). unfold Store.save.
  assert (Hex : existsb (λ r, Nat.eqb (feed_pk r) (feed_pk f')) rows = true).
  { apply existsb_exists. exists row. split; [by apply list_elem_of_In|].
    rewrite Hpk. apply Nat.eqb_refl. }
  rewrite Hex. rewrite <- list_fmap_compose.
  apply list_fmap_ext. intros i r Hr. simpl.
  destruct (Nat.eqb_spec (feed_pk r) (feed_pk f')) as [Heq|]; [|done].
  assert (r = row).
  { apply (NoDup_fmap_elem_eq feed_pk rows); try done.
    - by eapply list_elem_of_lookup_2.
    - congruence. }
  by subst r.
Qed.

(** X22.  The import of a URL that is stored once, in a table of feeds
    with distinct keys, never adds a feed row and never changes a URL:
    afterwards the table has the same URLs in the same order, whatever
    the outcome of the import is. *)
Theorem import_feed_stored_keeps_urls (depth : nat) (self : FeedImporter)
    (url : string) (force : bool) (w : world) (row : Feed) :
  List.filter (λ f, String.eqb (feed_url f) (Py.strip url)) (w_feeds w)
  = [row] →
  NoDup (feed_pk <$> w_feeds w) →
  feed_url <$> w_feeds (import_feed E (S depth) self url force w).2
  = feed_url <$> w_feeds w.
Proof.
  intros Hrow Hnd.
  destruct (include_categories self) eqn:Hcat.
  - by rewrite (import_feed_stored_categories_run E depth self url force w
                  row).
  - rewrite (import_feed_stored_run E depth self url force w row) by done.
    destruct (update_on_import self); [|done].
    destruct (proj2 (update_feed_effects E self row None force w))
      as [->|(f' & Hid & ->)]; [done|].
    apply (save_keeps_urls row); try done.
    by apply filter_singleton_elem in Hrow as [? _].
Qed.

(** X23.  The keyword [force] has no effect: [import_feed] gives the
    same result and the same store for [force = True] and
    [force = False]. *)
Theorem import_feed_ignores_force (depth : nat) (self : FeedImporter)
    (url : string) (w : world) :
  import_feed E depth self url true w = import_feed E depth self url false w.
Proof.
  revert url w. induction depth as [|depth IH]; intros url w; [done|].
  cbn [import_feed]. unfold bind, try_except, parse_feed, ret, raise.
  destruct (Store.get (w_feeds w) _) as [row|[]]; try reflexivity.
  destruct (parser_parse E (Py.strip url) None None) as [f| |];
    try reflexivity.
  cbv beta iota.
  destruct (_ =? HTTP_NOT_FOUND); [reflexivity|].
  destruct (negb _); [reflexivity|].
  destruct (_ && _); [|reflexivity].
  by rewrite IH.
Qed.

End import_feed_more.

Lemma import_feed_stored_keeps_urls_witness :
  List.filter (λ f, String.eqb (feed_url f) (Py.strip Demo.new_url))
    (w_feeds Demo.start) = [Demo.feed_row None]
  ∧ NoDup (feed_pk <$> w_feeds Demo.start)
  ∧ feed_url <$> w_feeds (import_feed (Demo.env Demo.ticking) 1
                            Demo.importer Demo.new_url false Demo.start).2
    = [Demo.new_url].
Proof.
  assert (H1 : List.filter
                 (λ f, String.eqb (feed_url f) (Py.strip Demo.new_url))
                 (w_feeds Demo.start) = [Demo.feed_row None])
    by (vm_compute; reflexivity).
  assert (H2 : NoDup (feed_pk <$> w_feeds Demo.start))
    by (apply NoDup_singleton).
  split; [exact H1|]. split; [exact H2|].
  exact (import_feed_stored_keeps_urls (Demo.env Demo.ticking) 0
           Demo.importer Demo.new_url false Demo.start (Demo.feed_row None)
           H1 H2).
Defined.

(** ** Categories *)

(** X24.  [create_category] is idempotent on a table of unique
    categories: the first call returns the category of the trimmed name
    and domain, creating it when it is missing, and a second call with
    the same arguments returns the same row and writes nothing; the
    categories stay unique. *)
Theorem create_category_idempotent (domain name : string) (w : world) :
  unique_categories (w_categories w) →
  ∃ cat w1,
    create_category domain name w = (Ok cat, w1)
    ∧ create_category domain name w1 = (Ok cat, w1)
    ∧ cat_name cat = Py.strip name
    ∧ cat_domain cat = Py.strip domain
    ∧ unique_categories (w_categories w1)
    ∧ (w_categories w1 = w_categories w
       ∨ w_categories w1 = w_categories w ++ [cat]).
Proof.
  intros Huniq. unfold create_category, Category_get_or_create, Store.get.
  pose proof (Huniq (Py.strip name) (Py.strip domain)) as Hlen.
  destruct (List.filter _ (w_categories w)) as [|c [|c' l]] eqn:Hf;
    simpl in Hlen; try lia.
  - eexists _, _. split; [reflexivity|]. simpl.
    rewrite List.filter_app, Hf. simpl.
    rewrite !String.eqb_refl. simpl.
    split; [reflexivity|]. split; [done|]. split; [done|].
    split; [|by right].
    intros name' domain'. rewrite List.filter_app, length_app. simpl.
    destruct (String.eqb_spec (Py.strip name) name') as [<-|Hn]; simpl.
    + destruct (String.eqb_spec (Py.strip domain) domain') as [<-|Hd]; simpl.
      * rewrite Hf. simpl. lia.
      * pose proof (Huniq (Py.strip name) domain'). lia.
    + pose proof (Huniq name' domain'). lia.
  - exists c, w. rewrite Hf. split; [done|]. split; [done|].
    apply filter_singleton_elem in Hf as [_ Hc].
    apply andb_prop in Hc as [Hn Hd].
    apply String.eqb_eq in Hn, Hd.
    split; [done|]. split; [done|]. split; [done|]. by left.
Qed.

Lemma create_category_idempotent_witness :
  unique_categories (w_categories Demo.start)
  ∧ ∃ cat w1,
      create_category " tech " "News " Demo.start = (Ok cat, w1)
      ∧ create_category " tech " "News " w1 = (Ok cat, w1)
      ∧ cat_name cat = "News".
Proof.
  assert (H : unique_categories (w_categories Demo.start))
    by (intros name domain; simpl; lia).
  split; [exact H|].
  destruct (create_category_idempotent " tech " "News " Demo.start H)
    as (cat & w1 & H1 & H2 & Hn & _).
  exists cat, w1. split; [exact H1|]. split; [exact H2 | exact Hn].
Defined.

(** ** feedutil.py *)

Section feedutil_facts.
Context (E : Env).

Lemma feedutil_tuples_dated (now : Z) (counter : nat) (entries : list Entry) :
  forallb (λ e, negb (has_parsed_date e)) entries = false →
  feedutil.date_entry_tuples now counter entries = Raise AttributeError.
Proof.
  revert counter. induction entries as [|e entries IH]; intros counter;
    simpl; [done|].
  unfold feedutil.date_entry_tuple, has_parsed_date.
  destruct (e_date_parsed e); [done|].
  destruct (e_updated_parsed e); [done|].
  destruct (e_published_parsed e); [done|]. simpl.
  intros H. by rewrite IH.
Qed.

Lemma feedutil_tuples_undated (now : Z) (counter : nat)
    (entries : list Entry) :
  forallb (λ e, negb (has_parsed_date e)) entries = true →
  ∃ tuples, feedutil.date_entry_tuples now counter entries = Ok tuples.
Proof.
  revert counter. induction entries as [|e entries IH]; intros counter;
    simpl; [by eexists|].
  unfold feedutil.date_entry_tuple, has_parsed_date.
  destruct (e_date_parsed e); [done|].
  destruct (e_updated_parsed e); [done|].
  destruct (e_published_parsed e); [done|]. simpl.
  intros H. destruct (IH (S counter) H) as [tuples ->]. by eexists.
Qed.

(** X25.  [entries_by_date] of feedutil.py never returns a list.  When
    an entry of the batch has a parsed date, the call of [encode] on it
    raises [AttributeError]; otherwise the list is built under the name
    [sortede_entries] and the read of [sorted_entries] raises
    [NameError].  Nothing but the clock is touched. *)
Theorem feedutil_entries_by_date_raises (entries : list Entry)
    (limit : option Z) (w : world) :
  feedutil.entries_by_date E entries limit w
  = (Raise (if forallb (λ e, negb (has_parsed_date e)) entries
            then NameError "sorted_entries" else AttributeError),
     set_ticks (S (w_ticks w)) w).
Proof.
  unfold feedutil.entries_by_date, bind, datetime_now, raise. simpl.
  destruct (forallb _ entries) eqn:Hall.
  - by destruct (feedutil_tuples_undated (clock E (w_ticks w)) 0 entries Hall)
      as [tuples ->].
  - by rewrite feedutil_tuples_dated.
Qed.

(** X26.  In feedutil.py the entries of a batch without parsed dates get
    the dates [now - 30 s * position]: the date of each entry is 30
    seconds before that of the entry before it, so the dates decrease
    strictly with the position and no two are equal. *)
Theorem feedutil_fallback_dates (now : Z) (entries : list Entry) :
  Forall no_parsed_date entries →
  ∃ tuples,
    feedutil.date_entry_tuples now 0 entries = Ok tuples
    ∧ snd <$> tuples = entries
    ∧ (∀ i x, tuples !! i = Some x →
              x.1 = now - feedutil.seconds (30 * Z.of_nat i))
    ∧ (∀ i j x y, (i < j)%nat → tuples !! i = Some x → tuples !! j = Some y →
                  y.1 < x.1).
Proof.
  intros Hall.
  destruct (feedutil_fallback_dates_decrease now entries Hall)
    as (tuples & Hrun & Hsnd & Hdec).
  exists tuples. split; [done|]. split; [done|]. split; [|done].
  rewrite feedutil_date_entry_tuples in Hrun by done.
  injection Hrun as <-. intros i x Hx.
  apply list_lookup_imap_Some in Hx as (e & _ & ->). simpl.
  f_equal. unfold feedutil.seconds. lia.
Qed.

End feedutil_facts.

Lemma feedutil_fallback_dates_witness :
  Forall no_parsed_date [Demo.no_entry; Demo.no_entry]
  ∧ feedutil.date_entry_tuples 100000000 0 [Demo.no_entry; Demo.no_entry]
    = Ok [(100000000, Demo.no_entry); (70000000, Demo.no_entry)].
Proof.
  assert (H : Forall no_parsed_date [Demo.no_entry; Demo.no_entry])
    by (repeat constructor).
  split; [exact H|].
  destruct (feedutil_fallback_dates 100000000
              [Demo.no_entry; Demo.no_entry] H) as (tuples & Hrun & _).
  rewrite Hrun. revert Hrun. vm_compute. by intros [= <-].
Defined.

(** ** refresh_all *)

Section refresh_all_facts.
Context (E : Env).



Lemma refresh_loop_throttled (importer : FeedImporter) (rows : list Feed)
    (w : world) :
  Forall (λ row, ∃ last,
            date_last_refresh row = Some last
            ∧ ∀ k, (w_ticks w ≤ k < w_ticks w + length rows)%nat →
                   clock E k < last + MIN_REFRESH_INTERVAL E) rows →
  for_each (λ feed_obj, update_feed E importer feed_obj None false) rows w
  = (Ok rows, set_ticks (w_ticks w + length rows) w).
Proof.
  revert w. induction rows as [|row rows IH]; intros w Hall.
  - simpl. unfold ret. f_equal. rewrite Nat.add_0_r. by destruct w.
  - apply Forall_cons in Hall as [(last & Hlast & Hnow) Hall].
    cbn [for_each]. unfold bind at 1.
    rewrite (update_feed_recent E importer row None false w last Hlast)
      by (apply Hnow; simpl; lia).
    unfold bind at 1. rewrite IH.
    + unfold ret. simpl. f_equal. unfold set_ticks. simpl. f_equal. lia.
    + eapply Forall_impl; [exact Hall|]. simpl.
      intros r (l & Hl & Hk). exists l. split; [done|].
      intros k Hk'. apply Hk. lia.
Qed.

(** X28.  When every stored feed is inside its throttle window at the
    instants [refresh_all] reads the clock, [refresh_all] returns
    without calling the parser and without writing to any table: only
    the clock was read, once for each feed. *)
Theorem refresh_all_throttled (store_categories store_enclosures : bool)
    (w : world) :
  Forall (λ row, ∃ last,
            date_last_refresh row = Some last
            ∧ ∀ k, (w_ticks w ≤ k < w_ticks w + length (w_feeds w))%nat →
                   clock E k < last + MIN_REFRESH_INTERVAL E) (w_feeds w) →
  refresh_all E store_categories store_enclosures w
  = (Ok tt, set_ticks (w_ticks w + length (w_feeds w)) w).
Proof.
  intros Hall. unfold refresh_all, bind.
  by rewrite refresh_loop_throttled.
Qed.

End refresh_all_facts.

Lemma refresh_all_throttled_witness :
  Forall (λ row, ∃ last,
            date_last_refresh row = Some last
            ∧ ∀ k, (0 ≤ k < 0 + 1)%nat →
                   Demo.ticking k
                   < last + MIN_REFRESH_INTERVAL (Demo.env Demo.ticking))
    [Demo.feed_row (Some 999000000)]
  ∧ refresh_all (Demo.env Demo.ticking) false false
      (Demo.store [Demo.feed_row (Some 999000000)] [])
    = (Ok tt, set_ticks 1 (Demo.store [Demo.feed_row (Some 999000000)] [])).
Proof.
  assert (H : Forall (λ row, ∃ last,
            date_last_refresh row = Some last
            ∧ ∀ k, (0 ≤ k < 0 + 1)%nat →
                   Demo.ticking k
                   < last + MIN_REFRESH_INTERVAL (Demo.env Demo.ticking))
    [Demo.feed_row (Some 999000000)]).
  { constructor; [|constructor]. exists 999000000. split; [reflexivity|].
    intros k Hk. unfold Demo.ticking. simpl. lia. }
  split; [exact H|].
  exact (refresh_all_throttled (Demo.env Demo.ticking) false false
           (Demo.store [Demo.feed_row (Some 999000000)] []) H).
Defined.
